(** * branch-thinking: the transport boundary and the file persistence

    A shallow embedding of [src/index.ts]: the class
    [BranchingThoughtServer] ([processThought], [handleCommand]), the
    function [runServer] and the class [ChoffPersistenceManager]
    ([saveState], [loadState], [enableAutoSave], [disableAutoSave]).

    TypeScript types are erased when the program runs, so the objects that
    cross the two boundaries (the tool arguments, the parsed files, the
    branches handed to the persistence manager) are JavaScript values.  The
    branch manager itself lives in [branchManager.ts]; the server and the
    persistence manager only call it, and it enters here as an interface. *)

From stdpp Require Import base numbers strings pretty list option gmap.
From Stdlib Require Import Ascii String.

Open Scope string_scope.
Open Scope Z_scope.

Set Warnings "-register-all".

(** ** Dates as ISO-8601 text

    [Date.prototype.toISOString] and the parsing of its output by
    [new Date(string)], over time values in milliseconds since the epoch.
    The calendar arithmetic is the usual proleptic Gregorian one, counted in
    400-year eras starting on 1 March of year 0. *)

Module IsoDate.

Definition msPerDay : Z := 86400000.

(** The largest time value of a [Date] (ECMAScript's TimeClip). *)
Definition maxTime : Z := 8640000000000000.

Definition in_range (ms : Z) : bool := Z.abs ms <=? maxTime.

(** Year, month (1..12) and day (1..31) of a day number (days since
    1970-01-01). *)
Definition civil_from_days (z : Z) : Z * Z * Z :=
  let z := z + 719468 in
  let era := z / 146097 in
  let doe := z mod 146097 in
  let yoe := (doe - doe / 1460 + doe / 36524 - doe / 146096) / 365 in
  let doy := doe - (365 * yoe + yoe / 4 - yoe / 100) in
  let mp := (5 * doy + 2) / 153 in
  let d := doy - (153 * mp + 2) / 5 + 1 in
  let m := if mp <? 10 then mp + 3 else mp - 9 in
  let y := yoe + era * 400 in
  (if m <=? 2 then y + 1 else y, m, d).

Definition days_from_civil (y m d : Z) : Z :=
  let y := if m <=? 2 then y - 1 else y in
  let era := y / 400 in
  let yoe := y mod 400 in
  let doy := (153 * (if 2 <? m then m - 3 else m + 9) + 2) / 5 + d - 1 in
  let doe := yoe * 365 + yoe / 4 - yoe / 100 + doy in
  era * 146097 + doe - 719468.

Definition is_leap (y : Z) : bool :=
  (y mod 4 =? 0) && (negb (y mod 100 =? 0) || (y mod 400 =? 0)).

Definition days_in_month (y m : Z) : Z :=
  if m =? 2 then (if is_leap y then 29 else 28)
  else if (m =? 4) || (m =? 6) || (m =? 9) || (m =? 11) then 30
  else 31.

Definition digit_char (d : Z) : ascii :=
  ascii_of_nat (48 + Z.to_nat d).

Definition digit_value (c : ascii) : option Z :=
  let n := Z.of_nat (nat_of_ascii c) in
  if (48 <=? n) && (n <=? 57) then Some (n - 48) else None.

(** [n] in decimal on exactly [w] digits, followed by [rest]. *)
Fixpoint digits (w : nat) (n : Z) (rest : string) : string :=
  match w with
  | O => rest
  | S w' => digits w' (n / 10) (String (digit_char (n mod 10)) rest)
  end.

(** Reads exactly [w] decimal digits; [acc] is the number read so far. *)
Fixpoint read_digits (w : nat) (acc : Z) (s : string) : option (Z * string) :=
  match w with
  | O => Some (acc, s)
  | S w' =>
      match s with
      | String c s' =>
          match digit_value c with
          | Some d => read_digits w' (10 * acc + d) s'
          | None => None
          end
      | EmptyString => None
      end
  end.

(** Reads the one character [c]. *)
Definition expect (c : ascii) (s : string) : option string :=
  match s with
  | String c' s' => if Ascii.eqb c c' then Some s' else None
  | EmptyString => None
  end.

(** [toISOString] of a valid time value: [YYYY-MM-DDTHH:mm:ss.sssZ], the
    year on four digits from 0 to 9999 and otherwise signed on six. *)
Definition toISOString (ms : Z) : string :=
  let '(y, m, d) := civil_from_days (ms / msPerDay) in
  let t := ms mod msPerDay in
  let tail :=
    String "-" (digits 2 m (String "-" (digits 2 d (String "T"
      (digits 2 (t / 3600000) (String ":"
      (digits 2 (t / 60000 mod 60) (String ":"
      (digits 2 (t / 1000 mod 60) (String "."
      (digits 3 (t mod 1000) "Z"))))))))))) in
  if (0 <=? y) && (y <=? 9999) then digits 4 y tail
  else if y <? 0 then String "-" (digits 6 (- y) tail)
  else String "+" (digits 6 y tail).

(** The year of a date-time string: four digits, or a sign and six digits
    ([-000000] is not a year). *)
Definition read_year (s : string) : option (Z * string) :=
  match s with
  | String "+" s' => read_digits 6 0 s'
  | String "-" s' =>
      match read_digits 6 0 s' with
      | Some (y, r) => if y =? 0 then None else Some (- y, r)
      | None => None
      end
  | _ => read_digits 4 0 s
  end.

(** The reading of the complete UTC date-time form, which is what
    [toISOString] writes; [None] on every other text.  [Date.parse] itself
    reads more than this form, in ways that the language leaves to the
    engines: it is [Js.date_of_string], which asks the host for every text
    that is not one that [toISOString] writes. *)
Definition parse (s : string) : option Z :=
  '(y, s) ← read_year s;
  s ← expect "-" s;
  '(m, s) ← read_digits 2 0 s;
  s ← expect "-" s;
  '(d, s) ← read_digits 2 0 s;
  s ← expect "T" s;
  '(hh, s) ← read_digits 2 0 s;
  s ← expect ":" s;
  '(mm, s) ← read_digits 2 0 s;
  s ← expect ":" s;
  '(ss, s) ← read_digits 2 0 s;
  s ← expect "." s;
  '(mmm, s) ← read_digits 3 0 s;
  s ← expect "Z" s;
  let ms := days_from_civil y m d * msPerDay
            + hh * 3600000 + mm * 60000 + ss * 1000 + mmm in
  if String.eqb s ""
     && (1 <=? m) && (m <=? 12) && (1 <=? d) && (d <=? days_in_month y m)
     && ((hh <? 24) || ((hh =? 24) && (mm =? 0) && (ss =? 0) && (mmm =? 0)))
     && (mm <? 60) && (ss <? 60)
     && in_range ms
  then Some ms else None.

(** The calendar date of day [z] is a date of the calendar, and counts
    back to [z]. *)
Definition civil_ok (z : Z) : bool :=
  let '(y, m, d) := civil_from_days z in
  (1 <=? m) && (m <=? 12) && (1 <=? d) && (d <=? days_in_month y m)
  && (0 <=? y) && (y <=? 400)
  && (days_from_civil y m d =? z).

(** [f] holds of the [n] integers from [z] on. *)
Fixpoint all_from (n : nat) (z : Z) (f : Z -> bool) : bool :=
  match n with
  | O => true
  | S n' => f z && all_from n' (z + 1) f
  end.

End IsoDate.

(** ** JavaScript values *)

Module Js.

(** Numbers are IEEE doubles.  The program never computes with them; it
    tests their truthiness, prints them in a template literal, writes them
    with [JSON.stringify] and may hand one to [new Date].  Those
    observations, and the host's rendering of a [Date] in a template
    literal (which depends on its time zone), are the interface. *)
Class JsHost (number : Type) := {
  (** [false] for [0], [-0] and [NaN] *)
  num_truthy : number -> bool;
  (** [String(n)] *)
  num_show : number -> string;
  (** the number [JSON.parse] reads back from what [JSON.stringify] wrote;
      [None] for [NaN] and the infinities, which are written as [null] *)
  num_json : number -> option number;
  (** the time value of [new Date(n)]; [None] is [NaN] *)
  num_time : number -> option Z;
  (** the double of a small integer, such as an array's [length] *)
  num_of_Z : Z -> number;
  (** [String(d)] for a [Date] of time value [d] *)
  date_show : option Z -> string;
  (** [Date.parse(s)] for a text [s] that [toISOString] does not write:
      the other forms of the date-time format and whatever else the engine
      accepts; [None] is [NaN] *)
  date_parse : string -> option Z;
  (** [chalk.green(s)]: [s], wrapped in colour codes when the terminal
      takes them *)
  chalk_green : string -> string
}.

(** Integers, UTC and a colour terminal: enough to run the model on
    examples.  The examples hand [new Date] no text but what [toISOString]
    wrote, so [date_parse], which reads the other texts, is never asked
    and is left empty. *)
#[export] Instance Z_JsHost : JsHost Z := {
  num_truthy z := negb (z =? 0);
  num_show z := pretty z;
  num_json z := Some z;
  num_time z := if IsoDate.in_range z then Some z else None;
  num_of_Z z := z;
  date_show d :=
    match d with
    | Some ms => IsoDate.toISOString ms
    | None => "Invalid Date"
    end;
  date_parse _ := None;
  chalk_green s :=
    String (ascii_of_nat 27) "[32m" ++ s ++ String (ascii_of_nat 27) "[39m"
}.

Section Values.
Context {number : Type} `{JsHost number}.

(** A [Date] object holds a time value, or [NaN] (the invalid date), here
    [None]. *)
Definition Date := option Z.

Inductive value :=
  | VUndefined
  | VNull
  | VBool (b : bool)
  | VNum (n : number)
  | VStr (s : string)
  | VDate (d : Date)
  | VArr (items : list value)
  | VObj (fields : list (string * value)).

(** A JSON document: what a [.json] file holds. *)
Inductive json :=
  | JNull
  | JBool (b : bool)
  | JNum (n : number)
  | JStr (s : string)
  | JArr (items : list json)
  | JObj (fields : list (string * json)).

(** Own properties keep their insertion order; the first entry for a key is
    the property. *)
Fixpoint assoc {A} (k : string) (fs : list (string * A)) : option A :=
  match fs with
  | [] => None
  | (k', v) :: fs' => if String.eqb k k' then Some v else assoc k fs'
  end.

(** [o[k] = v] on own properties: an existing key keeps its place, a new
    one goes last. *)
Fixpoint assoc_set {A} (k : string) (v : A) (fs : list (string * A))
  : list (string * A) :=
  match fs with
  | [] => [(k, v)]
  | (k', v') :: fs' =>
      if String.eqb k k' then (k, v) :: fs' else (k', v') :: assoc_set k v fs'
  end.

(** *** Strings

    A string of the program is a sequence of UTF-16 code units.  It is
    held here as its UTF-8 text, the bytes of a Rocq string: a character
    up to U+FFFF is one unit in one to three bytes, a character beyond is
    two units, a surrogate pair, in four bytes.  A surrogate that stands
    alone, as a cut through a pair leaves it, is held as the three bytes
    that the encoding would give its number. *)

(** The second and later bytes of a character. *)
Definition is_continuation (c : ascii) : bool :=
  let b := nat_of_ascii c in (128 <=? b)%nat && (b <? 192)%nat.

(** The first of the four bytes of a character beyond U+FFFF. *)
Definition is_pair_lead (c : ascii) : bool := (240 <=? nat_of_ascii c)%nat.

(** [s.length] *)
Fixpoint units (s : string) : nat :=
  match s with
  | EmptyString => O
  | String c s' =>
      ((if is_continuation c then 0 else if is_pair_lead c then 2 else 1)
       + units s')%nat
  end.

(** The first unit of the pair whose four bytes start with [c0], [c1] and
    [c2]: the surrogate [110110wwwwzzzzyy] of the character
    [uuuuu zzzz yyyyyy xxxxxx], where [wwww] is [uuuuu - 1]. *)
Definition high_surrogate (c0 c1 c2 : ascii) : string :=
  let b0 := nat_of_ascii c0 in
  let b1 := nat_of_ascii c1 in
  let b2 := nat_of_ascii c2 in
  let u := ((b0 mod 8) * 4 + (b1 / 16) mod 4)%nat in
  let w := ((u - 1) mod 16)%nat in
  let z := (b1 mod 16)%nat in
  let y := ((b2 / 16) mod 4)%nat in
  String (ascii_of_nat 237)
    (String (ascii_of_nat (160 + w))
       (String (ascii_of_nat (128 + z * 4 + y)) EmptyString)).

(** [s.slice(0, n)]: the first [n] units.  A cut that falls inside a pair
    keeps its first unit. *)
Fixpoint slice_to (n : nat) (s : string) : string :=
  match s with
  | EmptyString => EmptyString
  | String c s' =>
      if is_continuation c then String c (slice_to n s')
      else
        match n with
        | O => EmptyString
        | S n' =>
            if is_pair_lead c then
              match n' with
              | O =>
                  match s' with
                  | String c1 (String c2 _) => high_surrogate c c1 c2
                  | _ => EmptyString
                  end
              | S n'' => String c (slice_to n'' s')
              end
            else String c (slice_to n' s')
        end
  end.

(** ToBoolean. *)
Definition truthy (v : value) : bool :=
  match v with
  | VUndefined | VNull => false
  | VBool b => b
  | VNum n => num_truthy n
  | VStr s => negb (String.eqb s "")
  | VDate _ | VArr _ | VObj _ => true
  end.

(** What a [throw] carries: an [Error] object (a [TypeError] is one) with
    its message, or any other value.  The program itself throws [Error]
    objects only; another value can come from the branch manager, and is
    taken to be one that [String] converts. *)
Inductive exn :=
  | ErrorObj (message : string)
  | Thrown (v : value).

Definition type_error (what k : string) : exn :=
  ErrorObj ("Cannot read properties of " ++ what ++ " (reading '" ++ k ++ "')").

(** [v.k] for reading.  On [undefined] and [null] it throws a [TypeError];
    on the other values a missing property is [undefined].  The keys the
    program reads this way ([command], [type], [branchId], [thoughts],
    [timestamp], [id], ...) are neither [length] nor an index nor a method,
    so strings, arrays, dates and the other primitives have none of them. *)
Definition get (v : value) (k : string) : exn + value :=
  match v with
  | VUndefined => inl (type_error "undefined" k)
  | VNull => inl (type_error "null" k)
  | VObj fs => inr (default VUndefined (assoc k fs))
  | _ => inr VUndefined
  end.

(** [k in v] for an own property of an object. *)
Definition has_field (k : string) (v : value) : bool :=
  match v with
  | VObj fs => bool_decide (is_Some (assoc k fs))
  | _ => false
  end.

(** The text of [String(v)] when it returns; an array joins its elements
    with commas, [null] and [undefined] elements being empty. *)
Fixpoint to_string (v : value) : string :=
  match v with
  | VUndefined => "undefined"
  | VNull => "null"
  | VBool true => "true"
  | VBool false => "false"
  | VNum n => num_show n
  | VStr s => s
  | VDate d => date_show d
  | VArr xs =>
      (fix join (xs : list value) : string :=
         match xs with
         | [] => ""
         | x :: xs' =>
             let sx := match x with
                       | VUndefined | VNull => ""
                       | _ => to_string x
                       end in
             match xs' with
             | [] => sx
             | _ => sx ++ "," ++ join xs'
             end
         end) xs
  | VObj _ => "[object Object]"
  end.

(** Whether [String(v)] returns.  To make an array or an object a
    primitive, the conversion calls its [toString] and its [valueOf].  The
    inherited [valueOf] returns the object itself, which is no primitive,
    and an own property [valueOf] holds data and is passed over; so
    [toString] decides.  The inherited one returns: for an object the
    text [[object Object]], for an array its elements joined, each
    converted in the same way.  An own property [toString] holds data,
    never a function here, and then the conversion throws a
    [TypeError]. *)
Fixpoint convertible (v : value) : bool :=
  match v with
  | VObj fs =>
      match assoc "toString" fs with
      | Some _ => false
      | None => true
      end
  | VArr xs =>
      (fix all (xs : list value) : bool :=
         match xs with
         | [] => true
         | x :: xs' => convertible x && all xs'
         end) xs
  | _ => true
  end.

(** [String(v)], as a template literal [`${v}`] evaluates it: the text of
    [v], or the [TypeError] of a value that cannot be made a primitive. *)
Definition template (v : value) : exn + string :=
  if convertible v then inr (to_string v)
  else inl (ErrorObj "Cannot convert object to primitive value").

(** [error instanceof Error ? error.message : String(error)] *)
Definition error_text (e : exn) : string :=
  match e with
  | ErrorObj m => m
  | Thrown v => to_string v
  end.

(** *** [JSON.stringify] and [JSON.parse]

    [to_json v] is the document [JSON.stringify(v)] writes, [None] when it
    writes nothing ([undefined]): a [Date] gives its [toISOString], or
    [null] when invalid; a property whose value is [undefined] is left out;
    an [undefined] array element becomes [null]. *)
Fixpoint to_json (v : value) : option json :=
  match v with
  | VUndefined => None
  | VNull => Some JNull
  | VBool b => Some (JBool b)
  | VNum n => Some (match num_json n with Some n' => JNum n' | None => JNull end)
  | VStr s => Some (JStr s)
  | VDate (Some ms) => Some (JStr (IsoDate.toISOString ms))
  | VDate None => Some JNull
  | VArr xs =>
      Some (JArr ((fix items (xs : list value) : list json :=
                     match xs with
                     | [] => []
                     | x :: xs' => default JNull (to_json x) :: items xs'
                     end) xs))
  | VObj fs =>
      Some (JObj ((fix fields (fs : list (string * value))
                     : list (string * json) :=
                     match fs with
                     | [] => []
                     | (k, x) :: fs' =>
                         match to_json x with
                         | Some j => (k, j) :: fields fs'
                         | None => fields fs'
                         end
                     end) fs))
  end.

(** [JSON.stringify] of an object literal. *)
Definition object_json (fs : list (string * value)) : json :=
  default JNull (to_json (VObj fs)).

(** The value [JSON.parse] builds from a document. *)
Fixpoint of_json (j : json) : value :=
  match j with
  | JNull => VNull
  | JBool b => VBool b
  | JNum n => VNum n
  | JStr s => VStr s
  | JArr xs => VArr (map of_json xs)
  | JObj fs => VObj (map (fun kv => (kv.1, of_json kv.2)) fs)
  end.

(** The values that [JSON.parse(JSON.stringify(v))] gives back as they
    are: no [undefined], no [Date], no number that is written as [null] or
    read back as another. *)
Fixpoint clean (v : value) : Prop :=
  match v with
  | VNull | VBool _ | VStr _ => True
  | VNum n => num_json n = Some n
  | VUndefined | VDate _ => False
  | VArr xs =>
      (fix all (xs : list value) : Prop :=
         match xs with
         | [] => True
         | x :: xs' => clean x /\ all xs'
         end) xs
  | VObj fs =>
      (fix all (fs : list (string * value)) : Prop :=
         match fs with
         | [] => True
         | kv :: fs' => clean kv.2 /\ all fs'
         end) fs
  end.

(** [Date.parse(s)].  The text that [toISOString] writes for a time value
    reads back as that value, which the language guarantees; any other
    text is read as the engine reads it. *)
Definition date_of_string (s : string) : Date :=
  match IsoDate.parse s with
  | Some ms =>
      if String.eqb (IsoDate.toISOString ms) s then Some ms else date_parse s
  | None => date_parse s
  end.

(** [new Date(v)].  A string is parsed; a number is a time value; [null]
    and [false] are 0, [true] is 1; [undefined] gives the invalid date; a
    [Date] is copied; an array or an object is made a primitive, which is
    its string, and that is parsed; when it cannot be made one,
    [new Date] throws. *)
Definition new_Date (v : value) : exn + Date :=
  match v with
  | VStr s => inr (date_of_string s)
  | VNum n => inr (num_time n)
  | VNull | VBool false => inr (Some 0)
  | VBool true => inr (Some 1)
  | VDate d => inr d
  | VUndefined => inr None
  | VArr _ | VObj _ =>
      match template v with
      | inr s => inr (date_of_string s)
      | inl e => inl e
      end
  end.

End Values.

Arguments value : clear implicits.
Arguments json : clear implicits.
Arguments exn : clear implicits.

(** A step that returns or throws. *)
#[export] Instance result_ret {number} : MRet (sum (exn number)) :=
  fun A a => inr a.
#[export] Instance result_bind {number} : MBind (sum (exn number)) :=
  fun A B k r =>
    match r with
    | inr a => k a
    | inl e => inl e
    end.

End Js.

(** ** Computations that may throw

    A computation runs on a state, and either returns or throws; what it
    did to the state before throwing stays done. *)

Module Prog.

Section Prog.
Context {number : Type}.
#[local] Abbreviation exn := (Js.exn number).

Definition prog (S A : Type) : Type := S -> (exn + A) * S.

Definition ret {S A} (a : A) : prog S A := fun s => (inr a, s).

Definition throw {S A} (e : exn) : prog S A := fun s => (inl e, s).

Definition bind {S A B} (c : prog S A) (k : A -> prog S B) : prog S B :=
  fun s =>
    match c s with
    | (inr a, s') => k a s'
    | (inl e, s') => (inl e, s')
    end.

(** [try { body } catch (error) { handler }] *)
Definition try_catch {S A} (body : prog S A) (handler : exn -> prog S A)
  : prog S A :=
  fun s =>
    match body s with
    | (inr a, s') => (inr a, s')
    | (inl e, s') => handler e s'
    end.

(** A pure step that may throw, such as a property read. *)
Definition lift {S A} (r : exn + A) : prog S A := fun s => (r, s).

Definition modify {S} (f : S -> S) : prog S unit := fun s => (inr tt, f s).

Definition read {S A} (f : S -> A) : prog S A := fun s => (inr (f s), s).

(** [for (const x of xs) { body }] *)
Fixpoint for_of {S A} (xs : list A) (body : A -> prog S unit) : prog S unit :=
  match xs with
  | [] => ret tt
  | x :: xs' => bind (body x) (fun _ => for_of xs' body)
  end.

End Prog.

Arguments prog : clear implicits.

#[export] Instance prog_ret {number S} : MRet (prog number S) :=
  fun A a => ret a.
#[export] Instance prog_bind {number S} : MBind (prog number S) :=
  fun A B k c => bind c k.
#[export] Instance prog_fmap {number S} : FMap (prog number S) :=
  fun A B f c => bind c (fun a => ret (f a)).

End Prog.

(** ** The server: [BranchingThoughtServer] *)

Module Server.
Import Js Prog.

Section Server.
Context {number : Type} `{JsHost number}.

(** The fields of [ThoughtData] and [ThoughtBranch] that [index.ts] reads;
    [types.ts] declares the rest, which the server never looks at.
    Insights and cross-references are only counted. *)
Record ThoughtData := {
  thought_id : string;
  thought_branchId : string;
  thought_content : string
}.

Record ThoughtBranch := {
  branch_id : string;
  branch_state : string;
  branch_priority : number;
  branch_thoughts : list ThoughtData;
  branch_insights : list (value number);
  branch_crossRefs : list (value number)
}.

(** [BranchManager], as the server calls it.  Its code is not part of
    [index.ts]: every method may change the manager and may throw.
    Arguments that come from the request are untyped values; where the
    code asserts a result non-null with [!], the result may still be
    [undefined], here [None]. *)
Class BranchManager (M : Type) := {
  addThought : value number -> prog number M ThoughtData;
  getBranch : value number -> prog number M (option ThoughtBranch);
  formatBranchStatus : option ThoughtBranch -> prog number M string;
  getActiveBranch : prog number M (option ThoughtBranch);
  getAllBranches : prog number M (list ThoughtBranch);
  setActiveBranch : value number -> prog number M unit;
  getBranchHistory : value number -> prog number M string
}.

Context {M : Type} `{BranchManager M}.

(** The calls the server makes on its branch manager, in order. *)
Inductive call :=
  | CallAddThought (input : value number)
  | CallGetBranch (id : value number)
  | CallFormatBranchStatus (branch : option ThoughtBranch)
  | CallGetActiveBranch
  | CallGetAllBranches
  | CallSetActiveBranch (id : value number)
  | CallGetBranchHistory (id : value number)
  | CallInitialize.

Definition is_addThought (c : call) : bool :=
  match c with
  | CallAddThought _ => true
  | _ => false
  end.

(** What became of a call: [Some e] when it threw [e]. *)
Definition thrown {A} (r : exn number + A) : option (exn number) :=
  match r with
  | inl e => Some e
  | inr _ => None
  end.

(** The server: its branch manager, what it wrote with [console.error],
    and the record of its calls on the manager with what each threw. *)
Record server := {
  branchManager : M;
  console : list string;
  calls : list (call * option (exn number))
}.

Definition core {A} (c : call) (op : prog number M A) : prog number server A :=
  fun s =>
    let '(r, m) := op (branchManager s) in
    (r, {| branchManager := m; console := console s;
           calls := calls s ++ [(c, thrown r)] |}).

Definition console_error (line : string) : prog number server unit :=
  modify (fun s => {| branchManager := branchManager s;
                      console := console s ++ [line];
                      calls := calls s |}).

(** The [text] of a response: a plain string, or
    [JSON.stringify(doc, null, 2)], kept as the document. *)
Inductive text :=
  | Plain (s : string)
  | Pretty (doc : json number).

Record content_item := { type : string; text_of : text }.

(** [isError?: boolean]: [None] when the property is absent. *)
Record response := {
  content : list content_item;
  isError : option bool
}.

(** The body of both [catch] blocks:
    [{ error: error instanceof Error ? error.message : String(error),
       status: 'failed' }] *)
Definition failure_doc (e : exn number) : json number :=
  JObj [("error", JStr (error_text e)); ("status", JStr "failed")].

Definition nl : string := String (ascii_of_nat 10) "".

Fixpoint join (sep : string) (xs : list string) : string :=
  match xs with
  | [] => ""
  | [x] => x
  | x :: xs' => x ++ sep ++ join sep xs'
  end.

(** [`${e}`] where [e] may be [undefined]. *)
Definition show_opt (s : option string) : string := default "undefined" s.

(** One line of the [list] command:
    [`${prefix} ${b.id} [${b.state}] - ${b.thoughts[b.thoughts.length - 1]?.content.slice(0, 50)}...`].
    [slice] counts UTF-16 units. *)
Definition list_line (activeBranchId : option string) (b : ThoughtBranch) : string :=
  let isActive := bool_decide (Some (branch_id b) = activeBranchId) in
  let prefix := if isActive then chalk_green "→" else " " in
  prefix ++ " " ++ branch_id b ++ " [" ++ branch_state b ++ "] - "
    ++ show_opt ((fun t => slice_to 50 (thought_content t))
                   <$> last (branch_thoughts b))
    ++ "...".

Definition is_str (v : value number) (s : string) : bool :=
  match v with
  | VStr s' => String.eqb s' s
  | _ => false
  end.

(** The response of a [catch] block; [flag] is its [isError]. *)
Definition failure_response (e : exn number) (flag : option bool) : response :=
  {| content := [ {| type := "text"; text_of := Pretty (failure_doc e) |} ];
     isError := flag |}.

(** [r] is the structured failure response that carries the message of
    [e]. *)
Definition is_failure (e : exn number) (r : response) : Prop :=
  exists flag, r = failure_response e flag.

Definition reply (t : text) : response :=
  {| content := [ {| type := "text"; text_of := t |} ]; isError := None |}.

(** [getActiveBranch()?.id] *)
Definition id_of (b : option ThoughtBranch) : value number :=
  match b with
  | Some b => VStr (branch_id b)
  | None => VUndefined
  end.

(** [handleCommand(command)].  The caller passes a truthy [command]. *)
Definition handleCommand (command : value number) : prog number server response :=
  try_catch
    (ty ← lift (get command "type");
     if is_str ty "list" then
       branches ← core CallGetAllBranches getAllBranches;
       active ← core CallGetActiveBranch getActiveBranch;
       let activeBranchId := branch_id <$> active in
       let output := join nl (map (list_line activeBranchId) branches) in
       mret (reply (Plain ("Current Branches:" ++ nl ++ output)))
     else if is_str ty "focus" then
       branchId ← lift (get command "branchId");
       if negb (truthy branchId) then
         throw (ErrorObj "branchId required for focus command")
       else
         core (CallSetActiveBranch branchId) (setActiveBranch branchId);;
         branch ← core (CallGetBranch branchId) (getBranch branchId);
         formattedStatus ← core (CallFormatBranchStatus branch) (formatBranchStatus branch);
         console_error formattedStatus;;
         name ← lift (template branchId);
         mret (reply (Pretty (object_json
           [("status", VStr "success");
            ("message", VStr ("Now focused on branch: " ++ name));
            ("activeBranch", branchId)])))
     else if is_str ty "history" then
       given ← lift (get command "branchId");
       branchId ← (if truthy given then mret given
                   else id_of <$> core CallGetActiveBranch getActiveBranch);
       if negb (truthy branchId) then
         throw (ErrorObj "No active branch and no branchId provided")
       else
         core (CallGetBranch branchId) (getBranch branchId);;
         history ← core (CallGetBranchHistory branchId) (getBranchHistory branchId);
         mret (reply (Plain history))
     else
       name ← lift (template ty);
       throw (ErrorObj ("Unknown command: " ++ name)))
    (fun error => mret (failure_response error None)).

(** [branch.state] and the like, on the result of [getBranch(...)!]. *)
Definition field_of {A} (b : option ThoughtBranch) (k : string)
    (f : ThoughtBranch -> A) : exn number + A :=
  match b with
  | Some b => inr (f b)
  | None => inl (type_error "undefined" k)
  end.

Definition count (xs : list (value number)) : value number :=
  VNum (num_of_Z (Z.of_nat (List.length xs))).

(** [processThought(input)] *)
Definition processThought (input : value number) : prog number server response :=
  try_catch
    (command ← lift (get input "command");
     if truthy command then handleCommand command
     else
       thought ← core (CallAddThought input) (addThought input);
       let branchId := VStr (thought_branchId thought) in
       branch ← core (CallGetBranch branchId) (getBranch branchId);
       formattedStatus ← core (CallFormatBranchStatus branch) (formatBranchStatus branch);
       console_error formattedStatus;;
       branchState ← lift (field_of branch "state" branch_state);
       branchPriority ← lift (field_of branch "priority" branch_priority);
       numInsights ← lift (field_of branch "insights" (fun b => count (branch_insights b)));
       numCrossRefs ← lift (field_of branch "crossRefs" (fun b => count (branch_crossRefs b)));
       active ← core CallGetActiveBranch getActiveBranch;
       mret (reply (Pretty (object_json
         [("thoughtId", VStr (thought_id thought));
          ("branchId", branchId);
          ("branchState", VStr branchState);
          ("branchPriority", VNum branchPriority);
          ("numInsights", numInsights);
          ("numCrossRefs", numCrossRefs);
          ("activeBranch", id_of active)]))))
    (fun error => mret (failure_response error (Some true))).

(** How [runServer] ends: the process serves requests on the connected
    transport, or has left through [process.exit]. *)
Inductive startup :=
  | Serving (s : server)
  | Exited (code : Z) (s : server).

(** [runServer()].  [m0] is the manager the constructor builds,
    [initialize] is its method of that name, which [index.ts] calls but
    does not define, and [connect] is [server.connect(transport)] of the
    SDK; both may throw.  The error that [console.error] prints after the
    label is kept as its text. *)
Definition runServer (m0 : M) (initialize : prog number M unit)
    (connect : prog number server unit) : startup :=
  let s0 := {| branchManager := m0; console := []; calls := [] |} in
  let body :=
    core CallInitialize initialize;;
    connect;;
    console_error "Branch Thinking MCP Server running on stdio" in
  match body s0 with
  | (inr _, s) => Serving s
  | (inl error, s) =>
      Exited 1 {| branchManager := branchManager s;
                  console := console s
                    ++ ["Fatal error initializing server: " ++ error_text error];
                  calls := calls s |}
  end.

End Server.

Arguments server : clear implicits.
Arguments startup : clear implicits.
Arguments ThoughtBranch : clear implicits.
Arguments call : clear implicits.
Arguments response : clear implicits.

End Server.

(** ** A branch manager to run the server on *)

Module Desk.
Import Js Prog Server.

(** Modelled from the spec: a manager that keeps the branches and the
    active one as section 4.1 of the specification describes what the
    server can observe of them: [addThought] requires [content] and
    [type], appends to the branch named by [branchId] or to a new one, and
    focuses it; [setActiveBranch] and [getBranchHistory] fail on an unknown
    branch.  Scoring, insights, cross-references and the state machine are
    left out: the states stay as given and the priority is a constant.  It
    serves to run the server on examples; no general statement below is
    about it. *)
Record desk := {
  branches : list (ThoughtBranch Z);
  active : option string;
  counter : nat
}.

Definition find_branch (id : string) (d : desk) : option (ThoughtBranch Z) :=
  List.find (fun b => String.eqb (branch_id b) id) (branches d).

Definition str_field (v : value Z) (k : string) : option string :=
  match get v k with
  | inr (VStr s) => if String.eqb s "" then None else Some s
  | _ => None
  end.

Definition append_thought (t : ThoughtData) (b : ThoughtBranch Z)
  : ThoughtBranch Z :=
  {| branch_id := branch_id b; branch_state := branch_state b;
     branch_priority := branch_priority b;
     branch_thoughts := branch_thoughts b ++ [t];
     branch_insights := branch_insights b;
     branch_crossRefs := branch_crossRefs b |}.

Definition new_branch (id : string) (t : ThoughtData) : ThoughtBranch Z :=
  {| branch_id := id; branch_state := "active"; branch_priority := 1;
     branch_thoughts := [t]; branch_insights := []; branch_crossRefs := [] |}.

Definition desk_addThought (input : value Z) : prog Z desk ThoughtData :=
  fun d =>
    match str_field input "content", str_field input "type" with
    | Some content, Some _ =>
        let n := pretty (S (counter d)) in
        let id := default ("branch-" ++ n) (str_field input "branchId") in
        let t := {| thought_id := "thought-" ++ n; thought_branchId := id;
                    thought_content := content |} in
        let bs :=
          match find_branch id d with
          | Some _ =>
              map (fun b => if String.eqb (branch_id b) id
                            then append_thought t b else b) (branches d)
          | None => (branches d ++ [new_branch id t])%list
          end in
        (inr t, {| branches := bs; active := Some id; counter := S (counter d) |})
    | _, _ => (inl (ErrorObj "content and type are required"), d)
    end.

Definition unknown_branch (id : value Z) : exn Z :=
  ErrorObj ("Branch " ++ to_string id ++ " not found").

Definition lookup_branch (id : value Z) (d : desk) : option (ThoughtBranch Z) :=
  match id with
  | VStr s => find_branch s d
  | _ => None
  end.

Definition status_line (b : ThoughtBranch Z) : string :=
  branch_id b ++ " [" ++ branch_state b ++ "] "
    ++ pretty (List.length (branch_thoughts b)) ++ " thoughts".

#[export] Instance desk_BranchManager : BranchManager desk := {
  addThought := desk_addThought;
  getBranch := fun id d => (inr (lookup_branch id d), d);
  formatBranchStatus := fun b d =>
    match b with
    | Some b => (inr (status_line b), d)
    | None => (inl (type_error "undefined" "id"), d)
    end;
  getActiveBranch := fun d => (inr (active d ≫= fun id => find_branch id d), d);
  getAllBranches := fun d => (inr (branches d), d);
  setActiveBranch := fun id d =>
    match lookup_branch id d with
    | Some b => (inr tt, {| branches := branches d; active := Some (branch_id b);
                            counter := counter d |})
    | None => (inl (unknown_branch id), d)
    end;
  getBranchHistory := fun id d =>
    match lookup_branch id d with
    | Some b => (inr (join nl (map thought_content (branch_thoughts b))), d)
    | None => (inl (unknown_branch id), d)
    end
}.

Definition fresh : server Z desk :=
  {| branchManager := {| branches := []; active := None; counter := 0 |};
     console := []; calls := [] |}.

(** A server whose manager holds the one branch [b1], active, with the
    given priority. *)
Definition one_branch (priority : Z) : server Z desk :=
  {| branchManager :=
       {| branches :=
            [ {| branch_id := "b1"; branch_state := "active";
                 branch_priority := priority;
                 branch_thoughts :=
                   [ {| thought_id := "thought-1"; thought_branchId := "b1";
                        thought_content := "Investigate latency spike" |} ];
                 branch_insights := []; branch_crossRefs := [] |} ];
          active := Some "b1"; counter := 1 |};
     console := []; calls := [] |}.

Definition history_command : value Z := VObj [("type", VStr "history")].

Definition list_command : value Z := VObj [("type", VStr "list")].

(** A thought whose payload also has a [command] property, the empty
    string. *)
Definition thought_with_empty_command : value Z :=
  VObj [("command", VStr ""); ("content", VStr "Investigate latency spike");
        ("type", VStr "hypothesis")].

(** A list command whose payload also has [content] and [type]. *)
Definition command_with_content : value Z :=
  VObj [("command", list_command); ("content", VStr "Investigate latency spike");
        ("type", VStr "hypothesis")].

End Desk.

(** ** The persistence manager: [ChoffPersistenceManager] *)

Module Persistence.
Import Js Prog.

(** [s.endsWith(suffix)]: some tail of [s] is [suffix]. *)
Fixpoint endsWith (s suffix : string) : bool :=
  String.eqb s suffix
  || match s with
     | EmptyString => false
     | String _ s' => endsWith s' suffix
     end.

Fixpoint has_char (c : ascii) (s : string) : bool :=
  match s with
  | EmptyString => false
  | String c' s' => Ascii.eqb c c' || has_char c s'
  end.

(** A name without a path separator. *)
Definition plain_name (name : string) : bool := negb (has_char "/" name).

(** *** Paths

    [path.join(storageDir, name)] on a POSIX system, where names are
    compared as they are written.  A directory is the list of the names
    that lead to it from the root. *)

(** The texts between the separators of a path. *)
Fixpoint split_path (s : string) : list string :=
  match s with
  | EmptyString => [EmptyString]
  | String c s' =>
      if Ascii.eqb c "/" then EmptyString :: split_path s'
      else
        match split_path s' with
        | segment :: rest => String c segment :: rest
        | [] => [String c EmptyString]
        end
  end.

(** Normalization, from the place [stack] (innermost name first): an
    empty segment and [.] stay, [..] goes up, and stays at the root. *)
Fixpoint walk (stack : list string) (segments : list string) : list string :=
  match segments with
  | [] => stack
  | segment :: rest =>
      if String.eqb segment "" || String.eqb segment "." then walk stack rest
      else if String.eqb segment ".." then walk (tail stack) rest
      else walk (segment :: stack) rest
  end.

(** What is left of [path] below the directory [dir], if it starts
    there. *)
Fixpoint below (dir path : list string) : option (list string) :=
  match dir, path with
  | [], _ => Some path
  | d :: dir', p :: path' => if String.eqb d p then below dir' path' else None
  | _ :: _, [] => None
  end.

(** Where [path.join(dir, name)] points: at an entry of the directory
    [dir], at the directory itself, further down in it, or out of it. *)
Inductive place :=
  | Entry (entry : string)
  | TheDirectory
  | Deeper
  | Outside.

Definition place_of (dir : list string) (name : string) : place :=
  match below dir (rev (walk (rev dir) (split_path name))) with
  | Some [] => TheDirectory
  | Some [entry] => Entry entry
  | Some (_ :: _ :: _) => Deeper
  | None => Outside
  end.

Section Persistence.
Context {number : Type} `{JsHost number}.

(** A branch object of the manager, held by reference. *)
Definition ref := nat.

(** The [branchManager] field:
    [{ getAllBranches: () => ThoughtBranch[];
       reconstructBranch: (branch: ThoughtBranch) => void }].
    The array holds references to objects of the manager; [branch_at]
    reads the object behind one as it is at that moment. *)
Class BranchStore (M : Type) := {
  getAllBranches : prog number M (list ref);
  branch_at : ref -> M -> value number;
  reconstructBranch : value number -> prog number M unit
}.

Context {M : Type} `{BranchStore M}.

Inductive call :=
  | CallGetAllBranches
  | CallReconstructBranch (branch : value number).

(** A file of the storage directory: the text of a JSON document, kept as
    the document, or text that [JSON.parse] rejects. *)
Inductive file :=
  | Doc (doc : json number)
  | Raw (text : string).

(** The manager's surroundings: the branch manager, its [storageDir] field
    (the names from the root to the storage directory), the files of the
    storage directory ([None] while it does not exist; it holds files
    only), the schedule of I/O faults (one entry per call of [fs], [true]
    for a call that fails), the clock, the lines of [console.error], the
    calls made on the branch manager, the interval timers of the event
    loop with their periods, and the manager's own [autoSaveInterval]
    field. *)
Record world := {
  manager : M;
  storageDir : list string;
  disk : option (gmap string file);
  faults : list bool;
  now : Z;
  console : list string;
  calls : list call;
  timers : gmap nat number;
  next_timer : nat;
  autoSaveInterval : option nat
}.

Definition with_manager (m : M) (w : world) : world :=
  {| manager := m; storageDir := storageDir w; disk := disk w;
     faults := faults w; now := now w;
     console := console w; calls := calls w; timers := timers w;
     next_timer := next_timer w; autoSaveInterval := autoSaveInterval w |}.

Definition with_disk (d : option (gmap string file)) (w : world) : world :=
  {| manager := manager w; storageDir := storageDir w; disk := d;
     faults := faults w; now := now w;
     console := console w; calls := calls w; timers := timers w;
     next_timer := next_timer w; autoSaveInterval := autoSaveInterval w |}.

Definition with_faults (fs : list bool) (w : world) : world :=
  {| manager := manager w; storageDir := storageDir w; disk := disk w;
     faults := fs; now := now w;
     console := console w; calls := calls w; timers := timers w;
     next_timer := next_timer w; autoSaveInterval := autoSaveInterval w |}.

Definition with_console (c : list string) (w : world) : world :=
  {| manager := manager w; storageDir := storageDir w; disk := disk w;
     faults := faults w; now := now w;
     console := c; calls := calls w; timers := timers w;
     next_timer := next_timer w; autoSaveInterval := autoSaveInterval w |}.

Definition with_calls (c : list call) (w : world) : world :=
  {| manager := manager w; storageDir := storageDir w; disk := disk w;
     faults := faults w; now := now w;
     console := console w; calls := c; timers := timers w;
     next_timer := next_timer w; autoSaveInterval := autoSaveInterval w |}.

Definition with_timers (t : gmap nat number) (next : nat) (own : option nat)
    (w : world) : world :=
  {| manager := manager w; storageDir := storageDir w; disk := disk w;
     faults := faults w; now := now w;
     console := console w; calls := calls w; timers := t;
     next_timer := next; autoSaveInterval := own |}.

(** A call on the branch manager, recorded. *)
Definition core {A} (c : call) (op : prog number M A) : prog number world A :=
  fun w =>
    let '(r, m) := op (manager w) in
    (r, with_calls (calls w ++ [c]) (with_manager m w)).

Definition console_error (line : string) : prog number world unit :=
  modify (fun w => with_console (console w ++ [line]) w).

(** *** The [fs] calls *)

Definition io_error (what : string) : exn number := ErrorObj what.

(** Every call of [fs] first meets the fault schedule and uses up its
    first entry. *)
Definition fs_call {A} (op : prog number world A) : prog number world A :=
  fun w =>
    let w' := with_faults (tail (faults w)) w in
    match head (faults w) with
    | Some true => (inl (io_error "EIO: i/o error"), w')
    | _ => op w'
    end.

Definition no_dir : exn number := io_error "ENOENT: no such file or directory".

(** [fs.access(storageDir)] *)
Definition fs_access : prog number world unit :=
  fs_call (fun w =>
    match disk w with
    | Some _ => (inr tt, w)
    | None => (inl no_dir, w)
    end).

(** [fs.mkdir(storageDir, { recursive: true })] *)
Definition fs_mkdir : prog number world unit :=
  fs_call (fun w =>
    match disk w with
    | Some _ => (inr tt, w)
    | None => (inr tt, with_disk (Some ∅) w)
    end).

(** [fs.writeFile(path.join(storageDir, name), text, 'utf8')].  A path
    that points at an entry of the directory writes that entry.  One that
    points further down finds no directory there, the storage directory
    holding files only.  One that leaves the directory writes a file
    elsewhere, where the program never reads and the model does not look:
    the directory stays as it is, and whether the call succeeds there is
    the file system's matter, as for every call the schedule's. *)
Definition fs_writeFile (name : string) (f : file) : prog number world unit :=
  fs_call (fun w =>
    match place_of (storageDir w) name with
    | Outside => (inr tt, w)
    | Entry entry =>
        match disk w with
        | Some d => (inr tt, with_disk (Some (<[entry := f]> d)) w)
        | None => (inl no_dir, w)
        end
    | TheDirectory =>
        match disk w with
        | Some _ => (inl (io_error "EISDIR: illegal operation on a directory"), w)
        | None => (inl no_dir, w)
        end
    | Deeper => (inl no_dir, w)
    end).

(** [fs.readdir(storageDir)]: the names, in the order the map lists them. *)
Definition fs_readdir : prog number world (list string) :=
  fs_call (fun w =>
    match disk w with
    | Some d => (inr (map fst (map_to_list d)), w)
    | None => (inl no_dir, w)
    end).

(** [fs.readFile(path.join(storageDir, name), 'utf8')], for a [name] that
    [fs.readdir] returned: the name of an entry, which [path.join] adds as
    it is. *)
Definition fs_readFile (name : string) : prog number world file :=
  fs_call (fun w =>
    match disk w ≫= (.!! name) with
    | Some f => (inr f, w)
    | None => (inl no_dir, w)
    end).

(** [JSON.parse(content)] *)
Definition JSON_parse (f : file) : exn number + value number :=
  match f with
  | Doc doc => inr (of_json doc)
  | Raw _ => inl (ErrorObj "Unexpected token in JSON")
  end.

(** *** The methods *)

(** [ensureStorageDir()]: whatever [fs.access] throws, the directory is
    made. *)
Definition ensureStorageDir : prog number world unit :=
  try_catch fs_access (fun _ => fs_mkdir).

(** [v.length] on a value that is neither [undefined] nor [null]. *)
Definition js_length (v : value number) : value number :=
  match v with
  | VArr xs => VNum (num_of_Z (Z.of_nat (List.length xs)))
  | VStr s => VNum (num_of_Z (Z.of_nat (units s)))
  | VObj fs => default VUndefined (assoc "length" fs)
  | _ => VUndefined
  end.

(** [v[v.length - 1]].  [thoughts] is declared an array, and the last item
    of an array is read exactly; the last unit of a string is a string,
    which has no [timestamp], so its content does not matter; the other
    values have no [length] to index with, except an object that defines
    one, which the declared type excludes and which reads as empty here. *)
Definition last_item (v : value number) : value number :=
  match v with
  | VArr xs => default VUndefined (last xs)
  | VStr s => if String.eqb s "" then VUndefined else VStr ""
  | _ => VUndefined
  end.

(** [e?.k] *)
Definition get_opt (v : value number) (k : string) : exn number + value number :=
  match v with
  | VUndefined | VNull => inr VUndefined
  | _ => get v k
  end.

(** One entry of the index:
    [{ id: b.id, state: b.state, priority: b.priority,
       thoughtCount: b.thoughts.length,
       lastUpdated: b.thoughts[b.thoughts.length - 1]?.timestamp || new Date() }].
    Reading [length] throws when [b.thoughts] is [undefined] or [null];
    its value is [js_length]. *)
Definition index_entry (clock : Z) (b : value number) : exn number + value number :=
  id ← get b "id";
  state ← get b "state";
  priority ← get b "priority";
  thoughts ← get b "thoughts";
  _ ← get thoughts "length";
  timestamp ← get_opt (last_item thoughts) "timestamp";
  inr (VObj [("id", id); ("state", state); ("priority", priority);
             ("thoughtCount", js_length thoughts);
             ("lastUpdated", if truthy timestamp then timestamp
                             else VDate (Some clock))]).

(** [branches.map(b => ...)]: the first entry that throws ends the map. *)
Fixpoint index_of (clock : Z) (bs : list (value number))
  : exn number + list (value number) :=
  match bs with
  | [] => inr []
  | b :: bs' =>
      e ← index_entry clock b;
      es ← index_of clock bs';
      inr (e :: es)
  end.

(** [JSON.stringify(v, null, 2)] as the text of a file; [v] is an object
    or an array here, never [undefined]. *)
Definition JSON_stringify (v : value number) : file :=
  Doc (default JNull (to_json v)).

(** The body of the [for] loop of [saveState] for one branch. *)
Definition save_branch (branch : ref) : prog number world unit :=
  b ← read (fun w => branch_at branch (manager w));
  id ← lift (get b "id");
  name ← lift (template id);
  fs_writeFile (name ++ ".json") (JSON_stringify b).

(** The statements of [saveState] after the loop. *)
Definition save_index (branches : list ref) : prog number world unit :=
  bs ← read (fun w => map (fun r => branch_at r (manager w)) branches);
  clock ← read now;
  index ← lift (index_of clock bs);
  fs_writeFile "index.json" (JSON_stringify (VArr index)).

(** [saveState()] *)
Definition saveState : prog number world unit :=
  ensureStorageDir;;
  branches ← core CallGetAllBranches getAllBranches;
  for_of branches save_branch;;
  save_index branches.

(** [t.timestamp = new Date(t.timestamp)] on one item of [thoughts]: the
    property is read, the date is made, which may throw, and the property
    is assigned.  The module is strict code: the assignment throws on a
    primitive.  On an array it adds a property that neither the items nor
    a later [JSON.stringify] show. *)
Definition rehydrate_thought (t : value number) : exn number + value number :=
  old ← get t "timestamp";
  date ← new_Date old;
  match t with
  | VObj fs => inr (VObj (assoc_set "timestamp" (VDate date) fs))
  | VArr _ => inr t
  | _ => inl (ErrorObj "Cannot create property 'timestamp'")
  end.

Fixpoint rehydrate_all (ts : list (value number)) : exn number + list (value number) :=
  match ts with
  | [] => inr []
  | t :: ts' =>
      t' ← rehydrate_thought t;
      ts'' ← rehydrate_all ts';
      inr (t' :: ts'')
  end.

(** [branch.thoughts.forEach((t: any) => { t.timestamp = new Date(t.timestamp); })]:
    the branch afterwards.  Only an array of a parsed document has
    [forEach]. *)
Definition rehydrate (branch : value number) : exn number + value number :=
  thoughts ← get branch "thoughts";
  match thoughts, branch with
  | VArr ts, VObj fs =>
      ts' ← rehydrate_all ts;
      inr (VObj (assoc_set "thoughts" (VArr ts') fs))
  | VUndefined, _ => inl (type_error "undefined" "forEach")
  | VNull, _ => inl (type_error "null" "forEach")
  | _, _ => inl (ErrorObj "branch.thoughts.forEach is not a function")
  end.

(** [file.endsWith('.json') && file !== 'index.json'] *)
Definition is_branch_file (file : string) : bool :=
  endsWith file ".json" && negb (String.eqb file "index.json").

(** [branch] is what the loop of [loadState] makes of the entry [name] of
    the directory [d]: the file parsed and its timestamps made dates. *)
Definition loaded_from (d : gmap string file) (name : string)
    (branch : value number) : Prop :=
  exists f parsed,
    d !! name = Some f /\ JSON_parse f = inr parsed /\ rehydrate parsed = inr branch.

(** The body of the [for] loop of [loadState] for one directory entry. *)
Definition load_file (file : string) : prog number world unit :=
  if is_branch_file file then
    content ← fs_readFile file;
    parsed ← lift (JSON_parse content);
    branch ← lift (rehydrate parsed);
    core (CallReconstructBranch branch) (reconstructBranch branch)
  else mret tt.

(** The [try] block of [loadState]. *)
Definition load_body : prog number world unit :=
  ensureStorageDir;;
  files ← fs_readdir;
  for_of files load_file.

(** [loadState()] *)
Definition loadState : prog number world unit :=
  try_catch load_body
    (fun error =>
       console_error ("Error loading state: " ++ error_text error);;
       throw (ErrorObj "Failed to load persisted state")).

(** [clearInterval(t)] *)
Definition clearInterval (t : nat) (w : world) : world :=
  with_timers (delete t (timers w)) (next_timer w) (autoSaveInterval w) w.

(** [this.autoSaveInterval = setInterval(callback, interval)]: a new timer,
    whose callback is the autosave of this manager. *)
Definition setInterval_own (interval : number) (w : world) : world :=
  with_timers (<[next_timer w := interval]> (timers w)) (S (next_timer w))
    (Some (next_timer w)) w.

(** [enableAutoSave(interval)].  A [Timeout] object is truthy. *)
Definition enableAutoSave (interval : number) (w : world) : world :=
  let w := match autoSaveInterval w with
           | Some t => clearInterval t w
           | None => w
           end in
  setInterval_own interval w.

(** [disableAutoSave()] *)
Definition disableAutoSave (w : world) : world :=
  match autoSaveInterval w with
  | Some t =>
      with_timers (timers (clearInterval t w)) (next_timer w) None w
  | None => w
  end.

(** The callback of the timer:
    [try { await this.saveState(); } catch (error) { console.error('Auto-save failed:', error); }] *)
Definition autosave_tick : prog number world unit :=
  try_catch saveState
    (fun error => console_error ("Auto-save failed: " ++ error_text error)).

(** The event loop fires timer [t]: its callback runs if the timer is
    still set, and an interval timer stays set. *)
Definition fire (t : nat) : prog number world unit :=
  fun w =>
    match timers w !! t with
    | Some _ => autosave_tick w
    | None => (inr tt, w)
    end.

(** *** Branches as [ThoughtBranch] declares them

    What the persistence manager reads of a branch: its [id] and [state]
    are strings, its [priority] a number, its [thoughts] an array whose
    items carry a [Date] as [timestamp].  The other properties are free. *)
Record branch_view := {
  view_id : string;
  view_state : string;
  view_priority : number;
  view_thoughts : list (value number);
  view_times : list Date
}.

Definition has_view (b : value number) (v : branch_view) : Prop :=
  get b "id" = inr (VStr (view_id v))
  /\ get b "state" = inr (VStr (view_state v))
  /\ get b "priority" = inr (VNum (view_priority v))
  /\ get b "thoughts" = inr (VArr (view_thoughts v))
  /\ Forall2 (fun t d => get t "timestamp" = inr (VDate d))
       (view_thoughts v) (view_times v).

(** A thought as the manager holds it: an object whose [timestamp] is a
    valid [Date] and whose other properties are [clean]. *)
Definition stored_thought (t : value number) : Prop :=
  exists fs ms,
    t = VObj fs /\ NoDup fs.*1
    /\ assoc "timestamp" fs = Some (VDate (Some ms))
    /\ IsoDate.in_range ms = true
    /\ Forall (fun kv => kv.1 <> "timestamp" -> clean kv.2) fs.

(** A branch as the manager holds it: an object whose [thoughts] is an
    array of such thoughts and whose other properties are [clean]. *)
Definition stored_branch (b : value number) : Prop :=
  exists fs ts,
    b = VObj fs /\ NoDup fs.*1
    /\ assoc "thoughts" fs = Some (VArr ts)
    /\ Forall stored_thought ts
    /\ Forall (fun kv => kv.1 <> "thoughts" -> clean kv.2) fs.

(** What the loop of [loadState] hands to [reconstructBranch] for the
    entry [name] of the directory [d], if it gets that far. *)
Definition loaded (d : gmap string file) (name : string) : option (value number) :=
  match d !! name with
  | Some f =>
      match JSON_parse f with
      | inr parsed =>
          match rehydrate parsed with
          | inr branch => Some branch
          | inl _ => None
          end
      | inl _ => None
      end
  | None => None
  end.

(** The name of the file of a branch. *)
Definition file_name (v : branch_view) : string := view_id v ++ ".json".

(** The entry of a branch in the index, at a save made at time [clock]. *)
Definition entry_of_view (clock : Z) (v : branch_view) : value number :=
  VObj [("id", VStr (view_id v));
        ("state", VStr (view_state v));
        ("priority", VNum (view_priority v));
        ("thoughtCount", VNum (num_of_Z (Z.of_nat (List.length (view_thoughts v)))));
        ("lastUpdated", VDate (default (Some clock) (last (view_times v))))].

(** Calls of [enableAutoSave] and [disableAutoSave], in sequence. *)
Inductive autosave_call :=
  | Enable (interval : number)
  | Disable.

Definition autosave (c : autosave_call) (w : world) : world :=
  match c with
  | Enable interval => enableAutoSave interval w
  | Disable => disableAutoSave w
  end.

Definition autosave_calls (cs : list autosave_call) (w : world) : world :=
  foldl (fun w c => autosave c w) w cs.

(** *** [saveState] between its awaits

    [saveState] is an [async] function: at each call of [fs] it hands the
    call over and waits, and the event loop may run a request handler,
    which changes the branch manager, before it resumes.  A task is
    [saveState] stopped at such a call; the arguments of the call, the text
    to write among them, were computed before it stopped. *)
Inductive task :=
  | PendingAccess
  | PendingMkdir
  | PendingWrite (name : string) (text : file) (branches todo : list ref)
  | PendingIndex (text : file)
  | Settled (r : exn number + unit).

(** The loop, from its current position up to the next call of [fs]: the
    next branch is read and serialized, or, past the last one, the index
    is built. *)
Definition next_write (branches todo : list ref) : world -> task * world :=
  fun w =>
    match todo with
    | branch :: todo' =>
        let b := branch_at branch (manager w) in
        match get b "id" ≫= template with
        | inr name =>
            (PendingWrite (name ++ ".json") (JSON_stringify b) branches todo', w)
        | inl e => (Settled (inl e), w)
        end
    | [] =>
        let bs := map (fun r => branch_at r (manager w)) branches in
        match index_of (now w) bs with
        | inr index => (PendingIndex (JSON_stringify (VArr index)), w)
        | inl e => (Settled (inl e), w)
        end
    end.

(** [ensureStorageDir] has returned: the branches are listed and the loop
    starts. *)
Definition after_ensure : world -> task * world :=
  fun w =>
    match core CallGetAllBranches getAllBranches w with
    | (inr branches, w') => next_write branches branches w'
    | (inl e, w') => (Settled (inl e), w')
    end.

(** The awaited call completes and [saveState] runs on to its next call of
    [fs], or to its end. *)
Definition resume (t : task) : world -> task * world :=
  fun w =>
    match t with
    | PendingAccess =>
        match fs_access w with
        | (inr _, w') => after_ensure w'
        | (inl _, w') => (PendingMkdir, w')
        end
    | PendingMkdir =>
        match fs_mkdir w with
        | (inr _, w') => after_ensure w'
        | (inl e, w') => (Settled (inl e), w')
        end
    | PendingWrite name text branches todo =>
        match fs_writeFile name text w with
        | (inr _, w') => next_write branches todo w'
        | (inl e, w') => (Settled (inl e), w')
        end
    | PendingIndex text =>
        match fs_writeFile "index.json" text w with
        | (r, w') => (Settled r, w')
        end
    | Settled r => (Settled r, w)
    end.

(** What the event loop does while a save is under way: it resumes the
    save, or it runs a request handler on the branch manager. *)
Inductive event :=
  | Resume
  | Request (handler : M -> M).

Definition step (e : event) (tw : task * world) : task * world :=
  match e with
  | Resume => resume tw.1 tw.2
  | Request handler => (tw.1, with_manager (handler (manager tw.2)) tw.2)
  end.

(** [saveState()] is called: it runs up to [fs.access] and waits. *)
Definition start (w : world) : task * world := (PendingAccess, w).

Definition run (events : list event) (tw : task * world) : task * world :=
  foldl (fun tw e => step e tw) tw events.

End Persistence.

Arguments world : clear implicits.
Arguments call : clear implicits.
Arguments file : clear implicits.
Arguments task : clear implicits.
Arguments branch_view : clear implicits.
Arguments autosave_call : clear implicits.
Arguments event : clear implicits.

End Persistence.
(** ** The branch manager behind the persistence manager *)

Module Manager.
Import Js Prog.

Section Manager.
Context {number : Type} `{JsHost number}.

(** Modelled from the spec: [BranchManager] ([branchManager.ts]) is not
    part of [index.ts].  Section 4.1 of the specification gives what the
    persistence manager relies on: [getAllBranches] is a pure read that
    lists the branches in creation order, and [reconstructBranch] registers
    a branch as it is, except that when a branch of the same id is already
    registered the one with more thoughts stays, the registered one on a
    tie.  The branches are the manager's own objects, so a reference is a
    position in its list. *)
Definition store := list (value number).

Definition branch_id (b : value number) : option string :=
  match get b "id" with
  | inr (VStr s) => Some s
  | _ => None
  end.

Definition thought_count (b : value number) : nat :=
  match get b "thoughts" with
  | inr (VArr ts) => List.length ts
  | _ => O
  end.

Definition same_id (a b : value number) : bool :=
  match branch_id a, branch_id b with
  | Some x, Some y => String.eqb x y
  | _, _ => false
  end.

Fixpoint register (b : value number) (m : store) : store :=
  match m with
  | [] => [b]
  | x :: m' =>
      if same_id x b then
        (if (thought_count x <? thought_count b)%nat then b :: m' else x :: m')
      else x :: register b m'
  end.

Definition getBranch (id : string) (m : store) : option (value number) :=
  List.find (fun b => bool_decide (branch_id b = Some id)) m.

#[export] Instance store_BranchStore : Persistence.BranchStore store := {
  Persistence.getAllBranches := fun m => (inr (seq 0 (List.length m)), m);
  Persistence.branch_at := fun r m => default VUndefined (m !! r);
  Persistence.reconstructBranch := fun b m => (inr tt, register b m)
}.

End Manager.

Arguments store : clear implicits.

(** Modelled from the spec: [BranchManager.initialize] is not part of
    [index.ts].  Sections 1 and 7 of the specification have the persisted
    branches reloaded at startup, a failure of the load aborting the
    initialization: initializing the manager is awaiting [loadState]. *)
Definition initialize {number} `{JsHost number}
    {M} `{Persistence.BranchStore number M}
  : prog number (Persistence.world number M) unit :=
  Persistence.loadState.

End Manager.


(** ** Branches and disks to run the persistence manager on *)

Module Fixture.
Import Js Prog Persistence Manager.

Definition thought (id branchId content : string) (time : Z) : value Z :=
  VObj [("id", VStr id); ("content", VStr content); ("branchId", VStr branchId);
        ("timestamp", VDate (Some time))].

Definition branch (id : string) (thoughts : list (value Z)) : value Z :=
  VObj [("id", VStr id); ("state", VStr "active"); ("priority", VNum 1);
        ("thoughts", VArr thoughts); ("insights", VArr []); ("crossRefs", VArr [])].

Definition first_thought (branchId : string) : value Z :=
  thought "thought-1" branchId "Investigate latency spike" 1730512800123.

Definition second_thought (branchId : string) : value Z :=
  thought "thought-2" branchId "GC pause is root cause" 1730512860456.

(** A process at time [clock] with the branches [m], before the storage
    directory exists. *)
Definition process (clock : Z) (m : store Z) : world Z (store Z) :=
  {| manager := m; storageDir := ["home"; "user"; ".branch-thinking"];
     disk := None; faults := []; now := clock; console := [];
     calls := []; timers := ∅; next_timer := 0; autoSaveInterval := None |}.

(** A new process on the disk that [w] leaves: its manager is empty. *)
Definition restart (w : world Z (store Z)) : world Z (store Z) :=
  {| manager := []; storageDir := storageDir w; disk := disk w; faults := [];
     now := now w + 1000;
     console := []; calls := []; timers := ∅; next_timer := 0;
     autoSaveInterval := None |}.

(** [branch.thoughts.push(t)] on the branch at position [r], as a request
    handler does when it records a thought. *)
Definition push_thought (r : ref) (t : value Z) (m : store Z) : store Z :=
  match m !! r with
  | Some (VObj fs) =>
      match assoc "thoughts" fs with
      | Some (VArr ts) => <[r := VObj (assoc_set "thoughts" (VArr (ts ++ [t])) fs)]> m
      | _ => m
      end
  | _ => m
  end.

Definition view (id : string) (thoughts : list (value Z)) (times : list Date)
  : branch_view Z :=
  {| view_id := id; view_state := "active"; view_priority := 1;
     view_thoughts := thoughts; view_times := times |}.

(** A failing [fs.readdir]: the second call of [fs] fails. *)
Definition readdir_fails : world Z (store Z) :=
  with_faults [false; true] (with_disk (Some ∅) (process 0 [])).

(** A failing save under a running timer: [fs.access] and [fs.mkdir]
    fail. *)
Definition save_fails : world Z (store Z) :=
  with_faults [true; true]
    (enableAutoSave 1000 (process 0 [branch "b1" [first_thought "b1"]])).

Definition two_branches : store Z :=
  [branch "b1" [first_thought "b1"; second_thought "b1"]; branch "b2" []].

Definition two_views : list (branch_view Z) :=
  [view "b1" [first_thought "b1"; second_thought "b1"]
     [Some 1730512800123; Some 1730512860456];
   view "b2" [] []].

Definition saved_two : world Z (store Z) :=
  (saveState (process 1730512900000 two_branches)).2.

Definition single_branch : store Z := [branch "b1" [first_thought "b1"]].

(** A save during which a thought is recorded: the request is handled
    while the write of [b1.json] is pending. *)
Definition interleaved : list (event (store Z)) :=
  [Resume; Resume; Request (push_thought 0%nat (second_thought "b1")); Resume; Resume].

Definition count_of (f : option (file Z)) : option (json Z) :=
  match f with
  | Some (Doc (JArr [JObj fs])) => assoc "thoughtCount" fs
  | _ => None
  end.

Definition thoughts_of (f : option (file Z)) : option nat :=
  match f with
  | Some (Doc (JObj fs)) =>
      match assoc "thoughts" fs with
      | Some (JArr ts) => Some (List.length ts)
      | _ => None
      end
  | _ => None
  end.

End Fixture.

(** ** The request handler of [runServer] *)

Module Transport.
Import Js Prog Server.

Section Transport.
Context {number : Type} `{JsHost number} {M : Type} `{BranchManager number M}.

(** The answer to a tool that is not this one:
    [{ content: [{ type: "text", text: `Unknown tool: ${request.params.name}` }],
       isError: true }] *)
Definition unknown_tool (name : string) : response number :=
  {| content := [ {| type := "text";
                     text_of := Plain ("Unknown tool: " ++ name) |} ];
     isError := Some true |}.

(** The handler that [runServer] sets for [CallToolRequestSchema], on
    [request.params.name], a string by that schema, and
    [request.params.arguments], [undefined] when the request has none. *)
Definition callTool (name : string) (arguments : value number)
  : prog number (server number M) (response number) :=
  if String.eqb name "branch-thinking" then processThought arguments
  else mret (unknown_tool name).

End Transport.
End Transport.

(** ** Managers, requests and disks for the failure cases *)

Module Brittle.
Import Js Prog Server Desk.

(** The manager of [Desk] with a [formatBranchStatus] that throws.  It
    serves to run the server on an answer that fails after the thought was
    recorded; no general statement is about it. *)
Definition brittle_BranchManager : BranchManager desk := {|
  addThought := desk_addThought;
  getBranch := fun id d => (inr (lookup_branch id d), d);
  formatBranchStatus := fun _ d => (inl (ErrorObj "status unavailable"), d);
  getActiveBranch := fun d => (inr (active d ≫= fun id => find_branch id d), d);
  getAllBranches := fun d => (inr (branches d), d);
  setActiveBranch := fun id d => (inl (unknown_branch id), d);
  getBranchHistory := fun id d => (inl (unknown_branch id), d)
|}.

(** A thought, as a client sends it. *)
Definition a_thought : value Z :=
  VObj [("content", VStr "Investigate latency spike"); ("type", VStr "hypothesis")].

Definition focus_on (id : string) : value Z :=
  VObj [("type", VStr "focus"); ("branchId", VStr id)].

Definition history_of (id : string) : value Z :=
  VObj [("type", VStr "history"); ("branchId", VStr id)].

Definition recorded_thought : ThoughtData :=
  {| thought_id := "thought-1"; thought_branchId := "branch-1";
     thought_content := "Investigate latency spike" |}.

(** The manager of [fresh] after [a_thought]. *)
Definition after_the_thought : desk :=
  {| branches := [new_branch "branch-1" recorded_thought];
     active := Some "branch-1"; counter := 1 |}.

(** A server whose manager holds one branch, which is active and whose id
    is the empty string. *)
Definition unnamed_branch : server Z desk :=
  {| branchManager :=
       {| branches :=
            [ {| branch_id := ""; branch_state := "active"; branch_priority := 1;
                 branch_thoughts :=
                   [ {| thought_id := "thought-1"; thought_branchId := "";
                        thought_content := "Investigate latency spike" |} ];
                 branch_insights := []; branch_crossRefs := [] |} ];
          active := Some ""; counter := 1 |};
     console := []; calls := [] |}.

End Brittle.

Module Damaged.
Import Js Prog Persistence Manager Fixture.

(** A storage directory whose only entry is a branch file cut short. *)
Definition corrupt_disk : world Z (store Z) :=
  with_disk (Some {[ "b1.json" := Raw "{ id: b1, " ]}) (process 0 []).

(** The two branches of the fixture over an empty storage directory,
    where [fs.access] and the first [fs.writeFile] go through and the
    second [fs.writeFile] fails. *)
Definition second_write_fails : world Z (store Z) :=
  with_faults [false; false; true]
    (with_disk (Some ∅) (process 1730512900000 two_branches)).

(** A branch as [JSON.parse] reads it from its file. *)
Definition parsed_branch : value Z :=
  VObj [("id", VStr "b1"); ("state", VStr "active");
        ("thoughts", VArr [VObj [("id", VStr "thought-1");
                                 ("timestamp", VStr "2024-11-02T02:00:00.123Z")]])].

(** A storage directory whose only entry is the file
    [{ "id": "b1", "thoughts": [{ "timestamp": { "toString": 1 } }] }]. *)
Definition odd_timestamp : world Z (store Z) :=
  with_disk
    (Some {[ "b1.json" :=
               Doc (JObj [("id", JStr "b1");
                          ("thoughts",
                           JArr [JObj [("timestamp",
                                        JObj [("toString", JNum 1)])]])]) ]})
    (process 0 []).

End Damaged.

(** * Properties *)

(** ** Dates written and read back *)

Module IsoDateFacts.
Import IsoDate.

Lemma all_from_spec n z f :
  all_from n z f = true ->
  forall i, z <= i < z + Z.of_nat n -> f i = true.
Proof.
  revert z. induction n as [|n IH]; intros z Hall i Hi; [lia|].
  simpl in Hall. apply andb_prop in Hall as [Hz Hrest].
  destruct (Z.eq_dec i z) as [->|Hne]; [exact Hz|].
  apply (IH (z + 1) Hrest). lia.
Qed.

(** Every day of the era that starts on 0000-03-01, checked one by one. *)
Lemma civil_ok_era0 : all_from (Z.to_nat 146097) (-719468) civil_ok = true.
Proof. vm_compute. reflexivity. Qed.

Lemma digit_value_char d : 0 <= d <= 9 -> digit_value (digit_char d) = Some d.
Proof.
  intros Hd.
  assert (Hcases : d = 0 \/ d = 1 \/ d = 2 \/ d = 3 \/ d = 4 \/ d = 5
                   \/ d = 6 \/ d = 7 \/ d = 8 \/ d = 9) by lia.
  repeat (destruct Hcases as [->|Hcases]; [vm_compute; reflexivity|]). subst d. vm_compute; reflexivity.
Qed.

Lemma read_digits_digits w : forall k n acc rest,
  0 <= n < 10 ^ Z.of_nat w ->
  read_digits (w + k) acc (digits w n rest)
  = read_digits k (acc * 10 ^ Z.of_nat w + n) rest.
Proof.
  induction w as [|w IH]; intros k n acc rest Hn.
  - change (10 ^ Z.of_nat 0) with 1 in *. simpl. f_equal. lia.
  - rewrite Nat2Z.inj_succ, Z.pow_succ_r in Hn by lia.
    change (digits (S w) n rest)
      with (digits w (n / 10) (String (digit_char (n mod 10)) rest)).
    replace (S w + k)%nat with (w + S k)%nat by lia.
    rewrite IH by (split; [apply Z.div_pos; lia|apply Z.div_lt_upper_bound; lia]).
    change (read_digits (S k) ?a (String ?c ?r))
      with (match digit_value c with
            | Some d => read_digits k (10 * a + d) r
            | None => None
            end).
    rewrite digit_value_char by (pose proof (Z.mod_pos_bound n 10); lia).
    f_equal. rewrite Nat2Z.inj_succ, Z.pow_succ_r by lia.
    pose proof (Z.div_mod n 10). lia.
Qed.

Lemma read_digits_exact w n rest :
  0 <= n < 10 ^ Z.of_nat w ->
  read_digits w 0 (digits w n rest) = Some (n, rest).
Proof.
  intros Hn. rewrite <- (Nat.add_0_r w) at 1.
  rewrite read_digits_digits by exact Hn.
  change (read_digits 0 ?a ?r) with (Some (a, r)). reflexivity.
Qed.

Lemma expect_char c s : expect c (String c s) = Some s.
Proof. unfold expect. rewrite Ascii.eqb_refl. reflexivity. Qed.

(** A string that starts with a digit has an unsigned year. *)
Lemma read_year_unsigned c s d :
  digit_value c = Some d -> read_year (String c s) = read_digits 4 0 (String c s).
Proof.
  destruct c as [[] [] [] [] [] [] [] []]; try reflexivity.
  all: vm_compute; discriminate.
Qed.

Lemma read_year_digits4 y rest :
  0 <= y <= 9999 -> read_year (digits 4 y rest) = Some (y, rest).
Proof.
  intros Hy.
  rewrite <- (read_digits_exact 4 y rest) by lia.
  change (digits 4 y rest)
    with (String (digit_char (y / 10 / 10 / 10 mod 10))
            (digits 3 y rest)) at 1.
  apply (read_year_unsigned _ _ (y / 10 / 10 / 10 mod 10)).
  apply digit_value_char.
  pose proof (Z.mod_pos_bound (y / 10 / 10 / 10) 10). lia.
Qed.

Lemma civil_from_days_shift z k :
  civil_from_days (z + 146097 * k)
  = let '(y, m, d) := civil_from_days z in (y + 400 * k, m, d).
Proof.
  unfold civil_from_days.
  replace (z + 146097 * k + 719468) with (z + 719468 + k * 146097) by lia.
  rewrite Z_div_plus_full, Z_mod_plus_full by lia.
  cbv zeta.
  match goal with |- context [if ?c then _ else _] => destruct c end;
    f_equal; f_equal; lia.
Qed.

Lemma is_leap_shift y k : is_leap (y + 400 * k) = is_leap y.
Proof.
  unfold is_leap.
  replace (y + 400 * k) with (y + (100 * k) * 4) at 1 by lia.
  replace (y + 400 * k) with (y + (4 * k) * 100) at 1 by lia.
  replace (y + 400 * k) with (y + k * 400) by lia.
  rewrite !Z_mod_plus_full. reflexivity.
Qed.

Lemma days_in_month_shift y m k :
  days_in_month (y + 400 * k) m = days_in_month y m.
Proof. unfold days_in_month. rewrite is_leap_shift. reflexivity. Qed.

Lemma days_from_civil_shift y m d k :
  days_from_civil (y + 400 * k) m d = days_from_civil y m d + 146097 * k.
Proof.
  unfold days_from_civil. destruct (m <=? 2).
  - replace (y + 400 * k - 1) with (y - 1 + k * 400) by lia.
    rewrite Z_div_plus_full, Z_mod_plus_full by lia. lia.
  - replace (y + 400 * k) with (y + k * 400) by lia.
    rewrite Z_div_plus_full, Z_mod_plus_full by lia. lia.
Qed.

(** The calendar date of any day is a date of the calendar, counts back to
    the day, and its year lies in the day's era. *)
Lemma civil_from_days_ok z y m d :
  civil_from_days z = (y, m, d) ->
  1 <= m <= 12 /\ 1 <= d <= days_in_month y m
  /\ 400 * ((z + 719468) / 146097) <= y <= 400 * ((z + 719468) / 146097) + 400
  /\ days_from_civil y m d = z.
Proof.
  intros Hcivil.
  set (k := (z + 719468) / 146097).
  assert (Hz0 : -719468 <= z - 146097 * k < -719468 + Z.of_nat (Z.to_nat 146097)).
  { subst k. rewrite Z2Nat.id by lia.
    pose proof (Z.div_mod (z + 719468) 146097).
    pose proof (Z.mod_pos_bound (z + 719468) 146097). lia. }
  pose proof (all_from_spec _ _ _ civil_ok_era0 _ Hz0) as Hok.
  replace z with (z - 146097 * k + 146097 * k) in Hcivil by lia.
  rewrite civil_from_days_shift in Hcivil. unfold civil_ok in Hok.
  destruct (civil_from_days (z - 146097 * k)) as [[y0 m0] d0].
  injection Hcivil as <- <- <-.
  rewrite !andb_true_iff in Hok.
  destruct Hok as ((((((Hm1 & Hm2) & Hd1) & Hd2) & Hy1) & Hy2) & Hback).
  rewrite days_in_month_shift, days_from_civil_shift.
  apply Z.eqb_eq in Hback. lia.
Qed.

Lemma year_in_range ms y m d :
  in_range ms = true -> civil_from_days (ms / msPerDay) = (y, m, d) ->
  -999999 <= y <= 999999.
Proof.
  unfold in_range, maxTime, msPerDay. intros Hrange Hcivil.
  apply Z.leb_le in Hrange.
  destruct (civil_from_days_ok _ _ _ _ Hcivil) as (_ & _ & Hy & _).
  assert (Hz : -100000000 <= ms / 86400000 <= 100000000).
  { pose proof (Z.div_mod ms 86400000).
    pose proof (Z.mod_pos_bound ms 86400000). lia. }
  assert (Hera : -700 <= (ms / 86400000 + 719468) / 146097 <= 700).
  { pose proof (Z.div_mod (ms / 86400000 + 719468) 146097).
    pose proof (Z.mod_pos_bound (ms / 86400000 + 719468) 146097). lia. }
  lia.
Qed.

(** The fields of the time of day are in their ranges and add up to it. *)
Lemma time_of_day t :
  0 <= t < 86400000 ->
  0 <= t / 3600000 < 24 /\ 0 <= t / 60000 mod 60 < 60
  /\ 0 <= t / 1000 mod 60 < 60 /\ 0 <= t mod 1000 < 1000
  /\ t / 3600000 * 3600000 + t / 60000 mod 60 * 60000
     + t / 1000 mod 60 * 1000 + t mod 1000 = t.
Proof.
  intros Ht.
  pose proof (Z.div_mod t 3600000).
  pose proof (Z.mod_pos_bound t 3600000).
  pose proof (Z.div_mod t 60000).
  pose proof (Z.mod_pos_bound t 60000).
  pose proof (Z.div_mod (t / 60000) 60).
  pose proof (Z.mod_pos_bound (t / 60000) 60).
  pose proof (Z.div_mod t 1000).
  pose proof (Z.mod_pos_bound t 1000).
  pose proof (Z.div_mod (t / 1000) 60).
  pose proof (Z.mod_pos_bound (t / 1000) 60).
  assert (t / 60000 / 60 = t / 3600000)
    by (rewrite Z.div_div by lia; reflexivity).
  assert (t / 1000 / 60 = t / 60000)
    by (rewrite Z.div_div by lia; reflexivity).
  lia.
Qed.

Ltac read_fields :=
  repeat first
    [ rewrite expect_char
    | rewrite read_digits_exact by (change (10 ^ Z.of_nat 2) with 100;
                                    change (10 ^ Z.of_nat 3) with 1000; lia)
    | progress cbn [mbind option_bind] ].

(** What [toISOString] writes, [Date.parse] reads back as the same time
    value. *)
Theorem parse_toISOString ms :
  in_range ms = true -> parse (toISOString ms) = Some ms.
Proof.
  intros Hrange. unfold toISOString.
  destruct (civil_from_days (ms / msPerDay)) as [[y m] d] eqn:Hcivil.
  pose proof (year_in_range _ _ _ _ Hrange Hcivil) as Hyear.
  destruct (civil_from_days_ok _ _ _ _ Hcivil) as (Hm & Hd & _ & Hback).
  assert (Ht : 0 <= ms mod msPerDay < 86400000)
    by (apply (Z.mod_pos_bound ms 86400000); lia).
  destruct (time_of_day _ Ht) as (Hhh & Hmm & Hss & Hmmm & Hsum).
  assert (Hdim : days_in_month y m <= 31).
  { unfold days_in_month.
    repeat match goal with |- context [if ?c then _ else _] => destruct c end; lia. }
  assert (Hms : days_from_civil y m d * msPerDay
                + ms mod msPerDay / 3600000 * 3600000
                + ms mod msPerDay / 60000 mod 60 * 60000
                + ms mod msPerDay / 1000 mod 60 * 1000
                + ms mod msPerDay mod 1000 = ms).
  { rewrite Hback. pose proof (Z.div_mod ms msPerDay). unfold msPerDay in *. lia. }
  assert (Hfinal : forall y',
    y' = y ->
    (if String.eqb "" ""
        && (1 <=? m) && (m <=? 12) && (1 <=? d) && (d <=? days_in_month y' m)
        && ((ms mod msPerDay / 3600000 <? 24)
            || ((ms mod msPerDay / 3600000 =? 24)
                && (ms mod msPerDay / 60000 mod 60 =? 0)
                && (ms mod msPerDay / 1000 mod 60 =? 0)
                && (ms mod msPerDay mod 1000 =? 0)))
        && (ms mod msPerDay / 60000 mod 60 <? 60)
        && (ms mod msPerDay / 1000 mod 60 <? 60)
        && in_range (days_from_civil y' m d * msPerDay
                     + ms mod msPerDay / 3600000 * 3600000
                     + ms mod msPerDay / 60000 mod 60 * 60000
                     + ms mod msPerDay / 1000 mod 60 * 1000
                     + ms mod msPerDay mod 1000)
     then Some (days_from_civil y' m d * msPerDay
                + ms mod msPerDay / 3600000 * 3600000
                + ms mod msPerDay / 60000 mod 60 * 60000
                + ms mod msPerDay / 1000 mod 60 * 1000
                + ms mod msPerDay mod 1000)
     else None) = Some ms).
  { intros y' ->. rewrite Hms, Hrange.
    rewrite (proj2 (Z.leb_le 1 m)), (proj2 (Z.leb_le m 12)),
      (proj2 (Z.leb_le 1 d)), (proj2 (Z.leb_le d _)),
      (proj2 (Z.ltb_lt _ 24)), (proj2 (Z.ltb_lt _ 60)),
      (proj2 (Z.ltb_lt (ms mod msPerDay / 1000 mod 60) 60)) by lia.
    reflexivity. }
  destruct ((0 <=? y) && (y <=? 9999)) eqn:Hfour.
  - apply andb_prop in Hfour as [Hy0 Hy1].
    apply Z.leb_le in Hy0, Hy1.
    unfold parse. rewrite read_year_digits4 by lia. read_fields.
    rewrite !(Z.mul_comm _ 3600000), !(Z.mul_comm _ 60000), !(Z.mul_comm _ 1000).
    rewrite !(Z.mul_comm 3600000), !(Z.mul_comm 60000), !(Z.mul_comm 1000).
    apply Hfinal. reflexivity.
  - assert (Hy : y < 0 \/ 9999 < y).
    { apply andb_false_iff in Hfour as [Hf|Hf];
        [apply Z.leb_gt in Hf|apply Z.leb_gt in Hf]; lia. }
    destruct (y <? 0) eqn:Hneg.
    + apply Z.ltb_lt in Hneg. unfold parse.
      cbv beta iota delta [read_year].
      rewrite read_digits_exact by (change (10 ^ Z.of_nat 6) with 1000000; lia).
      rewrite (proj2 (Z.eqb_neq (- y) 0)) by lia.
      read_fields.
      rewrite !(Z.mul_comm _ 3600000), !(Z.mul_comm _ 60000), !(Z.mul_comm _ 1000).
      rewrite !(Z.mul_comm 3600000), !(Z.mul_comm 60000), !(Z.mul_comm 1000).
      apply Hfinal. lia.
    + apply Z.ltb_ge in Hneg. unfold parse.
      cbv beta iota delta [read_year].
      rewrite read_digits_exact by (change (10 ^ Z.of_nat 6) with 1000000; lia).
      read_fields.
      rewrite !(Z.mul_comm _ 3600000), !(Z.mul_comm _ 60000), !(Z.mul_comm _ 1000).
      rewrite !(Z.mul_comm 3600000), !(Z.mul_comm 60000), !(Z.mul_comm 1000).
      apply Hfinal. reflexivity.
Qed.

End IsoDateFacts.

(** ** Values written as JSON and read back *)

Module JsFacts.
Import Js.
#[local] Open Scope list_scope.

Section JsFacts.
Context {number : Type} `{JsHost number}.

(** Induction on values, through the arrays and the objects. *)
Lemma value_ind' (P : value number -> Prop) :
  P VUndefined -> P VNull -> (forall b, P (VBool b)) -> (forall n, P (VNum n)) ->
  (forall s, P (VStr s)) -> (forall d, P (VDate d)) ->
  (forall xs, Forall P xs -> P (VArr xs)) ->
  (forall fs, Forall (fun kv => P kv.2) fs -> P (VObj fs)) ->
  forall v, P v.
Proof.
  intros Hundef Hnull Hbool Hnum Hstr Hdate Harr Hobj.
  fix IH 1.
  intros [| |b|n|s|d|xs|fs];
    [exact Hundef|exact Hnull|apply Hbool|apply Hnum|apply Hstr|apply Hdate| | ].
  - apply Harr. induction xs as [|x xs IHxs]; constructor; [apply IH|exact IHxs].
  - apply Hobj. induction fs as [|[k x] fs IHfs]; constructor; [apply IH|exact IHfs].
Qed.

Lemma to_json_arr (xs : list (value number)) :
  to_json (VArr xs) = Some (JArr (map (fun x => default JNull (to_json x)) xs)).
Proof.
  reflexivity.
Qed.

Lemma to_json_obj (fs : list (string * value number)) :
  to_json (VObj fs)
  = Some (JObj (omap (fun kv => (fun j => (kv.1, j)) <$> to_json kv.2) fs)).
Proof.
  simpl. do 2 f_equal. induction fs as [|[k x] fs IH]; [reflexivity|].
  simpl. rewrite IH. destruct (to_json x); reflexivity.
Qed.

Lemma clean_arr (xs : list (value number)) : clean (VArr xs) <-> Forall clean xs.
Proof.
  simpl. induction xs as [|x xs IH]; [split; auto|].
  rewrite Forall_cons, <- IH. reflexivity.
Qed.

Lemma clean_obj (fs : list (string * value number)) :
  clean (VObj fs) <-> Forall (fun kv => clean kv.2) fs.
Proof.
  simpl. induction fs as [|kv fs IH]; [split; auto|].
  rewrite Forall_cons, <- IH. reflexivity.
Qed.

(** The properties of an object, written and read back: a property
    whose value comes back as [x'] is [x'] in the object read. *)
Lemma fields_back (fs fs' : list (string * value number)) :
  Forall2 (fun kv kv' => kv'.1 = kv.1
            /\ exists j, to_json kv.2 = Some j /\ of_json j = kv'.2) fs fs' ->
  exists jf, to_json (VObj fs) = Some (JObj jf) /\ of_json (JObj jf) = VObj fs'.
Proof.
  intros Hall. rewrite to_json_obj. eexists; split; [reflexivity|].
  cbn [of_json]. f_equal.
  induction Hall as [|[k x] [k' x'] fs fs' (Hk & j & Hj1 & Hj2) _ IH]; [reflexivity|].
  cbn in Hk, Hj1, Hj2. subst k'. cbn [omap list_omap snd fst].
  rewrite Hj1. cbn [fmap option_fmap option_map map snd fst].
  rewrite Hj2. f_equal. exact IH.
Qed.

(** [JSON.parse(JSON.stringify(v))] is [v] on a clean value. *)
Lemma clean_roundtrip (v : value number) :
  clean v -> exists j, to_json v = Some j /\ of_json j = v.
Proof.
  induction v as [| |b|n|s|d|xs IH|fs IH] using value_ind'; intros Hclean;
    try (destruct Hclean; fail); try (eexists; split; reflexivity).
  - simpl in Hclean. simpl. rewrite Hclean. eexists; split; reflexivity.
  - rewrite to_json_arr. eexists; split; [reflexivity|]. simpl. f_equal.
    apply clean_arr in Hclean.
    induction xs as [|x xs IHxs]; [reflexivity|].
    apply Forall_cons in IH as [IHx IH]. apply Forall_cons in Hclean as [Hx Hclean].
    simpl. rewrite (IHxs IH Hclean).
    destruct (IHx Hx) as (j & Hj1 & Hj2). rewrite Hj1. simpl. rewrite Hj2.
    reflexivity.
  - destruct (fields_back fs fs) as (jf & Hjf & Hback); [|eauto].
    apply clean_obj in Hclean.
    induction fs as [|[k x] fs IHfs]; [constructor|].
    apply Forall_cons in IH as [IHx IH]. apply Forall_cons in Hclean as [Hx Hclean].
    constructor; [split; [reflexivity|exact (IHx Hx)]|exact (IHfs IH Hclean)].
Qed.

(** *** Properties of objects *)

Lemma assoc_elem {A} k (x : A) (fs : list (string * A)) :
  NoDup fs.*1 -> (k, x) ∈ fs -> assoc k fs = Some x.
Proof.
  induction fs as [|[k0 x0] fs IH]; intros Hnodup Hin.
  - apply elem_of_nil in Hin. destruct Hin.
  - rewrite fmap_cons in Hnodup. apply NoDup_cons in Hnodup as [Hfresh Hnodup].
    simpl. apply elem_of_cons in Hin as [[= -> ->]|Hin].
    + rewrite String.eqb_refl. reflexivity.
    + destruct (String.eqb_spec k k0) as [->|_]; [|apply IH; assumption].
      exfalso. apply Hfresh. apply (list_elem_of_fmap_2 fst _ (k0, x)), Hin.
Qed.

(** The object with its property [k] replaced by [x']. *)
Definition with_field {A} (k : string) (x' : A) (fs : list (string * A))
  : list (string * A) :=
  map (fun kv => if String.eqb k kv.1 then (kv.1, x') else kv) fs.

Lemma with_field_absent {A} k (x' : A) fs :
  k ∉ fs.*1 -> with_field k x' fs = fs.
Proof.
  induction fs as [|[k0 x0] fs IH]; intros Hnot; [reflexivity|].
  rewrite fmap_cons in Hnot. apply not_elem_of_cons in Hnot as [Hne Hnot].
  unfold with_field in *. simpl. rewrite IH by exact Hnot.
  destruct (String.eqb_spec k k0) as [->|_]; [contradiction|reflexivity].
Qed.

(** Setting the property back restores the object. *)
Lemma assoc_set_back {A} k (x x' : A) fs :
  NoDup fs.*1 -> assoc k fs = Some x ->
  assoc k (with_field k x' fs) = Some x'
  /\ assoc_set k x (with_field k x' fs) = fs.
Proof.
  induction fs as [|[k0 x0] fs IH]; intros Hnodup Hassoc; [discriminate|].
  rewrite fmap_cons in Hnodup. apply NoDup_cons in Hnodup as [Hfresh Hnodup].
  unfold with_field in *. simpl in *.
  destruct (String.eqb_spec k k0) as [->|Hne]; simpl.
  - rewrite String.eqb_refl. injection Hassoc as ->. split; [reflexivity|].
    f_equal. apply (with_field_absent k0 x' fs Hfresh).
  - destruct (String.eqb_spec k k0) as [|_]; [contradiction|].
    destruct (IH Hnodup Hassoc) as [Hget Hset]. rewrite Hset. auto.
Qed.

(** *** Dates read back *)

(** What [toISOString] wrote for a time value reads back as that value,
    whatever the engine does with other texts. *)
Lemma date_of_string_toISOString ms :
  IsoDate.in_range ms = true ->
  date_of_string (IsoDate.toISOString ms) = Some ms.
Proof.
  intros Hrange. unfold date_of_string.
  rewrite IsoDateFacts.parse_toISOString by exact Hrange.
  rewrite String.eqb_refl. reflexivity.
Qed.

(** *** Slices of strings *)

(** A string of at most [n] units is its own slice. *)
Lemma slice_to_short n s : (units s <= n)%nat -> slice_to n s = s.
Proof.
  revert n. induction s as [|c s IH]; intros n Hn; [reflexivity|].
  cbn [units slice_to] in *. destruct (is_continuation c).
  - rewrite IH by exact Hn. reflexivity.
  - destruct (is_pair_lead c).
    + destruct n as [|[|n]]; [lia|lia|]. rewrite IH by lia. reflexivity.
    + destruct n as [|n]; [lia|]. rewrite IH by lia. reflexivity.
Qed.

Lemma units_high_surrogate c0 c1 c2 : units (high_surrogate c0 c1 c2) = 1%nat.
Proof.
  unfold high_surrogate.
  set (w := ((_ - 1) mod 16)%nat). set (z := (nat_of_ascii c1 mod 16)%nat).
  set (y := ((nat_of_ascii c2 / 16) mod 4)%nat).
  assert (Hw : (w < 16)%nat) by (apply Nat.mod_upper_bound; lia).
  assert (Hz : (z < 16)%nat) by (apply Nat.mod_upper_bound; lia).
  assert (Hy : (y < 4)%nat) by (apply Nat.mod_upper_bound; lia).
  assert (Hlead : forall k, (192 <= k < 240)%nat ->
            is_continuation (ascii_of_nat k) = false
            /\ is_pair_lead (ascii_of_nat k) = false).
  { intros k Hk. unfold is_continuation, is_pair_lead.
    rewrite nat_ascii_embedding by lia. split.
    - apply andb_false_iff. right. apply Nat.ltb_ge. lia.
    - apply Nat.leb_gt. lia. }
  assert (Hcont : forall k, (128 <= k < 192)%nat ->
            is_continuation (ascii_of_nat k) = true).
  { intros k Hk. unfold is_continuation.
    rewrite nat_ascii_embedding by lia.
    apply andb_true_iff. split; [apply Nat.leb_le|apply Nat.ltb_lt]; lia. }
  cbn [units].
  destruct (Hlead 237%nat) as [-> ->]; [lia|].
  rewrite (Hcont (160 + w)%nat), (Hcont (128 + z * 4 + y)%nat) by lia.
  reflexivity.
Qed.

(** A slice holds at most [n] units. *)
Lemma slice_to_units n s : (units (slice_to n s) <= n)%nat.
Proof.
  revert n. induction s as [|c s IH]; intros n; [cbn [slice_to units]; lia|].
  cbn [slice_to]. destruct (is_continuation c) eqn:Hc.
  - cbn [units]. rewrite Hc. apply IH.
  - destruct n as [|n]; [cbn [units]; lia|].
    destruct (is_pair_lead c) eqn:Hp.
    + destruct n as [|n].
      * destruct s as [|c1 [|c2 s]]; try (cbn [units]; lia).
        rewrite units_high_surrogate. lia.
      * cbn [units]. rewrite Hc, Hp. specialize (IH n). lia.
    + cbn [units]. rewrite Hc, Hp. specialize (IH n). lia.
Qed.

(** On a text of ASCII characters a unit is a character. *)
Lemma slice_to_ascii n s :
  Forall (fun c => (nat_of_ascii c < 128)%nat) (list_ascii_of_string s) ->
  slice_to n s = String.substring 0 n s.
Proof.
  revert n. induction s as [|c s IH]; intros n Hascii.
  - destruct n; reflexivity.
  - cbn [list_ascii_of_string] in Hascii.
    apply Forall_cons in Hascii as [Hc Hascii].
    assert (Hcont : is_continuation c = false).
    { unfold is_continuation. apply andb_false_iff. left. apply Nat.leb_gt. lia. }
    assert (Hpair : is_pair_lead c = false).
    { unfold is_pair_lead. apply Nat.leb_gt. lia. }
    cbn [slice_to]. rewrite Hcont, Hpair.
    destruct n as [|n]; [reflexivity|].
    cbn [String.substring]. rewrite IH by exact Hascii. reflexivity.
Qed.

(** Two accented letters are two units in four bytes; half of a pair is
    its first surrogate. *)
Example slice_of_accents :
  slice_to 2 "ééé" = "éé" /\ String.substring 0 2 "ééé" = "é".
Proof. vm_compute. split; reflexivity. Qed.

Example slice_through_a_pair :
  units "😀" = 2%nat
  /\ slice_to 1 "😀"
     = String (ascii_of_nat 237) (String (ascii_of_nat 160)
         (String (ascii_of_nat 189) EmptyString)).
Proof. vm_compute. split; reflexivity. Qed.

End JsFacts.
End JsFacts.

(** ** The server *)

Module ServerFacts.
Import Js Prog Server.
#[local] Open Scope list_scope.

Section ServerFacts.
Context {number : Type} `{JsHost number} {M : Type} `{BranchManager number M}.

Implicit Types (s : server number M) (e : exn number) (r : response number).

(** Runs the next call on the branch manager, in both of its outcomes. *)
Ltac run_core :=
  match goal with
  | |- context [match ?c with pair _ _ => _ end] =>
      let e := fresh "e" in
      let a := fresh "a" in
      let m := fresh "m" in
      let E := fresh "E" in
      lazymatch c with
      | context [match _ with _ => _ end] => fail
      | _ => destruct c as [[e|a] m] eqn:E; simpl
      end
  end.

Ltac unfold_prog :=
  cbv [try_catch mbind prog_bind bind mret prog_ret ret lift core
       console_error modify throw fmap prog_fmap read].

(** The calls a run added are what follows the earlier ones. *)
Ltac close_log :=
  simpl; rewrite <- ?app_assoc; simpl;
  first [reflexivity | symmetry; apply app_nil_r].

Ltac in_log H :=
  repeat (apply elem_of_cons in H as [H|H]; [try discriminate|]);
  try (apply elem_of_nil in H; destruct H).

Ltac finish_run :=
  eexists _, _, _; split; [reflexivity|]; split; [close_log|];
  split;
  [ let Hin := fresh "Hin" in
    intros ? ? Hin; in_log Hin; simplify_eq; eexists; reflexivity
  | repeat constructor ].

Lemma handleCommand_returns command s :
  exists r s' log,
    handleCommand command s = (inr r, s')
    /\ calls s' = calls s ++ log
    /\ (forall c e, (c, Some e) ∈ log -> is_failure e r)
    /\ Forall (fun ce => is_addThought ce.1 = false) log.
Proof.
  unfold handleCommand. unfold_prog.
  destruct (get command "type") as [e|ty]; simpl.
  { exists (failure_response e None), s, []. rewrite app_nil_r.
    repeat split; auto. intros c e' Hin. in_log Hin. }
  destruct (is_str ty "list"); [repeat run_core; finish_run|].
  destruct (is_str ty "focus").
  { destruct (get command "branchId") as [e|branchId]; simpl; [finish_run|].
    destruct (truthy branchId); simpl; [|finish_run].
    repeat run_core; try finish_run.
    destruct (template branchId); simpl; finish_run. }
  destruct (is_str ty "history"); [|destruct (template ty); simpl; finish_run].
  destruct (get command "branchId") as [e|given]; simpl; [finish_run|].
  destruct (truthy given) eqn:Hgiven; simpl.
  { rewrite Hgiven. simpl. repeat run_core; finish_run. }
  run_core; [finish_run|].
  destruct (truthy (id_of a)); simpl; [repeat run_core; finish_run|finish_run].
Qed.


(** With a truthy [command], [processThought] is [handleCommand]. *)
Lemma processThought_command input command s :
  get input "command" = inr command -> truthy command = true ->
  processThought input s = handleCommand command s.
Proof.
  intros Hget Htruthy. unfold processThought. unfold_prog.
  rewrite Hget. simpl. rewrite Htruthy.
  destruct (handleCommand_returns command s) as (r & s' & log & -> & _).
  reflexivity.
Qed.


(** C8, as the code has it.  When the [command] property of the input is
    truthy, [processThought] is [handleCommand] on it, and [addThought] is
    not among the calls made, whatever else the input holds. *)
Theorem truthy_command_is_dispatched input command s :
  get input "command" = inr command -> truthy command = true ->
  processThought input s = handleCommand command s
  /\ exists log,
       calls (processThought input s).2 = calls s ++ log
       /\ Forall (fun ce => is_addThought ce.1 = false) log.
Proof.
  intros Hget Htruthy.
  rewrite (processThought_command _ _ _ Hget Htruthy). split; [reflexivity|].
  destruct (handleCommand_returns command s) as (r & s' & log & -> & Hlog & _ & Hno).
  exists log. auto.
Qed.

(** A falsy [command] property is treated as no command: the input goes to
    [addThought]. *)
Lemma falsy_command_is_a_thought input command s :
  get input "command" = inr command -> truthy command = false ->
  exists log,
    calls (processThought input s).2
    = calls s ++ (CallAddThought input, thrown (addThought input (branchManager s)).1) :: log.
Proof.
  intros Hget Htruthy. unfold processThought. unfold_prog.
  rewrite Hget. simpl. rewrite Htruthy.
  run_core; [|run_core; [|run_core; [|destruct a0; simpl; [run_core|]]]].
  all: eexists; close_log.
Qed.


(** C7, as the code has it.  The [list] command answers with one line per
    branch that [getAllBranches] returns, in that order: a green arrow if
    the branch is the active one and a blank otherwise, then the id, the
    state in brackets and the first 50 UTF-16 units of the latest thought
    ([undefined] when the branch has none): a thought of at most 50 units
    in full, never more than 50 units ([JsFacts.slice_to_short],
    [JsFacts.slice_to_units]).  The priority is not part of the line. *)
Theorem list_reports_id_state_and_focus command s bs m1 active m2 :
  get command "type" = inr (VStr "list") ->
  getAllBranches (branchManager s) = (inr bs, m1) ->
  getActiveBranch m1 = (inr active, m2) ->
  (handleCommand command s).1
  = inr (reply (Plain
      ("Current Branches:" ++ nl ++
       join nl (map (fun b =>
         (if bool_decide (Some (branch_id b) = branch_id <$> active)
          then chalk_green "→" else " ")
         ++ " " ++ branch_id b ++ " [" ++ branch_state b ++ "] - "
         ++ match last (branch_thoughts b) with
            | Some t => slice_to 50 (thought_content t)
            | None => "undefined"
            end
         ++ "...") bs))%string)).
Proof.
  intros Hty Hall Hactive. unfold handleCommand. unfold_prog.
  rewrite Hty. simpl. rewrite Hall. simpl. rewrite Hactive. simpl.
  erewrite (map_ext (list_line _)); [reflexivity|].
  intros b. unfold list_line, show_opt.
  destruct (last (branch_thoughts b)); reflexivity.
Qed.

End ServerFacts.
End ServerFacts.

(** ** The persistence manager *)

Module PersistenceFacts.
Import Js Prog Persistence.
#[local] Open Scope list_scope.

Section PersistenceFacts.
Context {number : Type} `{JsHost number} {M : Type} `{BranchStore number M}.

Implicit Types (w : world number M) (e : exn number).

(** *** What the methods leave alone *)

(** [c] relates the world it starts in to the one it ends in by [R]. *)
Definition preserves {A} (R : relation (world number M))
    (c : prog number (world number M) A) : Prop :=
  forall w r w', c w = (r, w') -> R w w'.

Section Preserves.
Context (R : relation (world number M)) `{!PreOrder R}.

Lemma preserves_ret {A} (a : A) : preserves R (mret a).
Proof. intros w r w' [= <- <-]. reflexivity. Qed.

Lemma preserves_throw {A} e : preserves R (throw (A:=A) e).
Proof. intros w r w' [= <- <-]. reflexivity. Qed.

Lemma preserves_lift {A} (x : exn number + A) : preserves R (lift x).
Proof. intros w r w' [= <- <-]. reflexivity. Qed.

Lemma preserves_read {A} (f : world number M -> A) : preserves R (read f).
Proof. intros w r w' [= <- <-]. reflexivity. Qed.

Lemma preserves_bind {A B} (c : prog number (world number M) A)
    (k : A -> prog number (world number M) B) :
  preserves R c -> (forall a, preserves R (k a)) -> preserves R (c ≫= k).
Proof.
  intros Hc Hk w r w'. unfold mbind, prog_bind, bind.
  destruct (c w) as [[e|a] w1] eqn:Hcw.
  - intros [= <- <-]. eapply Hc, Hcw.
  - intros Hkw. etransitivity; [eapply Hc, Hcw|eapply Hk, Hkw].
Qed.

Lemma preserves_try_catch {A} (c : prog number (world number M) A) handler :
  preserves R c -> (forall e, preserves R (handler e)) ->
  preserves R (try_catch c handler).
Proof.
  intros Hc Hh w r w'. unfold try_catch.
  destruct (c w) as [[e|a] w1] eqn:Hcw.
  - intros Hhw. etransitivity; [eapply Hc, Hcw|eapply Hh, Hhw].
  - intros [= <- <-]. eapply Hc, Hcw.
Qed.

Lemma preserves_for_of {A} (xs : list A) body :
  (forall x, preserves R (body x)) -> preserves R (for_of xs body).
Proof.
  intros Hbody. induction xs as [|x xs IH]; simpl.
  - apply (preserves_ret tt).
  - apply (preserves_bind (body x)); auto.
Qed.

Lemma preserves_fs_call {A} (op : prog number (world number M) A) :
  (forall w, R w (with_faults (tail (faults w)) w)) ->
  preserves R op -> preserves R (fs_call op).
Proof.
  intros Hfaults Hop w r w'. unfold fs_call.
  destruct (head (faults w)) as [[|]|].
  - intros [= <- <-]. apply Hfaults.
  - intros Hrun. etransitivity; [apply Hfaults|eapply Hop, Hrun].
  - intros Hrun. etransitivity; [apply Hfaults|eapply Hop, Hrun].
Qed.

End Preserves.

(** The clock, the timers and the [autoSaveInterval] field. *)
Definition kept (w w' : world number M) : Prop :=
  now w' = now w /\ timers w' = timers w /\ next_timer w' = next_timer w
  /\ autoSaveInterval w' = autoSaveInterval w.

#[local] Instance kept_preorder : PreOrder kept.
Proof.
  split.
  - intros w. repeat split.
  - intros w1 w2 w3 (? & ? & ? & ?) (? & ? & ? & ?). repeat split; congruence.
Qed.

(** What a call of [fs] leaves alone: all but the disk and the fault
    schedule. *)
Definition fs_only (w w' : world number M) : Prop :=
  manager w' = manager w /\ console w' = console w /\ calls w' = calls w
  /\ kept w w'.

#[local] Instance fs_only_preorder : PreOrder fs_only.
Proof.
  split.
  - intros w. repeat split.
  - intros w1 w2 w3 (? & ? & ? & Hk1) (? & ? & ? & Hk2).
    split; [congruence|]. split; [congruence|]. split; [congruence|].
    exact (transitivity Hk1 Hk2).
Qed.

Lemma preserves_weaken {A} (R R' : relation (world number M))
    (c : prog number (world number M) A) :
  (forall w w', R w w' -> R' w w') -> preserves R c -> preserves R' c.
Proof. intros Hsub Hc w r w' Hrun. eapply Hsub, Hc, Hrun. Qed.

Lemma fs_only_fs_access : preserves fs_only fs_access.
Proof.
  apply preserves_fs_call; [apply _|intros w; repeat split|].
  intros w r w'. destruct (disk w); intros [= <- <-]; repeat split.
Qed.

Lemma fs_only_fs_mkdir : preserves fs_only fs_mkdir.
Proof.
  apply preserves_fs_call; [apply _|intros w; repeat split|].
  intros w r w'. destruct (disk w); intros [= <- <-]; repeat split.
Qed.

Lemma fs_only_fs_writeFile name f : preserves fs_only (fs_writeFile name f).
Proof.
  apply preserves_fs_call; [apply _|intros w; repeat split|].
  intros w r w'. destruct (place_of (storageDir w) name); destruct (disk w);
    intros [= <- <-]; repeat split.
Qed.

Lemma fs_only_fs_readdir : preserves fs_only fs_readdir.
Proof.
  apply preserves_fs_call; [apply _|intros w; repeat split|].
  intros w r w'. destruct (disk w); intros [= <- <-]; repeat split.
Qed.

Lemma fs_only_fs_readFile name : preserves fs_only (fs_readFile name).
Proof.
  apply preserves_fs_call; [apply _|intros w; repeat split|].
  intros w r w'. destruct (disk w ≫= (.!! name)); intros [= <- <-]; repeat split.
Qed.

Lemma fs_only_ensureStorageDir : preserves fs_only ensureStorageDir.
Proof.
  apply preserves_try_catch; [apply _|apply fs_only_fs_access|].
  intros _. apply fs_only_fs_mkdir.
Qed.

Lemma fs_only_kept w w' : fs_only w w' -> kept w w'.
Proof. intros (_ & _ & _ & Hkept). exact Hkept. Qed.

Lemma kept_fs_writeFile name f : preserves kept (fs_writeFile name f).
Proof. eapply preserves_weaken, fs_only_fs_writeFile. apply fs_only_kept. Qed.

Lemma kept_core {A} c (op : prog number M A) : preserves kept (core c op).
Proof.
  intros w r w'. unfold core. destruct (op (manager w)) as [r' m].
  intros [= <- <-]. repeat split.
Qed.

Lemma kept_console_error line : preserves kept (console_error line).
Proof. intros w r w' [= <- <-]. repeat split. Qed.

Lemma kept_ensureStorageDir : preserves kept ensureStorageDir.
Proof. eapply preserves_weaken, fs_only_ensureStorageDir. apply fs_only_kept. Qed.

Lemma kept_saveState : preserves kept saveState.
Proof.
  unfold saveState.
  apply preserves_bind; [apply _|apply kept_ensureStorageDir|intros _].
  apply preserves_bind; [apply _|apply kept_core|intros branches].
  apply preserves_bind; [apply _| |intros _].
  - apply preserves_for_of; [apply _|]. intros branch. unfold save_branch.
    apply preserves_bind; [apply _|apply preserves_read, _|intros b].
    apply preserves_bind; [apply _|apply preserves_lift, _|intros id].
    apply preserves_bind; [apply _|apply preserves_lift, _|intros name].
    apply kept_fs_writeFile.
  - unfold save_index.
    apply preserves_bind; [apply _|apply preserves_read, _|intros bs].
    apply preserves_bind; [apply _|apply preserves_read, _|intros clock].
    apply preserves_bind; [apply _|apply preserves_lift, _|intros index].
    apply kept_fs_writeFile.
Qed.

(** *** The calls of [fs] that succeed *)

Lemma fs_call_ok {A} (op : prog number (world number M) A) w a w' :
  fs_call op w = (inr a, w') ->
  op (with_faults (tail (faults w)) w) = (inr a, w').
Proof.
  unfold fs_call. destruct (head (faults w)) as [[|]|]; [discriminate|auto..].
Qed.

Lemma fs_access_ok w w' :
  fs_access w = (inr tt, w') -> exists d, disk w = Some d /\ disk w' = Some d.
Proof.
  intros Hrun. apply fs_call_ok in Hrun. simpl in Hrun.
  destruct (disk w) as [d|] eqn:Hd; [|discriminate].
  injection Hrun as <-. simpl. eauto.
Qed.

Lemma fs_access_disk w r w' : fs_access w = (r, w') -> disk w' = disk w.
Proof.
  unfold fs_access, fs_call.
  destruct (head (faults w)) as [[|]|]; simpl; [intros [= <- <-]; reflexivity|..].
  all: destruct (disk w) eqn:Hd; intros [= <- <-]; simpl; rewrite Hd; reflexivity.
Qed.

Lemma fs_mkdir_ok w w' :
  fs_mkdir w = (inr tt, w') -> disk w' = Some (default ∅ (disk w)).
Proof.
  intros Hrun. apply fs_call_ok in Hrun. simpl in Hrun.
  destruct (disk w) as [d|] eqn:Hd; injection Hrun as <-; simpl;
    rewrite ?Hd; reflexivity.
Qed.

Lemma ensureStorageDir_ok w w' :
  ensureStorageDir w = (inr tt, w') ->
  disk w' = Some (default ∅ (disk w)) /\ fs_only w w'.
Proof.
  intros Hrun. split; [|eapply fs_only_ensureStorageDir, Hrun].
  unfold ensureStorageDir, try_catch in Hrun.
  destruct (fs_access w) as [[e|[]] w1] eqn:Haccess.
  - apply fs_mkdir_ok in Hrun. rewrite Hrun.
    rewrite (fs_access_disk _ _ _ Haccess). reflexivity.
  - injection Hrun as <-.
    destruct (fs_access_ok _ _ Haccess) as (d & -> & ->). reflexivity.
Qed.

(** *** Names that are entries *)

Lemma split_path_plain name : plain_name name = true -> split_path name = [name].
Proof.
  unfold plain_name. induction name as [|c name IH]; [reflexivity|].
  cbn [has_char split_path]. rewrite Ascii.eqb_sym.
  destruct (Ascii.eqb c "/"); [discriminate|].
  intros Hplain. rewrite IH by exact Hplain. reflexivity.
Qed.

Lemma below_app dir rest : below dir (dir ++ rest) = Some rest.
Proof.
  induction dir as [|d dir IH]; [reflexivity|].
  simpl. rewrite String.eqb_refl. exact IH.
Qed.

(** The name of a file [<id>.json] is none of the empty name, [.] and
    [..]. *)
Lemma json_name_proper (id : string) :
  let name := (id ++ ".json")%string in
  String.eqb name "" = false /\ String.eqb name "." = false
  /\ String.eqb name ".." = false.
Proof.
  intros name.
  assert (Hlen : (5 <= String.length name)%nat).
  { subst name. induction id as [|c id IH]; simpl; [lia|]. lia. }
  assert (Hshort : forall other, (String.length other < 5)%nat ->
            String.eqb name other = false).
  { intros other Hother. destruct (String.eqb_spec name other) as [Heq|_];
      [|reflexivity]. rewrite Heq in Hlen. lia. }
  repeat split; apply Hshort; simpl; lia.
Qed.

(** A name [<id>.json] without a separator points at the entry of that
    name, wherever the storage directory is. *)
Lemma place_of_plain dir (id : string) :
  plain_name (id ++ ".json") = true ->
  place_of dir (id ++ ".json") = Entry (id ++ ".json").
Proof.
  intros Hplain. unfold place_of. rewrite (split_path_plain _ Hplain).
  destruct (json_name_proper id) as (H1 & H2 & H3).
  cbn [walk]. rewrite H1, H2, H3. cbn [orb walk rev].
  rewrite rev_involutive, below_app. reflexivity.
Qed.

(** Writing the entry [name] of the storage directory. *)
Definition write_entry (name : string) (f : file number)
  : prog number (world number M) unit :=
  fun w =>
    match disk w with
    | Some d => (inr tt, with_disk (Some (<[name := f]> d)) w)
    | None => (inl no_dir, w)
    end.

Lemma fs_writeFile_entry (id : string) f w :
  plain_name (id ++ ".json") = true ->
  fs_writeFile (id ++ ".json") f w = fs_call (write_entry (id ++ ".json") f) w.
Proof.
  intros Hplain. unfold fs_writeFile, fs_call, write_entry.
  destruct (head (faults w)) as [[|]|]; [reflexivity|..].
  all: cbn [storageDir disk with_faults];
    rewrite (place_of_plain _ _ Hplain); reflexivity.
Qed.

Lemma fs_writeFile_ok (id : string) f w w' :
  plain_name (id ++ ".json") = true ->
  fs_writeFile (id ++ ".json") f w = (inr tt, w') ->
  (exists d, disk w = Some d
             /\ disk w' = Some (<[(id ++ ".json")%string := f]> d))
  /\ fs_only w w'.
Proof.
  intros Hplain Hrun. split; [|eapply fs_only_fs_writeFile, Hrun].
  apply fs_call_ok in Hrun. cbn beta in Hrun.
  rewrite (place_of_plain _ _ Hplain) in Hrun. cbn [storageDir disk with_faults] in Hrun.
  destruct (disk w) as [d|] eqn:Hd; [|discriminate].
  injection Hrun as <-. simpl. eauto.
Qed.

Lemma fs_readdir_ok files w w' :
  fs_readdir w = (inr files, w') ->
  (exists d, disk w = Some d /\ disk w' = Some d /\ files = (map_to_list d).*1)
  /\ fs_only w w'.
Proof.
  intros Hrun. split; [|eapply fs_only_fs_readdir, Hrun].
  apply fs_call_ok in Hrun. simpl in Hrun.
  destruct (disk w) as [d|] eqn:Hd; [|discriminate].
  injection Hrun as <- <-. simpl. eauto.
Qed.

Lemma fs_readFile_ok name f w w' :
  fs_readFile name w = (inr f, w') ->
  (exists d, disk w = Some d /\ disk w' = Some d /\ d !! name = Some f)
  /\ fs_only w w'.
Proof.
  intros Hrun. split; [|eapply fs_only_fs_readFile, Hrun].
  apply fs_call_ok in Hrun. simpl in Hrun.
  destruct (disk w) as [d|] eqn:Hd; simpl in Hrun; [|discriminate].
  destruct (d !! name) as [f'|] eqn:Hf; [|discriminate].
  injection Hrun as <- <-. simpl. eauto.
Qed.

Lemma fs_readFile_disk name w r w' :
  fs_readFile name w = (r, w') -> disk w' = disk w.
Proof.
  unfold fs_readFile, fs_call.
  destruct (head (faults w)) as [[|]|]; simpl; [intros [= <- <-]; reflexivity|..].
  all: destruct (disk w ≫= (.!! name)); intros [= <- <-]; reflexivity.
Qed.

Lemma core_run {A} c (op : prog number M A) w r w' :
  core c op w = (r, w') ->
  op (manager w) = (r, manager w')
  /\ calls w' = calls w ++ [c]
  /\ disk w' = disk w /\ faults w' = faults w /\ console w' = console w
  /\ kept w w'.
Proof.
  unfold core. destruct (op (manager w)) as [r' m].
  intros [= <- <-]. repeat split.
Qed.

(** *** The calls on the branch manager *)

Lemma fs_only_calls w w' : fs_only w w' -> calls w' = calls w.
Proof. intros (_ & _ & Hcalls & _). exact Hcalls. Qed.

Lemma save_branch_calls branch : preserves (fun w w' => calls w' = calls w) (save_branch branch).
Proof.
  intros w r w'. unfold save_branch. cbv [mbind prog_bind bind read lift].
  destruct (get (branch_at branch (manager w)) "id") as [e|id].
  - intros [= <- <-]. reflexivity.
  - destruct (template id) as [e|name].
    + intros [= <- <-]. reflexivity.
    + intros Hrun. eapply fs_only_calls, fs_only_fs_writeFile, Hrun.
Qed.

#[local] Instance same_calls_preorder :
  PreOrder (fun w w' : world number M => calls w' = calls w).
Proof. split; [intros w; reflexivity|intros w1 w2 w3; congruence]. Qed.

Lemma save_index_calls branches :
  preserves (fun w w' => calls w' = calls w) (save_index branches).
Proof.
  intros w r w'. unfold save_index. cbv [mbind prog_bind bind read lift].
  destruct (index_of _ _) as [e|index].
  - intros [= <- <-]. reflexivity.
  - intros Hrun. eapply fs_only_calls, fs_only_fs_writeFile, Hrun.
Qed.

Lemma saveState_calls w r w' :
  saveState w = (r, w') ->
  (calls w' = calls w /\ exists e, r = inl e)
  \/ calls w' = calls w ++ [CallGetAllBranches].
Proof.
  unfold saveState. cbv [mbind prog_bind bind].
  destruct (ensureStorageDir w) as [[e|[]] w1] eqn:Hensure.
  { intros [= <- <-]. left. split; [|eauto].
    eapply fs_only_calls, fs_only_ensureStorageDir, Hensure. }
  assert (Hc1 : calls w1 = calls w)
    by (eapply fs_only_calls, fs_only_ensureStorageDir, Hensure).
  destruct (core CallGetAllBranches getAllBranches w1) as [[e|branches] w2] eqn:Hcore.
  all: destruct (core_run _ _ _ _ _ Hcore) as (_ & Hc2 & _).
  { intros [= <- <-]. right. congruence. }
  destruct (for_of branches save_branch w2) as [[e|[]] w3] eqn:Hloop.
  all: assert (Hc3 : calls w3 = calls w2)
    by exact (preserves_for_of (fun w w' => calls w' = calls w) branches
                save_branch save_branch_calls _ _ _ Hloop).
  { intros [= <- <-]. right. congruence. }
  intros Hindex. right. rewrite (save_index_calls _ _ _ _ Hindex). congruence.
Qed.

Lemma load_file_calls d name w r w' :
  disk w = Some d ->
  load_file name w = (r, w') ->
  disk w' = Some d
  /\ (r = inr tt ->
      if is_branch_file name
      then exists branch, loaded_from d name branch
                          /\ calls w' = calls w ++ [CallReconstructBranch branch]
      else calls w' = calls w).
Proof.
  intros Hdisk. unfold load_file. destruct (is_branch_file name).
  2:{ intros [= <- <-]. auto. }
  cbv [mbind prog_bind bind lift].
  destruct (fs_readFile name w) as [[e|f] w1] eqn:Hread.
  { intros [= <- <-]. split; [|discriminate].
    rewrite (fs_readFile_disk _ _ _ _ Hread). exact Hdisk. }
  destruct (fs_readFile_ok _ _ _ _ Hread) as ((d' & Hd & Hd1 & Hf) & Hfs).
  rewrite Hdisk in Hd. injection Hd as <-.
  destruct (JSON_parse f) as [e|parsed] eqn:Hparse.
  { intros [= <- <-]. split; [exact Hd1|discriminate]. }
  destruct (rehydrate parsed) as [e|branch] eqn:Hbranch.
  { intros [= <- <-]. split; [exact Hd1|discriminate]. }
  intros Hcore. destruct (core_run _ _ _ _ _ Hcore) as (_ & Hcalls & Hdisk' & _).
  split; [congruence|]. intros _. exists branch. split.
  - exists f, parsed. auto.
  - rewrite Hcalls. f_equal. apply fs_only_calls, Hfs.
Qed.

Lemma load_loop_calls d files w w' :
  disk w = Some d ->
  for_of files load_file w = (inr tt, w') ->
  disk w' = Some d
  /\ exists branches,
       Forall2 (loaded_from d) (filter (fun n => is_branch_file n = true) files) branches
       /\ calls w' = calls w ++ map CallReconstructBranch branches.
Proof.
  revert w. induction files as [|name files IH]; intros w Hdisk; simpl.
  - intros [= <-]. split; [exact Hdisk|]. exists []. rewrite app_nil_r. auto.
  - cbv [mbind prog_bind bind].
    destruct (load_file name w) as [[e|[]] w1] eqn:Hfile; [discriminate|].
    intros Hrest.
    destruct (load_file_calls _ _ _ _ _ Hdisk Hfile) as (Hdisk1 & Hcalls).
    specialize (Hcalls eq_refl).
    destruct (IH _ Hdisk1 Hrest) as (Hdisk' & branches & Hall & Hcalls').
    split; [exact Hdisk'|].
    rewrite filter_cons. destruct (is_branch_file name) eqn:Hname.
    + destruct Hcalls as (branch & Hbranch & Hcalls).
      rewrite decide_True by reflexivity.
      exists (branch :: branches). split; [constructor; assumption|].
      rewrite Hcalls', Hcalls, <- app_assoc. reflexivity.
    + rewrite decide_False by discriminate.
      exists branches. split; [assumption|]. congruence.
Qed.

(** C5. The only call [saveState] makes on the branch manager is one
    [getAllBranches] (none when the storage directory could not be made),
    and the branches it writes are those of the returned list.  A
    [loadState] that returns has called [reconstructBranch] once for each
    entry of the storage directory whose name ends in [.json] and is not
    [index.json], on that file parsed and with its timestamps made dates,
    and has made no other call. *)
Theorem persistence_calls_on_the_manager :
  (forall w r w',
     saveState w = (r, w') ->
     (calls w' = calls w /\ exists e, r = inl e)
     \/ calls w' = calls w ++ [CallGetAllBranches])
  /\ (forall w w',
        loadState w = (inr tt, w') ->
        exists d branches,
          disk w' = Some d
          /\ Forall2 (loaded_from d)
               (filter (fun n => is_branch_file n = true) (map_to_list d).*1) branches
          /\ calls w' = calls w ++ map CallReconstructBranch branches).
Proof.
  split; [exact saveState_calls|].
  intros w w' Hload. unfold loadState, try_catch in Hload.
  destruct (load_body w) as [[e|[]] w1] eqn:Hbody; [discriminate|].
  injection Hload as <-.
  unfold load_body in Hbody. cbv [mbind prog_bind bind] in Hbody.
  destruct (ensureStorageDir w) as [[e|[]] w2] eqn:Hensure; [discriminate|].
  destruct (ensureStorageDir_ok _ _ Hensure) as (Hdisk2 & Hfs2).
  destruct (fs_readdir w2) as [[e|files] w3] eqn:Hreaddir; [discriminate|].
  destruct (fs_readdir_ok _ _ _ Hreaddir) as ((d & Hd & Hd3 & ->) & Hfs3).
  destruct (load_loop_calls _ _ _ _ Hd3 Hbody) as (Hdisk' & branches & Hall & Hcalls).
  exists d, branches. split; [exact Hdisk'|]. split; [exact Hall|].
  rewrite Hcalls. f_equal.
  rewrite (fs_only_calls _ _ Hfs3). apply fs_only_calls, Hfs2.
Qed.

(** *** The files [saveState] writes *)

Lemma string_app_inj_r (s1 s2 t : string) :
  (s1 ++ t)%string = (s2 ++ t)%string -> s1 = s2.
Proof.
  intros Heq.
  apply (f_equal list_ascii_of_string) in Heq.
  assert (Happ : forall a b, list_ascii_of_string (a ++ b)%string
                 = list_ascii_of_string a ++ list_ascii_of_string b).
  { intros a b. induction a as [|c a IH]; simpl; [reflexivity|]. rewrite IH. reflexivity. }
  rewrite !Happ in Heq. apply app_inv_tail in Heq.
  rewrite <- (string_of_list_ascii_of_string s1), <- (string_of_list_ascii_of_string s2).
  rewrite Heq. reflexivity.
Qed.

Lemma file_name_inj (v1 v2 : branch_view number) :
  file_name v1 = file_name v2 -> view_id v1 = view_id v2.
Proof. apply string_app_inj_r. Qed.

Lemma file_name_index (v : branch_view number) :
  file_name v = "index.json"%string -> view_id v = "index"%string.
Proof. apply (string_app_inj_r _ "index" ".json"). Qed.

(** Writing files one after the other. *)
Definition write_all (kvs : list (string * file number)) (d : gmap string (file number))
  : gmap string (file number) :=
  foldl (fun d kv => <[kv.1 := kv.2]> d) d kvs.

Lemma write_all_other kvs d name :
  name ∉ kvs.*1 -> write_all kvs d !! name = d !! name.
Proof.
  revert d. induction kvs as [|[k f] kvs IH]; intros d Hnot; simpl; [reflexivity|].
  rewrite fmap_cons in Hnot. apply not_elem_of_cons in Hnot as [Hne Hnot].
  unfold write_all in *. simpl. rewrite IH by exact Hnot.
  apply lookup_insert_ne. intros ->. apply Hne. reflexivity.
Qed.

Lemma write_all_written kvs d name f :
  NoDup kvs.*1 -> (name, f) ∈ kvs -> write_all kvs d !! name = Some f.
Proof.
  revert d. induction kvs as [|[k f'] kvs IH]; intros d Hnodup Hin.
  - apply elem_of_nil in Hin. destruct Hin.
  - rewrite fmap_cons in Hnodup. apply NoDup_cons in Hnodup as [Hfresh Hnodup].
    apply elem_of_cons in Hin as [[= -> ->]|Hin].
    + unfold write_all. simpl. fold (write_all kvs (<[k := f']> d)).
      rewrite write_all_other by exact Hfresh. apply lookup_insert_eq.
    + unfold write_all. simpl. fold (write_all kvs (<[k := f']> d)).
      apply IH; assumption.
Qed.

Lemma index_entry_view clock b (v : branch_view number) :
  has_view b v -> index_entry clock b = inr (entry_of_view clock v).
Proof.
  intros (Hid & Hstate & Hpriority & Hthoughts & Htimes).
  unfold index_entry, entry_of_view. cbv [mbind result_bind].
  rewrite Hid, Hstate, Hpriority, Hthoughts. simpl.
  destruct (last (view_thoughts v)) as [t|] eqn:Hlast.
  - destruct (Forall2_lookup_l _ _ _ (Nat.pred (List.length (view_thoughts v))) t Htimes)
      as (d & Hd & Ht).
    { rewrite <- Hlast. rewrite last_lookup. reflexivity. }
    assert (Hlastd : last (view_times v) = Some d).
    { rewrite last_lookup, <- (Forall2_length _ _ _ Htimes). exact Hd. }
    rewrite Hlastd. simpl.
    assert (Hopt : get_opt t "timestamp" = inr (VDate d)).
    { unfold get_opt. destruct t; try exact Ht; discriminate Ht. }
    rewrite Hopt. reflexivity.
  - assert (Hempty : view_times v = []).
    { apply last_None in Hlast. rewrite Hlast in Htimes.
      apply Forall2_nil_inv_l in Htimes. exact Htimes. }
    rewrite Hempty. reflexivity.
Qed.

Lemma index_of_views clock bs (vs : list (branch_view number)) :
  Forall2 has_view bs vs ->
  index_of clock bs = inr (map (entry_of_view clock) vs).
Proof.
  induction 1 as [|b v bs vs Hview _ IH]; simpl; [reflexivity|].
  cbv [mbind result_bind]. rewrite (index_entry_view _ _ _ Hview), IH. reflexivity.
Qed.

(** The files of the branches [refs], as the manager [m] holds them. *)
Definition branch_files (m : M) (refs : list ref) (vs : list (branch_view number))
  : list (string * file number) :=
  zip_with (fun r v => (file_name v, JSON_stringify (branch_at r m))) refs vs.

Lemma fs_only_manager w w' : fs_only w w' -> manager w' = manager w.
Proof. intros (Hmanager & _). exact Hmanager. Qed.

Lemma save_loop_ok refs : forall vs w w' d,
  disk w = Some d ->
  Forall2 has_view (map (fun r => branch_at r (manager w)) refs) vs ->
  Forall (fun v => plain_name (file_name v) = true) vs ->
  for_of refs save_branch w = (inr tt, w') ->
  disk w' = Some (write_all (branch_files (manager w) refs vs) d)
  /\ fs_only w w'.
Proof.
  induction refs as [|r refs IH]; intros vs w w' d Hdisk Hviews Hplain; simpl.
  - intros [= <-]. apply Forall2_nil_inv_l in Hviews as ->.
    split; [exact Hdisk|reflexivity].
  - simpl in Hviews. apply Forall2_cons_inv_l in Hviews as (v & vs' & Hview & Hviews & ->).
    apply Forall_cons in Hplain as [Hname Hplain].
    cbv [mbind prog_bind bind].
    destruct (save_branch r w) as [[e|[]] w1] eqn:Hsave; [discriminate|].
    intros Hrest.
    unfold save_branch in Hsave. cbv [mbind prog_bind bind read lift] in Hsave.
    destruct Hview as (Hid & _). rewrite Hid in Hsave. simpl in Hsave.
    destruct (fs_writeFile_ok _ _ _ _ Hname Hsave) as ((d' & Hd' & Hd1) & Hfs).
    rewrite Hdisk in Hd'. injection Hd' as <-.
    assert (Hm : manager w1 = manager w) by apply fs_only_manager, Hfs.
    rewrite <- Hm in Hviews.
    destruct (IH _ _ _ _ Hd1 Hviews Hplain Hrest) as (Hdisk' & Hfs').
    split; [|etransitivity; eassumption].
    rewrite Hdisk', Hm. reflexivity.
Qed.

Lemma branch_files_names m refs (vs : list (branch_view number)) :
  List.length refs = List.length vs ->
  (branch_files m refs vs).*1 = map file_name vs.
Proof.
  revert vs. induction refs as [|r refs IH]; intros [|v vs] Hlen;
    try discriminate; [reflexivity|].
  simpl. f_equal. apply IH. simpl in Hlen. congruence.
Qed.

Lemma file_names_NoDup (vs : list (branch_view number)) :
  NoDup (map view_id vs) -> NoDup (map file_name vs).
Proof.
  intros Hnodup.
  change (NoDup ((fun v => (view_id v ++ ".json")%string) <$> vs)).
  change (NoDup (((fun s => (s ++ ".json")%string) ∘ view_id) <$> vs)).
  rewrite list_fmap_compose. apply NoDup_fmap_2; [|exact Hnodup].
  intros s1 s2. apply string_app_inj_r.
Qed.

(** The storage directory after a save. *)
Lemma saveState_disk w w' refs m (vs : list (branch_view number)) :
  saveState w = (inr tt, w') ->
  getAllBranches (manager w) = (inr refs, m) ->
  Forall2 has_view (map (fun r => branch_at r m) refs) vs ->
  Forall (fun v => plain_name (file_name v) = true) vs ->
  disk w'
  = Some (<["index.json" := JSON_stringify (VArr (map (entry_of_view (now w)) vs))]>
            (write_all (branch_files m refs vs) (default ∅ (disk w)))).
Proof.
  intros Hsave Hall Hviews Hplain.
  unfold saveState in Hsave. cbv [mbind prog_bind bind] in Hsave.
  destruct (ensureStorageDir w) as [[e|[]] w1] eqn:Hensure; [discriminate|].
  destruct (ensureStorageDir_ok _ _ Hensure) as (Hd1 & Hfs1).
  destruct (core CallGetAllBranches getAllBranches w1) as [[e|refs'] w2] eqn:Hcore;
    [discriminate|].
  destruct (core_run _ _ _ _ _ Hcore) as (Hget & _ & Hd2 & _ & _ & Hkept2).
  rewrite (fs_only_manager _ _ Hfs1), Hall in Hget. injection Hget as <- Hm2.
  destruct (for_of refs save_branch w2) as [[e|[]] w3] eqn:Hloop; [discriminate|].
  rewrite Hd1 in Hd2. subst m.
  destruct (save_loop_ok _ _ _ _ _ Hd2 Hviews Hplain Hloop) as (Hd3 & Hfs3).
  unfold save_index in Hsave. cbv [mbind prog_bind bind read lift] in Hsave.
  rewrite (fs_only_manager _ _ Hfs3) in Hsave.
  rewrite (index_of_views _ _ _ Hviews) in Hsave.
  destruct (fs_writeFile_ok "index" _ _ _ eq_refl Hsave) as ((d3 & Hd3' & Hd') & _).
  rewrite Hd3 in Hd3'. injection Hd3' as <-.
  assert (Hnow : now w3 = now w).
  { destruct Hfs3 as (_ & _ & _ & Hn3 & _). destruct Hkept2 as (Hn2 & _).
    destruct Hfs1 as (_ & _ & _ & Hn1 & _). congruence. }
  rewrite Hd', Hnow. reflexivity.
Qed.

(** C4, as the code has it.  A [saveState] that returns, on branches of
    pairwise different ids that hold no path separator and none of which
    is "index", has written for each
    branch the file [<id>.json] holding the whole branch object, and the
    file [index.json] holding one entry
    [{id, state, priority, thoughtCount, lastUpdated}] per branch, in the
    order of [getAllBranches]: [thoughtCount] is the number of thoughts and
    [lastUpdated] the timestamp of the last thought, or the time of the
    save for a branch without thoughts.  No other file of the storage
    directory has changed, and different branches have different files. *)
Theorem saveState_files w w' refs m (vs : list (branch_view number)) :
  saveState w = (inr tt, w') ->
  getAllBranches (manager w) = (inr refs, m) ->
  Forall2 has_view (map (fun r => branch_at r m) refs) vs ->
  NoDup (map view_id vs) ->
  "index"%string ∉ map view_id vs ->
  Forall (fun v => plain_name (file_name v) = true) vs ->
  exists d',
    disk w' = Some d'
    /\ NoDup (map file_name vs)
    /\ (forall r v, (r, v) ∈ zip refs vs ->
          d' !! file_name v = Some (JSON_stringify (branch_at r m)))
    /\ d' !! "index.json"
       = Some (JSON_stringify (VArr (map (entry_of_view (now w)) vs)))
    /\ (forall name, name ∉ map file_name vs -> name <> "index.json"%string ->
          d' !! name = default ∅ (disk w) !! name).
Proof.
  intros Hsave Hall Hviews Hnodup Hindex Hplain.
  pose proof (saveState_disk _ _ _ _ _ Hsave Hall Hviews Hplain) as Hd'.
  assert (Hnames : NoDup (map file_name vs)) by apply file_names_NoDup, Hnodup.
  assert (Hlen : List.length refs = List.length vs).
  { apply Forall2_length in Hviews. rewrite length_map in Hviews. exact Hviews. }
  assert (Hnotindex : forall v, v ∈ vs -> file_name v <> "index.json"%string).
  { intros v Hin Hname. apply Hindex. apply file_name_index in Hname.
    rewrite <- Hname. apply (list_elem_of_fmap_2 view_id), Hin. }
  eexists. split; [exact Hd'|]. split; [exact Hnames|]. split; [|split].
  - intros r v Hin.
    rewrite lookup_insert_ne.
    2:{ intros Heq. symmetry in Heq. revert Heq. apply Hnotindex.
        apply elem_of_zip_r in Hin. exact Hin. }
    apply write_all_written.
    + rewrite branch_files_names by exact Hlen. exact Hnames.
    + unfold branch_files. rewrite zip_with_zip.
      apply (list_elem_of_fmap_2
               (uncurry (fun r v => (file_name v, JSON_stringify (branch_at r m))))
               _ (r, v)), Hin.
  - apply lookup_insert_eq.
  - intros name Hother Hne. rewrite lookup_insert_ne by congruence.
    apply write_all_other. rewrite branch_files_names by exact Hlen. exact Hother.
Qed.

(** *** A save between its awaits *)

Lemma run_app (es1 es2 : list (event M)) tw :
  run (es1 ++ es2) tw = run es2 (run es1 tw).
Proof. apply foldl_app. Qed.

Lemma run_settled n r w :
  run (replicate n Resume) (Settled r, w) = (Settled r, w).
Proof. induction n as [|n IH]; [reflexivity|exact IH]. Qed.

(** Resumed without interruption, the loop does what the loop and the
    index of [saveState] do. *)
Lemma run_loop branches todo : forall w,
  exists n,
    run (replicate n Resume) (next_write branches todo w)
    = (Settled ((for_of todo save_branch;; save_index branches) w).1,
       ((for_of todo save_branch;; save_index branches) w).2).
Proof.
  induction todo as [|branch todo IH]; intros w.
  - unfold next_write. simpl for_of.
    cbv [mbind prog_bind bind mret prog_ret ret save_index read lift].
    destruct (index_of _ _) as [e|index].
    + exists O. reflexivity.
    + exists 1%nat. simpl. destruct (fs_writeFile _ _ w) as [r w']. reflexivity.
  - unfold next_write. simpl for_of.
    cbv [mbind prog_bind bind save_branch read lift].
    destruct (get (branch_at branch (manager w)) "id") as [e|id];
      [exists O; reflexivity|].
    cbn [mbind result_bind]. destruct (template id) as [e|name].
    + exists O. reflexivity.
    + destruct (fs_writeFile (name ++ ".json")
                  (JSON_stringify (branch_at branch (manager w))) w)
        as [[e|[]] w1] eqn:Hwrite.
      * exists 1%nat. simpl. rewrite Hwrite. reflexivity.
      * destruct (IH w1) as (n & Hn). exists (S n). simpl.
        rewrite Hwrite. fold (run (replicate n Resume) (next_write branches todo w1)).
        rewrite Hn. reflexivity.
Qed.

Lemma run_after_ensure w :
  exists n,
    run (replicate n Resume) (after_ensure w)
    = (Settled ((branches ← core CallGetAllBranches getAllBranches;
                 for_of branches save_branch;; save_index branches) w).1,
       ((branches ← core CallGetAllBranches getAllBranches;
         for_of branches save_branch;; save_index branches) w).2).
Proof.
  unfold after_ensure. cbv [mbind prog_bind bind].
  destruct (core CallGetAllBranches getAllBranches w) as [[e|branches] w1].
  - exists O. reflexivity.
  - destruct (run_loop branches branches w1) as (n & Hn). exists n.
    rewrite Hn. reflexivity.
Qed.

Lemma run_start w :
  exists n,
    run (replicate n Resume) (start w) = (Settled (saveState w).1, (saveState w).2).
Proof.
  unfold saveState, ensureStorageDir, try_catch.
  cbv [mbind prog_bind bind].
  destruct (fs_access w) as [[e|[]] w1] eqn:Haccess.
  - destruct (fs_mkdir w1) as [[e'|[]] w2] eqn:Hmkdir.
    + exists 2%nat. simpl. rewrite Haccess. simpl. rewrite Hmkdir. reflexivity.
    + destruct (run_after_ensure w2) as (n & Hn). exists (2 + n)%nat.
      rewrite replicate_add, run_app. simpl. rewrite Haccess. simpl.
      rewrite Hmkdir. exact Hn.
  - destruct (run_after_ensure w1) as (n & Hn). exists (1 + n)%nat.
    rewrite replicate_add, run_app. simpl. rewrite Haccess. exact Hn.
Qed.

(** C6, as the code has it.  [saveState] copies nothing: it lists the
    branches when its first awaited call has completed, makes the text of
    each branch file when the write before it has completed, and the
    index when the last branch file is written.

    A save that no request interleaves does what [saveState] does as one
    piece, and so writes the branches as they are when it is called.  A
    request handled while the save waits for its first call is to the
    save as if it had come before the call: it is saved in full.  When
    the loop has reached a branch, in the world [w], and a request is
    handled while the file of that branch is being written, the file
    holds the branch as it was before the request, and the rest of the
    save, the later branch files and the index, is the loop and the index
    of [saveState] on the manager as the request left it.  A request
    handled while the index is being written changes nothing that is
    written. *)
Theorem save_without_interleaving w :
  (exists n,
     run (replicate n Resume) (start w) = (Settled (saveState w).1, (saveState w).2))
  /\ (forall handler,
        let w_h := with_manager (handler (manager w)) w in
        exists n,
          run (Request handler :: replicate n Resume) (start w)
          = (Settled (saveState w_h).1, (saveState w_h).2))
  /\ (forall branches branch todo handler name,
        get (branch_at branch (manager w)) "id" ≫= template = inr name ->
        let w_h := with_manager (handler (manager w)) w in
        let written :=
          fs_writeFile (name ++ ".json")
            (JSON_stringify (branch_at branch (manager w))) w_h in
        let rest := (for_of todo save_branch;; save_index branches) written.2 in
        manager written.2 = handler (manager w)
        /\ exists n,
             run (Request handler :: replicate n Resume)
               (next_write branches (branch :: todo) w)
             = match written.1 with
               | inr _ => (Settled rest.1, rest.2)
               | inl e => (Settled (inl e), written.2)
               end)
  /\ (forall branches handler index,
        index_of (now w) (map (fun r => branch_at r (manager w)) branches) = inr index ->
        let w_h := with_manager (handler (manager w)) w in
        let written := fs_writeFile "index.json" (JSON_stringify (VArr index)) w_h in
        run [Request handler; Resume] (next_write branches [] w)
        = (Settled written.1, written.2)).
Proof.
  split; [apply run_start|]. split; [|split].
  - intros handler w_h. destruct (run_start w_h) as (n & Hn).
    exists n. exact Hn.
  - intros branches branch todo handler name Hname w_h written rest.
    split.
    { subst written.
      exact (proj1 (fs_only_fs_writeFile _ _ w_h _ _ (surjective_pairing _))). }
    unfold next_write. rewrite Hname. subst rest written.
    destruct (fs_writeFile (name ++ ".json")
                (JSON_stringify (branch_at branch (manager w))) w_h)
      as [[e|[]] w1] eqn:Hwrite.
    + exists 1%nat. cbn [replicate run foldl step resume fst snd].
      fold w_h. rewrite Hwrite. reflexivity.
    + destruct (run_loop branches todo w1) as (n & Hn). exists (S n).
      cbn [replicate run foldl step resume fst snd].
      fold w_h. rewrite Hwrite.
      fold (run (replicate n Resume) (next_write branches todo w1)).
      exact Hn.
  - intros branches handler index Hindex w_h written.
    unfold next_write. rewrite Hindex. subst written.
    cbn [run foldl step resume fst snd]. fold w_h.
    destruct (fs_writeFile "index.json" (JSON_stringify (VArr index)) w_h).
    reflexivity.
Qed.

(** *** Failures of the disk *)

(** The entries of the fault schedule that [c] uses up; a failing one
    makes [c] throw. *)
Definition faults_are_thrown {A} (c : prog number (world number M) A) : Prop :=
  forall w r w',
    c w = (r, w') ->
    exists used, faults w = used ++ faults w' /\ (true ∈ used -> exists e, r = inl e).

Lemma faults_are_thrown_still {A} (c : prog number (world number M) A) :
  (forall w r w', c w = (r, w') -> faults w' = faults w) -> faults_are_thrown c.
Proof.
  intros Hstill w r w' Hrun. exists []. rewrite (Hstill _ _ _ Hrun).
  split; [reflexivity|]. intros Hin. apply elem_of_nil in Hin. destruct Hin.
Qed.

Lemma faults_are_thrown_bind {A B} (c : prog number (world number M) A)
    (k : A -> prog number (world number M) B) :
  faults_are_thrown c -> (forall a, faults_are_thrown (k a)) ->
  faults_are_thrown (c ≫= k).
Proof.
  intros Hc Hk w r w'. unfold mbind, prog_bind, bind.
  destruct (c w) as [[e|a] w1] eqn:Hcw.
  - intros [= <- <-]. destruct (Hc _ _ _ Hcw) as (used & Hused & _).
    exists used. split; [exact Hused|eauto].
  - intros Hkw. destruct (Hc _ _ _ Hcw) as (used1 & Hused1 & Hthrown1).
    destruct (Hk _ _ _ _ Hkw) as (used2 & Hused2 & Hthrown2).
    exists (used1 ++ used2). split.
    + rewrite Hused1, Hused2, app_assoc. reflexivity.
    + intros Hin. apply elem_of_app in Hin as [Hin|Hin]; [|auto].
      destruct (Hthrown1 Hin) as (e & [=]).
Qed.

Lemma faults_are_thrown_for_of {A} (xs : list A) body :
  (forall x, faults_are_thrown (body x)) -> faults_are_thrown (for_of xs body).
Proof.
  intros Hbody. induction xs as [|x xs IH]; simpl.
  - apply faults_are_thrown_still. intros w r w' [= <- <-]. reflexivity.
  - apply (faults_are_thrown_bind (body x)); auto.
Qed.

Lemma fs_call_faults {A} (op : prog number (world number M) A) :
  (forall w r w', op w = (r, w') -> faults w' = faults w) ->
  forall w r w',
    fs_call op w = (r, w') ->
    faults w' = tail (faults w)
    /\ exists used, faults w = used ++ faults w' /\ (true ∈ used -> exists e, r = inl e).
Proof.
  intros Hop w r w'. unfold fs_call.
  destruct (faults w) as [|[|] rest] eqn:Hfaults; simpl.
  - intros Hrun. apply Hop in Hrun. simpl in Hrun. split; [exact Hrun|].
    exists []. rewrite Hrun. split; [reflexivity|].
    intros Hin. apply elem_of_nil in Hin. destruct Hin.
  - intros [= <- <-]. split; [reflexivity|]. exists [true]. split; [reflexivity|eauto].
  - intros Hrun. apply Hop in Hrun. simpl in Hrun. split; [exact Hrun|].
    exists [false]. rewrite Hrun. split; [reflexivity|].
    intros Hin. apply list_elem_of_singleton in Hin. discriminate Hin.
Qed.

Lemma fs_mkdir_faults w r w' :
  fs_mkdir w = (r, w') ->
  exists used, faults w = used ++ faults w' /\ (true ∈ used -> exists e, r = inl e).
Proof.
  intros Hrun. refine (proj2 (fs_call_faults _ _ _ _ _ Hrun)).
  intros w0 r0 w0'. destruct (disk w0); intros [= <- <-]; reflexivity.
Qed.

Lemma fs_readdir_faults : faults_are_thrown fs_readdir.
Proof.
  intros w r w' Hrun. refine (proj2 (fs_call_faults _ _ _ _ _ Hrun)).
  intros w0 r0 w0'. destruct (disk w0); intros [= <- <-]; reflexivity.
Qed.

Lemma fs_readFile_faults name : faults_are_thrown (fs_readFile name).
Proof.
  intros w r w' Hrun. refine (proj2 (fs_call_faults _ _ _ _ _ Hrun)).
  intros w0 r0 w0'. destruct (disk w0 ≫= (.!! name)); intros [= <- <-]; reflexivity.
Qed.

(** [ensureStorageDir] throws what [fs.mkdir] throws, not what
    [fs.access] does: the first entry of the schedule is used up and
    forgotten. *)
Lemma ensureStorageDir_faults w r w' :
  ensureStorageDir w = (r, w') ->
  exists used,
    tail (faults w) = used ++ faults w' /\ (true ∈ used -> exists e, r = inl e).
Proof.
  unfold ensureStorageDir, try_catch.
  destruct (fs_access w) as [[e|[]] w1] eqn:Haccess.
  all: assert (Hfaults1 : faults w1 = tail (faults w)).
  1,3: refine (proj1 (fs_call_faults _ _ _ _ _ Haccess));
    intros w0 r0 w0'; destruct (disk w0); intros [= <- <-]; reflexivity.
  - intros Hmkdir. rewrite <- Hfaults1. apply fs_mkdir_faults, Hmkdir.
  - intros [= <- <-]. exists []. rewrite Hfaults1. split; [reflexivity|].
    intros Hin. apply elem_of_nil in Hin. destruct Hin.
Qed.

Lemma load_body_faults w r w' :
  load_body w = (r, w') ->
  exists used,
    tail (faults w) = used ++ faults w' /\ (true ∈ used -> exists e, r = inl e).
Proof.
  unfold load_body. cbv [mbind prog_bind bind].
  destruct (ensureStorageDir w) as [[e|[]] w1] eqn:Hensure.
  { intros [= <- <-]. destruct (ensureStorageDir_faults _ _ _ Hensure) as (used & Hused & _).
    exists used. split; [exact Hused|eauto]. }
  destruct (ensureStorageDir_faults _ _ _ Hensure) as (used1 & Hused1 & Hthrown1).
  intros Hrest.
  assert (Hloop : faults_are_thrown
            (fun w => match fs_readdir w with
                      | (inl e, w2) => (inl e, w2)
                      | (inr files, w2) => for_of files load_file w2
                      end)).
  { apply (faults_are_thrown_bind fs_readdir (fun files => for_of files load_file));
      [apply fs_readdir_faults|intros files].
    apply faults_are_thrown_for_of. intros file. unfold load_file.
    destruct (is_branch_file file).
    2:{ apply faults_are_thrown_still. intros w0 r0 w0' [= <- <-]. reflexivity. }
    apply faults_are_thrown_bind; [apply fs_readFile_faults|intros content].
    apply faults_are_thrown_still. intros w0 r0 w0'.
    cbv [mbind prog_bind bind lift].
    destruct (JSON_parse content) as [e|parsed]; [intros [= <- <-]; reflexivity|].
    destruct (rehydrate parsed) as [e|branch]; [intros [= <- <-]; reflexivity|].
    intros Hcore. destruct (core_run _ _ _ _ _ Hcore) as (_ & _ & _ & Hf & _).
    exact Hf. }
  destruct (Hloop _ _ _ Hrest) as (used2 & Hused2 & Hthrown2).
  exists (used1 ++ used2). split.
  - rewrite Hused1, Hused2, app_assoc. reflexivity.
  - intros Hin. apply elem_of_app in Hin as [Hin|Hin]; [|auto].
    destruct (Hthrown1 Hin) as (e & [=]).
Qed.

(** C3, as the code has it.  Of the calls of [fs] that [loadState] makes,
    the first is [fs.access], whose failure [ensureStorageDir] takes for
    a missing directory and answers with [fs.mkdir].  A failure of any
    later call ([fs.mkdir], [fs.readdir], [fs.readFile]) makes
    [loadState] throw 'Failed to load persisted state', and when the
    manager's [initialize] is that load, [runServer] logs the fatal error
    and leaves with [process.exit(1)], before the transport is
    connected.  More generally whatever is thrown inside the [try] of
    [loadState], a file that does not parse among it, is logged and
    thrown again as that error.  A [saveState] that throws inside an
    autosave tick is logged by the tick, which returns normally; the
    timer stays set, and its next firing runs [saveState] again. *)
Theorem load_failure_is_fatal_save_failure_is_not
    (initialize : prog number (world number M) unit) :
  (forall w, initialize w = loadState w) ->
  (forall w r w' (connect : prog number (Server.server number (world number M)) unit),
     loadState w = (r, w') ->
     exists used,
       tail (faults w) = used ++ faults w'
       /\ (true ∈ used ->
           r = inl (ErrorObj "Failed to load persisted state")
           /\ Server.runServer w initialize connect
              = Server.Exited 1
                  {| Server.branchManager := w';
                     Server.console :=
                       ["Fatal error initializing server: Failed to load persisted state"%string];
                     Server.calls :=
                       [(Server.CallInitialize,
                         Some (ErrorObj "Failed to load persisted state"))] |}))
  /\ (forall w e w1 (connect : prog number (Server.server number (world number M)) unit),
        load_body w = (inl e, w1) ->
        let w2 := with_console
                    (console w1 ++ [("Error loading state: " ++ error_text e)%string]) w1 in
        loadState w = (inl (ErrorObj "Failed to load persisted state"), w2)
        /\ Server.runServer w initialize connect
           = Server.Exited 1
               {| Server.branchManager := w2;
                  Server.console :=
                    ["Fatal error initializing server: Failed to load persisted state"%string];
                  Server.calls :=
                    [(Server.CallInitialize,
                      Some (ErrorObj "Failed to load persisted state"))] |})
  /\ (forall w t interval e w1,
        timers w !! t = Some interval ->
        saveState w = (inl e, w1) ->
        let w2 := with_console
                    (console w1 ++ [("Auto-save failed: " ++ error_text e)%string]) w1 in
        fire t w = (inr tt, w2)
        /\ timers w2 !! t = Some interval
        /\ fire t w2 = autosave_tick w2).
Proof.
  intros Hinit.
  assert (Hexit : forall w w' (connect : prog number (Server.server number (world number M)) unit),
            loadState w = (inl (ErrorObj "Failed to load persisted state"), w') ->
            Server.runServer w initialize connect
            = Server.Exited 1
                {| Server.branchManager := w';
                   Server.console :=
                     ["Fatal error initializing server: Failed to load persisted state"%string];
                   Server.calls :=
                     [(Server.CallInitialize,
                       Some (ErrorObj "Failed to load persisted state"))] |}).
  { intros w w' connect Hload. unfold Server.runServer, Server.core.
    cbv [mbind prog_bind bind]. simpl. rewrite Hinit, Hload. reflexivity. }
  split; [|split].
  - intros w r w' connect Hload.
    unfold loadState, try_catch in Hload.
    destruct (load_body w) as [[e|[]] w1] eqn:Hbody.
    + destruct (load_body_faults _ _ _ Hbody) as (used & Hused & _).
      cbv [mbind prog_bind bind console_error modify throw] in Hload.
      injection Hload as <- <-. exists used. split; [exact Hused|].
      intros _. split; [reflexivity|]. apply Hexit.
      unfold loadState, try_catch. rewrite Hbody. reflexivity.
    + injection Hload as <- <-.
      destruct (load_body_faults _ _ _ Hbody) as (used & Hused & Hthrown).
      exists used. split; [exact Hused|].
      intros Hin. destruct (Hthrown Hin) as (e & [=]).
  - intros w e w1 connect Hbody w2.
    assert (Hload : loadState w
                    = (inl (ErrorObj "Failed to load persisted state"), w2)).
    { unfold loadState, try_catch. rewrite Hbody. reflexivity. }
    split; [exact Hload|]. apply Hexit, Hload.
  - intros w t interval e w1 Htimer Hsave w2.
    assert (Hkept : timers w2 !! t = Some interval).
    { destruct (kept_saveState _ _ _ Hsave) as (_ & Htimers & _).
      subst w2. simpl. rewrite Htimers. exact Htimer. }
    repeat split.
    + unfold fire. rewrite Htimer. unfold autosave_tick, try_catch.
      rewrite Hsave. reflexivity.
    + exact Hkept.
    + unfold fire. rewrite Hkept. reflexivity.
Qed.

(** *** The autosave timer *)

(** What holds of the timers after any calls of [enableAutoSave] and
    [disableAutoSave] on a manager created when the next timer was [n0]:
    the timers from [n0] on are its own, and the only one set is the one in
    [autoSaveInterval]. *)
Record own_timer (n0 : nat) (w0 w : world number M) : Prop := {
  own_next : (n0 <= next_timer w)%nat;
  own_fresh : forall t, (next_timer w <= t)%nat -> timers w !! t = None;
  own_field : forall t, autoSaveInterval w = Some t -> (n0 <= t)%nat;
  own_set : forall t, (n0 <= t)%nat ->
            is_Some (timers w !! t) <-> autoSaveInterval w = Some t;
  own_others : forall t, (t < n0)%nat -> timers w !! t = timers w0 !! t
}.

Lemma own_timer_autosave n0 w0 w c :
  own_timer n0 w0 w -> own_timer n0 w0 (autosave c w).
Proof.
  intros [Hnext Hfresh Hfield Hset Hothers].
  destruct c as [interval|]; simpl.
  - unfold enableAutoSave, setInterval_own.
    assert (Hcleared : forall t, (n0 <= t)%nat ->
      timers (match autoSaveInterval w with
              | Some t' => clearInterval t' w
              | None => w
              end) !! t = None).
    { intros t Ht. destruct (autoSaveInterval w) as [t'|] eqn:Hown; simpl.
      - destruct (decide (t = t')) as [->|Hne].
        + apply lookup_delete_eq.
        + rewrite lookup_delete_ne by congruence.
          destruct (timers w !! t) eqn:Ht'; [|reflexivity].
          assert (Some t' = Some t) as [= ->]; [|congruence].
          apply Hset; eauto.
      - destruct (timers w !! t) eqn:Ht'; [|reflexivity].
        assert (@None nat = Some t); [|congruence].
        apply Hset; eauto. }
    assert (Hkept : forall t, (t < n0)%nat ->
      timers (match autoSaveInterval w with
              | Some t' => clearInterval t' w
              | None => w
              end) !! t = timers w !! t).
    { intros t Ht. destruct (autoSaveInterval w) as [t'|] eqn:Hown; simpl; [|reflexivity].
      apply lookup_delete_ne. specialize (Hfield _ eq_refl). lia. }
    assert (Hn : next_timer (match autoSaveInterval w with
                             | Some t' => clearInterval t' w
                             | None => w
                             end) = next_timer w)
      by (destruct (autoSaveInterval w); reflexivity).
    split; simpl; rewrite ?Hn.
    + lia.
    + intros t Ht. rewrite lookup_insert_ne by lia. apply Hcleared. lia.
    + intros t [= <-]. exact Hnext.
    + intros t Ht. destruct (decide (t = next_timer w)) as [->|Hne].
      * rewrite lookup_insert_eq. split; eauto.
      * rewrite lookup_insert_ne by congruence. rewrite Hcleared by exact Ht.
        split; [intros [? [=]]|intros [= ?]; congruence].
    + intros t Ht. rewrite lookup_insert_ne by lia. rewrite Hkept by exact Ht.
      apply Hothers, Ht.
  - unfold disableAutoSave.
    destruct (autoSaveInterval w) as [t'|] eqn:Hown; simpl.
    + split; simpl.
      * exact Hnext.
      * intros t Ht. destruct (decide (t = t')) as [->|Hne].
        -- apply lookup_delete_eq.
        -- rewrite lookup_delete_ne by congruence. apply Hfresh, Ht.
      * intros t [=].
      * intros t Ht. split; [|intros [=]].
        destruct (decide (t = t')) as [->|Hne].
        -- rewrite lookup_delete_eq. intros [? [=]].
        -- rewrite lookup_delete_ne by congruence. intros Hsome.
           apply Hset in Hsome; [congruence|exact Ht].
      * intros t Ht. rewrite lookup_delete_ne; [apply Hothers, Ht|].
        specialize (Hfield _ eq_refl). lia.
    + split; rewrite ?Hown; assumption.
Qed.

Lemma own_timer_calls n0 w0 (cs : list (autosave_call number)) w :
  own_timer n0 w0 w -> own_timer n0 w0 (autosave_calls cs w).
Proof.
  unfold autosave_calls. revert w.
  induction cs as [|c cs IH]; intros w Hw; simpl.
  - exact Hw.
  - apply IH, own_timer_autosave, Hw.
Qed.

(** C10. On a manager whose [autoSaveInterval] starts unset, after any
    sequence of [enableAutoSave] and [disableAutoSave] calls the timers the
    manager has created and not cleared are at most one, the one its
    [autoSaveInterval] field holds; the timers of others are untouched. *)
Theorem at_most_one_autosave_timer w0 (cs : list (autosave_call number)) :
  autoSaveInterval w0 = None ->
  (forall t, (next_timer w0 <= t)%nat -> timers w0 !! t = None) ->
  let w := autosave_calls cs w0 in
  (forall t, (next_timer w0 <= t)%nat ->
     is_Some (timers w !! t) <-> autoSaveInterval w = Some t)
  /\ (forall t1 t2, (next_timer w0 <= t1)%nat -> (next_timer w0 <= t2)%nat ->
        is_Some (timers w !! t1) -> is_Some (timers w !! t2) -> t1 = t2)
  /\ (forall t, (t < next_timer w0)%nat -> timers w !! t = timers w0 !! t).
Proof.
  intros Hunset Hfresh w.
  assert (Hinv : own_timer (next_timer w0) w0 w).
  { apply own_timer_calls. split; auto.
    - intros t. rewrite Hunset. intros [=].
    - intros t Ht. rewrite Hfresh by exact Ht. rewrite Hunset.
      split; [intros [? [=]]|intros [=]]. }
  destruct Hinv as [_ _ _ Hset Hothers]. repeat split.
  - apply Hset; assumption.
  - apply Hset; assumption.
  - intros t1 t2 Ht1 Ht2 Hs1 Hs2.
    apply Hset in Hs1; [|exact Ht1]. apply Hset in Hs2; [|exact Ht2]. congruence.
  - exact Hothers.
Qed.

End PersistenceFacts.
End PersistenceFacts.

(** ** Saving and loading again *)

Module RoundTrip.
Import Js Prog Persistence JsFacts PersistenceFacts.
#[local] Open Scope list_scope.

Section RoundTrip.
Context {number : Type} `{JsHost number}.

(** A property of an object, written and read back, when one property is
    known to come back as [x'] and the others are clean. *)
Lemma fields_with_field (fs : list (string * value number)) k x x' :
  NoDup fs.*1 -> assoc k fs = Some x ->
  (exists j, to_json x = Some j /\ of_json j = x') ->
  Forall (fun kv => kv.1 <> k -> clean kv.2) fs ->
  exists jf, to_json (VObj fs) = Some (JObj jf)
             /\ of_json (JObj jf) = VObj (with_field k x' fs).
Proof.
  intros Hnodup Hassoc Hx Hclean. apply fields_back.
  unfold with_field. apply Forall2_fmap_r, Forall_Forall2_diag.
  apply Forall_forall. intros [k0 x0] Hin.
  rewrite Forall_forall in Hclean. specialize (Hclean _ Hin). simpl in *.
  destruct (String.eqb_spec k k0) as [->|Hne]; simpl.
  - split; [reflexivity|].
    rewrite (assoc_elem _ _ _ Hnodup Hin) in Hassoc. injection Hassoc as ->.
    exact Hx.
  - split; [reflexivity|]. apply clean_roundtrip, Hclean. congruence.
Qed.

(** A stored thought, written and read back, is itself again once its
    timestamp is made a date. *)
Lemma thought_roundtrip (t : value number) :
  stored_thought t ->
  exists j, to_json t = Some j /\ rehydrate_thought (of_json j) = inr t.
Proof.
  intros (fs & ms & -> & Hnodup & Htime & Hrange & Hclean).
  destruct (fields_with_field fs "timestamp" (VDate (Some ms))
              (VStr (IsoDate.toISOString ms)) Hnodup Htime) as (jf & Hjf & Hback).
  { eexists; split; reflexivity. }
  { exact Hclean. }
  exists (JObj jf). split; [exact Hjf|]. rewrite Hback.
  destruct (assoc_set_back "timestamp" (VDate (Some ms))
              (VStr (IsoDate.toISOString ms)) fs Hnodup Htime) as [Hget Hset].
  unfold rehydrate_thought, get. rewrite Hget.
  cbn [mbind result_bind default id new_Date].
  rewrite date_of_string_toISOString by exact Hrange.
  cbn [mbind result_bind].
  rewrite Hset. reflexivity.
Qed.

Lemma thoughts_roundtrip (ts : list (value number)) :
  Forall stored_thought ts ->
  rehydrate_all (map of_json (map (fun t => default JNull (to_json t)) ts)) = inr ts.
Proof.
  induction 1 as [|t ts Ht _ IH]; [reflexivity|].
  destruct (thought_roundtrip t Ht) as (j & Hj & Hback).
  simpl. rewrite Hj. simpl. rewrite Hback. cbn [mbind result_bind].
  rewrite IH. reflexivity.
Qed.

(** A stored branch, written by [saveState] and read by the loop of
    [loadState], is itself again. *)
Lemma branch_roundtrip (b : value number) :
  stored_branch b ->
  exists parsed, JSON_parse (JSON_stringify b) = inr parsed /\ rehydrate parsed = inr b.
Proof.
  intros (fs & ts & -> & Hnodup & Hthoughts & Hts & Hclean).
  set (ts' := map of_json (map (fun t => default JNull (to_json t)) ts)).
  destruct (fields_with_field fs "thoughts" (VArr ts) (VArr ts') Hnodup Hthoughts)
    as (jf & Hjf & Hback).
  { rewrite to_json_arr. eexists; split; reflexivity. }
  { exact Hclean. }
  exists (of_json (JObj jf)). split.
  { unfold JSON_stringify, JSON_parse. rewrite Hjf. reflexivity. }
  rewrite Hback.
  destruct (assoc_set_back "thoughts" (VArr ts) (VArr ts') fs Hnodup Hthoughts)
    as [Hget Hset].
  unfold rehydrate, get. rewrite Hget. cbn [mbind result_bind default id].
  subst ts'. rewrite (thoughts_roundtrip ts Hts). cbn [mbind result_bind].
  rewrite Hset. reflexivity.
Qed.

(** *** Names of branch files *)

Lemma endsWith_app (a suffix : string) : endsWith (a ++ suffix) suffix = true.
Proof.
  induction a as [|c a IH]; simpl.
  - destruct suffix; simpl; rewrite ?String.eqb_refl, ?Ascii.eqb_refl; reflexivity.
  - rewrite IH. apply orb_true_r.
Qed.

Lemma is_branch_file_name (v : branch_view number) :
  view_id v <> "index"%string -> is_branch_file (file_name v) = true.
Proof.
  intros Hne. unfold is_branch_file, file_name. rewrite endsWith_app. simpl.
  destruct (String.eqb_spec (view_id v ++ ".json") "index.json") as [Heq|_];
    [|reflexivity].
  exfalso. apply Hne. apply (string_app_inj_r _ "index" ".json"), Heq.
Qed.

(** *** Registering branches of different ids *)

Import Manager.

Lemma register_fresh (b : value number) (m : store number) :
  Forall (fun x => same_id x b = false) m -> register b m = m ++ [b].
Proof.
  induction 1 as [|x m Hx _ IH]; [reflexivity|].
  simpl. rewrite Hx, IH. reflexivity.
Qed.

Lemma same_id_false (x b : value number) idx idb :
  branch_id x = Some idx -> branch_id b = Some idb -> idx <> idb ->
  same_id x b = false.
Proof.
  intros Hx Hb Hne. unfold same_id. rewrite Hx, Hb.
  destruct (String.eqb_spec idx idb); [contradiction|reflexivity].
Qed.

Lemma register_all (bs : list (value number)) ids : forall (m : store number) ids0,
  Forall2 (fun b id => branch_id b = Some id) m ids0 ->
  Forall2 (fun b id => branch_id b = Some id) bs ids ->
  NoDup (ids0 ++ ids) ->
  foldl (fun m b => register b m) m bs = m ++ bs.
Proof.
  revert ids. induction bs as [|b bs IH]; intros ids m ids0 Hm Hbs Hnodup.
  - rewrite app_nil_r. reflexivity.
  - apply Forall2_cons_inv_l in Hbs as (id & ids' & Hb & Hbs & ->).
    simpl. rewrite register_fresh.
    + rewrite (IH ids' (m ++ [b]) (ids0 ++ [id])).
      * rewrite <- app_assoc. reflexivity.
      * apply Forall2_app; [exact Hm|]. constructor; [exact Hb|constructor].
      * exact Hbs.
      * rewrite <- app_assoc. exact Hnodup.
    + apply NoDup_app in Hnodup as (_ & Hdisjoint & _).
      clear -Hm Hb Hdisjoint.
      induction Hm as [|x id0 m ids0 Hx _ IHm]; constructor.
      * eapply same_id_false; [exact Hx|exact Hb|].
        intros ->. apply (Hdisjoint id); [left|left].
      * apply IHm. intros i Hi. apply Hdisjoint. right. exact Hi.
Qed.

Lemma id_of_member (bs : list (value number)) ids b id :
  Forall2 (fun b id => branch_id b = Some id) bs ids ->
  b ∈ bs -> branch_id b = Some id -> id ∈ ids.
Proof.
  induction 1 as [|y idy bs ids Hy _ IH]; intros Hin Hb.
  - apply elem_of_nil in Hin. destruct Hin.
  - apply elem_of_cons in Hin as [->|Hin].
    + rewrite Hb in Hy. injection Hy as ->. left.
    + right. apply IH; assumption.
Qed.

Lemma getBranch_found (bs : list (value number)) ids b id :
  Forall2 (fun b id => branch_id b = Some id) bs ids -> NoDup ids ->
  b ∈ bs -> branch_id b = Some id -> getBranch id bs = Some b.
Proof.
  intros Hall. revert b id.
  induction Hall as [|x idx bs ids Hx Hall IH]; intros b id Hnodup Hin Hb.
  - apply elem_of_nil in Hin. destruct Hin.
  - apply NoDup_cons in Hnodup as [Hfresh Hnodup].
    unfold getBranch. simpl.
    apply elem_of_cons in Hin as [->|Hin].
    + rewrite bool_decide_eq_true_2 by exact Hb. reflexivity.
    + rewrite bool_decide_eq_false_2; [apply (IH b id Hnodup Hin Hb)|].
      rewrite Hx. intros [= ->]. apply Hfresh.
      apply (id_of_member bs ids b id Hall Hin Hb).
Qed.

(** *** A load on a disk without faults *)

(** The branches that the loop of [loadState] registers for the entries
    [names], in their order. *)
Definition loaded_all (d : gmap string (file number)) (names : list string)
  : list (value number) :=
  omap (fun name => if is_branch_file name then loaded d name else None) names.

Lemma omap_cons {A B} (f : A -> option B) x xs :
  omap f (x :: xs) = match f x with
                     | Some y => y :: omap f xs
                     | None => omap f xs
                     end.
Proof. reflexivity. Qed.

Lemma load_loop_ok (d : gmap string (file number)) names :
  forall w : world number (store number),
  disk w = Some d -> faults w = [] ->
  (forall name, name ∈ names -> is_branch_file name = true -> is_Some (loaded d name)) ->
  exists w',
    for_of names load_file w = (inr tt, w')
    /\ manager w' = foldl (fun m b => register b m) (manager w) (loaded_all d names)
    /\ disk w' = Some d /\ faults w' = [].
Proof.
  induction names as [|name names IH]; intros w Hdisk Hfaults Hok.
  - exists w. repeat split; assumption.
  - simpl for_of. cbv [mbind prog_bind bind]. unfold loaded_all.
    rewrite omap_cons. fold (loaded_all d names).
    unfold load_file at 1. destruct (is_branch_file name) eqn:Hname.
    + destruct (Hok name) as (b & Hb); [left|exact Hname|].
      rewrite Hb. unfold loaded in Hb.
      destruct (d !! name) as [f|] eqn:Hf; [|discriminate].
      destruct (JSON_parse f) as [|parsed] eqn:Hparse; [discriminate|].
      destruct (rehydrate parsed) as [|b'] eqn:Hre; [discriminate|].
      injection Hb as ->.
      cbv [mbind prog_bind bind lift fs_readFile fs_call core].
      rewrite Hfaults. simpl. rewrite Hdisk. simpl. rewrite Hf, Hparse, Hre. simpl.
      match goal with
      | |- context [for_of names load_file ?w1] =>
          destruct (IH w1) as (w' & Hrun & Hm & Hd & Hfa)
      end; [exact Hdisk|reflexivity| |].
      { intros n Hn. apply Hok. right. exact Hn. }
      exists w'. rewrite Hrun. repeat split; assumption.
    + cbv [mret prog_ret ret].
      destruct (IH w Hdisk Hfaults) as (w' & Hrun & Hm & Hd & Hfa).
      { intros n Hn. apply Hok. right. exact Hn. }
      exists w'. rewrite Hrun. repeat split; assumption.
Qed.

Lemma loaded_all_filter (d : gmap string (file number)) names :
  loaded_all d names
  = omap (loaded d) (filter (fun n => is_branch_file n = true) names).
Proof.
  unfold loaded_all. induction names as [|name names IH]; [reflexivity|].
  rewrite filter_cons, omap_cons, IH. destruct (is_branch_file name).
  - rewrite decide_True by reflexivity. rewrite omap_cons. reflexivity.
  - rewrite decide_False by discriminate. reflexivity.
Qed.

(** *** Saving, then loading in a new process *)

Lemma store_branches (m : store number) :
  map (fun r => branch_at r m) (seq 0 (List.length m)) = m.
Proof.
  apply list_eq. intros i.
  change (map (fun r => branch_at r m) (seq 0 (List.length m)))
    with ((fun r => branch_at r m) <$> seq 0 (List.length m)).
  rewrite list_lookup_fmap.
  destruct (decide (i < List.length m)%nat) as [Hlt|Hge].
  - rewrite lookup_seq_lt by exact Hlt. simpl.
    destruct (lookup_lt_is_Some_2 m i Hlt) as (x & Hx).
    unfold branch_at. simpl. unfold ref, store. rewrite Hx. reflexivity.
  - rewrite lookup_seq_ge by lia. symmetry. apply lookup_ge_None. lia.
Qed.

Definition the_id (b : value number) : string := default ""%string (branch_id b).

Lemma has_view_id b (v : branch_view number) :
  has_view b v -> branch_id b = Some (view_id v).
Proof. intros (Hid & _). unfold branch_id. rewrite Hid. reflexivity. Qed.

Lemma views_ids bs (vs : list (branch_view number)) :
  Forall2 has_view bs vs ->
  Forall (fun b => branch_id b = Some (the_id b)) bs
  /\ map the_id bs = map view_id vs.
Proof.
  induction 1 as [|b v bs vs Hview _ [IH1 IH2]]; [split; [constructor|reflexivity]|].
  apply has_view_id in Hview. split.
  - constructor; [|exact IH1]. unfold the_id. rewrite Hview. reflexivity.
  - simpl. rewrite IH2. unfold the_id. rewrite Hview. reflexivity.
Qed.

Lemma ids_Forall2 (bs : list (value number)) :
  Forall (fun b => branch_id b = Some (the_id b)) bs ->
  Forall2 (fun b id => branch_id b = Some id) bs (map the_id bs).
Proof. induction 1; constructor; assumption. Qed.

Lemma zip_member {A B} (R : A -> B -> Prop) xs ys y :
  Forall2 R xs ys -> y ∈ ys -> exists x, (x, y) ∈ zip xs ys.
Proof.
  induction 1 as [|x y' xs ys _ _ IH]; intros Hin.
  - apply elem_of_nil in Hin. destruct Hin.
  - apply elem_of_cons in Hin as [->|Hin].
    + exists x. left.
    + destruct (IH Hin) as (x' & Hx'). exists x'. right. exact Hx'.
Qed.

Lemma omap_files (d : gmap string (file number)) bs (vs : list (branch_view number)) :
  Forall2 has_view bs vs ->
  (forall b v, (b, v) ∈ zip bs vs -> loaded d (file_name v) = Some b) ->
  omap (loaded d) (map file_name vs) = bs.
Proof.
  induction 1 as [|b v bs vs _ _ IH]; intros Hloaded; [reflexivity|].
  simpl map. rewrite omap_cons, (Hloaded b v) by left.
  rewrite IH; [reflexivity|]. intros b' v' Hin. apply Hloaded. right. exact Hin.
Qed.

Lemma store_files (m : store number) (vs : list (branch_view number)) :
  branch_files m (seq 0 (List.length m)) vs
  = zip_with (fun b v => (file_name v, JSON_stringify b)) m vs.
Proof.
  unfold branch_files.
  transitivity (zip_with (fun b v => (file_name v, JSON_stringify b))
                  ((fun r => branch_at r m) <$> seq 0 (List.length m)) vs).
  - rewrite zip_with_fmap_l. reflexivity.
  - change ((fun r => branch_at r m) <$> seq 0 (List.length m))
      with (map (fun r => branch_at r m) (seq 0 (List.length m))).
    rewrite store_branches. reflexivity.
Qed.

(** The round trip.  Branches as the manager holds them, of pairwise
    different ids that hold no path separator and none of which is
    "index", are saved into a storage
    directory that holds no other branch file; a new process on that disk,
    without faults, loads them: [loadState] returns, the manager holds the
    saved branches and no other, and each is found under its id as it
    was, its thoughts in their order with their timestamps as dates. *)
Theorem save_then_load_restores (w w1 w2 : world number (store number))
    (vs : list (branch_view number)) :
  saveState w = (inr tt, w1) ->
  Forall2 has_view (manager w) vs ->
  NoDup (map view_id vs) ->
  "index"%string ∉ map view_id vs ->
  Forall stored_branch (manager w) ->
  Forall (fun v => plain_name (file_name v) = true) vs ->
  (forall name, is_branch_file name = true ->
     is_Some (default ∅ (disk w) !! name) -> name ∈ map file_name vs) ->
  manager w2 = [] -> disk w2 = disk w1 -> faults w2 = [] ->
  exists w3,
    loadState w2 = (inr tt, w3)
    /\ manager w3 ≡ₚ manager w
    /\ (forall b v, (b, v) ∈ zip (manager w) vs ->
          getBranch (view_id v) (manager w3) = Some b).
Proof.
  intros Hsave Hviews Hnodup Hindex Hstored Hplain Hforeign Hempty Hdisk2 Hfaults2.
  set (bs := manager w) in *.
  assert (Hlen : List.length bs = List.length vs) by apply (Forall2_length _ _ _ Hviews).
  pose proof (file_names_NoDup vs Hnodup) as Hnames.
  (* the disk after the save *)
  assert (Hd1 : exists d1, disk w1 = Some d1
            /\ (forall b v, (b, v) ∈ zip bs vs ->
                  d1 !! file_name v = Some (JSON_stringify b))
            /\ (forall name, is_branch_file name = true -> is_Some (d1 !! name) ->
                  name ∈ map file_name vs)).
  { eexists. split.
    - apply (saveState_disk w w1 (seq 0 (List.length bs)) bs vs Hsave eq_refl);
        [|exact Hplain].
      rewrite store_branches. exact Hviews.
    - rewrite store_files.
      assert (Hkeys : (zip_with (fun b v => (file_name v, JSON_stringify b)) bs vs).*1
                      = map file_name vs).
      { rewrite <- store_files. apply branch_files_names.
        rewrite length_seq. exact Hlen. }
      split.
      + intros b v Hin. rewrite lookup_insert_ne.
        2:{ intros Heq. apply Hindex.
            symmetry in Heq. apply file_name_index in Heq.
            rewrite <- Heq. apply (list_elem_of_fmap_2 view_id).
            apply elem_of_zip_r in Hin. exact Hin. }
        apply write_all_written; [rewrite Hkeys; exact Hnames|].
        rewrite zip_with_zip.
        apply (list_elem_of_fmap_2
                 (uncurry (fun b v => (file_name v, JSON_stringify b))) _ (b, v)), Hin.
      + intros name Hname Hsome.
        destruct (decide (name = "index.json"%string)) as [->|Hne]; [discriminate Hname|].
        rewrite lookup_insert_ne in Hsome by congruence.
        destruct (decide (name ∈ map file_name vs)) as [Hin|Hnot]; [exact Hin|].
        rewrite write_all_other in Hsome by (rewrite Hkeys; exact Hnot).
        apply Hforeign; assumption. }
  destruct Hd1 as (d1 & Hd1 & Hfile & Hother).
  (* what the loop makes of each file *)
  assert (Hloaded : forall b v, (b, v) ∈ zip bs vs -> loaded d1 (file_name v) = Some b).
  { intros b v Hin. unfold loaded. rewrite (Hfile b v Hin).
    destruct (branch_roundtrip b) as (parsed & -> & ->); [|reflexivity].
    rewrite Forall_forall in Hstored. apply Hstored.
    apply elem_of_zip_l in Hin. exact Hin. }
  set (names := (map_to_list d1).*1).
  assert (Hperm : filter (fun n => is_branch_file n = true) names ≡ₚ map file_name vs).
  { apply NoDup_Permutation.
    - apply NoDup_filter, NoDup_fst_map_to_list.
    - exact Hnames.
    - intros name. rewrite list_elem_of_filter. subst names. split.
      + intros [Hname Hin]. apply Hother; [exact Hname|].
        apply list_elem_of_fmap in Hin as ([n f] & -> & Hin).
        apply elem_of_map_to_list in Hin. simpl. eauto.
      + intros Hin. 
        change (map file_name vs) with (file_name <$> vs) in Hin.
        apply list_elem_of_fmap in Hin as (v & -> & Hv).
        destruct (zip_member _ _ _ v Hviews Hv) as (b & Hin).
        split.
        * apply is_branch_file_name. intros Heq. apply Hindex.
          rewrite <- Heq. apply (list_elem_of_fmap_2 view_id), Hv.
        * apply list_elem_of_fmap. exists (file_name v, JSON_stringify b).
          split; [reflexivity|]. apply elem_of_map_to_list, Hfile, Hin. }
  (* the load *)
  assert (Hok : forall name, name ∈ names -> is_branch_file name = true ->
                  is_Some (loaded d1 name)).
  { intros name Hin Hname.
    assert (Hfiltered : name ∈ filter (fun n => is_branch_file n = true) names)
      by (apply list_elem_of_filter; auto).
    rewrite Hperm in Hfiltered.
    change (map file_name vs) with (file_name <$> vs) in Hfiltered.
    apply list_elem_of_fmap in Hfiltered as (v & -> & Hv).
    destruct (zip_member _ _ _ v Hviews Hv) as (b & Hb).
    rewrite (Hloaded b v Hb). eauto. }
  rewrite Hd1 in Hdisk2.
  set (w2' := with_faults [] (with_faults [] w2)).
  destruct (load_loop_ok d1 names w2' Hdisk2 eq_refl Hok)
    as (w3 & Hloop & Hmanager & _ & _).
  exists w3.
  assert (Hrun : loadState w2 = (inr tt, w3)).
  { unfold loadState, try_catch, load_body, ensureStorageDir, try_catch.
    cbv [mbind prog_bind bind fs_access fs_readdir fs_call].
    rewrite Hfaults2. simpl. rewrite Hdisk2. simpl. rewrite Hdisk2.
    cbv beta iota zeta. change (map fst (map_to_list d1)) with names.
    fold w2'. rewrite Hloop. reflexivity. }
  assert (Hall : loaded_all d1 names ≡ₚ bs).
  { rewrite loaded_all_filter, Hperm. rewrite (omap_files d1 bs vs Hviews Hloaded).
    reflexivity. }
  destruct (views_ids bs vs Hviews) as [Hids Hidmap].
  assert (Hm3 : manager w3 = loaded_all d1 names).
  { rewrite Hmanager. simpl. rewrite Hempty.
    apply (register_all (loaded_all d1 names) (map the_id (loaded_all d1 names)) [] []).
    - constructor.
    - apply ids_Forall2. rewrite Hall. exact Hids.
    - simpl. 
      change (map the_id (loaded_all d1 names)) with (the_id <$> loaded_all d1 names).
      rewrite Hall. change (NoDup (map the_id bs)). rewrite Hidmap. exact Hnodup. }
  split; [exact Hrun|]. split; [rewrite Hm3; exact Hall|].
  intros b v Hin. rewrite Hm3.
  apply (getBranch_found _ (map the_id (loaded_all d1 names))).
  - apply ids_Forall2. rewrite Hall. exact Hids.
  - change (map the_id (loaded_all d1 names)) with (the_id <$> loaded_all d1 names).
    rewrite Hall. change (NoDup (map the_id bs)). rewrite Hidmap. exact Hnodup.
  - rewrite Hall. apply elem_of_zip_l in Hin. exact Hin.
  - apply has_view_id.
    clear -Hviews Hin. induction Hviews as [|b' v' bs vs Hview _ IH].
    + apply elem_of_nil in Hin. destruct Hin.
    + apply elem_of_cons in Hin as [[= -> ->]|Hin]; [exact Hview|apply IH, Hin].
Qed.

End RoundTrip.
End RoundTrip.

(** ** The server on examples *)

Module ServerExamples.
Import Js Prog Server Desk Brittle ServerFacts.
#[local] Open Scope list_scope.

Lemma truthy_command_is_dispatched_witness :
  (get command_with_content "command" = inr list_command
   /\ truthy list_command = true)
  /\ processThought command_with_content fresh = handleCommand list_command fresh
  /\ exists log,
       calls (processThought command_with_content fresh).2 = calls fresh ++ log
       /\ Forall (fun ce => is_addThought ce.1 = false) log.
Proof.
  split; [split; reflexivity|].
  apply (truthy_command_is_dispatched command_with_content list_command fresh);
    reflexivity.
Defined.

(** C8, as stated, fails: a payload with a [command] property that is the
    empty string is a thought, and [addThought] is called on it. *)
Lemma command_field_can_reach_addThought :
  ~ (forall input : value Z,
       has_field "command" input = true ->
       Forall (fun ce => is_addThought ce.1 = false)
         (calls (processThought input fresh).2)).
Proof.
  intros Hclaim.
  specialize (Hclaim thought_with_empty_command eq_refl).
  vm_compute in Hclaim.
  apply Forall_cons in Hclaim as [Hhead _]. discriminate Hhead.
Qed.



Example active_branch_without_id :
  handleCommand history_command unnamed_branch
  = (inr (failure_response
            (ErrorObj "No active branch and no branchId provided") None),
     {| branchManager := branchManager unnamed_branch; console := [];
        calls := [(CallGetActiveBranch, None)] |}).
Proof. reflexivity. Qed.

(** With an active branch, the history is that branch's. *)
Example history_of_the_active_branch :
  handleCommand history_command (one_branch 1)
  = (inr (reply (Plain "Investigate latency spike")),
     {| branchManager := branchManager (one_branch 1); console := [];
        calls := [(CallGetActiveBranch, None);
                  (CallGetBranch (VStr "b1"), None);
                  (CallGetBranchHistory (VStr "b1"), None)] |}).
Proof. reflexivity. Qed.

Lemma list_reports_id_state_and_focus_witness :
  (get list_command "type" = inr (VStr "list")
   /\ getAllBranches (branchManager (one_branch 1))
      = (inr (branches (branchManager (one_branch 1))), branchManager (one_branch 1))
   /\ getActiveBranch (branchManager (one_branch 1))
      = (inr (head (branches (branchManager (one_branch 1)))),
         branchManager (one_branch 1)))
  /\ (handleCommand list_command (one_branch 1)).1
     = inr (reply (Plain
         ("Current Branches:" ++ nl ++ chalk_green "→"
          ++ " b1 [active] - Investigate latency spike...")%string)).
Proof.
  split; [repeat split|].
  apply (list_reports_id_state_and_focus list_command (one_branch 1)
           (branches (branchManager (one_branch 1))) (branchManager (one_branch 1))
           (head (branches (branchManager (one_branch 1))))
           (branchManager (one_branch 1))); reflexivity.
Defined.

(** C7, as stated, fails: two managers whose only branch differs in
    priority get the same answer to [list], so the answer does not tell
    the priority. *)
Lemma list_does_not_report_priority :
  map branch_priority (branches (branchManager (one_branch 1)))
  <> map branch_priority (branches (branchManager (one_branch 9)))
  /\ (handleCommand list_command (one_branch 1)).1
     = (handleCommand list_command (one_branch 9)).1.
Proof. split; [discriminate|reflexivity]. Qed.


(** A rejected thought, a focus on an unknown branch and an unknown command
    all come back as failures. *)
Example rejected_thought :
  (processThought (VObj [("content", VStr "no type")]) fresh).1
  = inr (failure_response (ErrorObj "content and type are required") (Some true)).
Proof. reflexivity. Qed.

Example focus_on_unknown_branch :
  (processThought
     (VObj [("command", VObj [("type", VStr "focus"); ("branchId", VStr "nope")])])
     fresh).1
  = inr (failure_response (ErrorObj "Branch nope not found") None).
Proof. reflexivity. Qed.

(** A command whose [type] has no string form fails on the message of
    the error it was to be named in. *)
Example unknown_command_without_string_form :
  (processThought
     (VObj [("command", VObj [("type", VObj [("toString", VNum 1)])])]) fresh).1
  = inr (failure_response (ErrorObj "Cannot convert object to primitive value") None).
Proof. reflexivity. Qed.

Example unknown_command :
  (processThought (VObj [("command", VObj [("type", VStr "merge")])]) fresh).1
  = inr (failure_response (ErrorObj "Unknown command: merge") None).
Proof. reflexivity. Qed.

Example missing_arguments :
  (processThought VUndefined fresh).1
  = inr (failure_response
           (ErrorObj "Cannot read properties of undefined (reading 'command')")
           (Some true)).
Proof. reflexivity. Qed.

End ServerExamples.

(** ** The persistence manager on examples *)

Module PersistenceExamples.
Import Js Prog Persistence Manager Fixture PersistenceFacts.
#[local] Open Scope list_scope.

(** C1 fails on a branch whose id is "index": its file is [index.json],
    which the index then replaces and which [loadState] skips.  Saved next
    to the branch [b1] and loaded by a new process, [b1] is handed to
    [reconstructBranch] and is back as it was; the branch "index" is
    handed to nothing and is gone. *)
Theorem branch_named_index_is_not_restored :
  let b1 := branch "b1" [first_thought "b1"] in
  let lost := branch "index" [first_thought "index"] in
  let saved := saveState (process 1730512900000 [b1; lost]) in
  let loaded := loadState (restart saved.2) in
  saved.1 = inr tt
  /\ loaded.1 = inr tt
  /\ calls loaded.2 = [CallReconstructBranch b1]
  /\ manager loaded.2 = [b1]
  /\ getBranch "b1" (manager loaded.2) = Some b1
  /\ getBranch "index" (manager loaded.2) = None.
Proof. vm_compute. repeat split. Qed.

(** With other ids the round trip holds. *)
Lemma fixture_thought_stored id branchId content time :
  IsoDate.in_range time = true -> stored_thought (thought id branchId content time).
Proof.
  intros Hrange. eexists _, time. split; [reflexivity|].
  split; [compute_done|]. split; [reflexivity|]. split; [exact Hrange|].
  repeat constructor; simpl; congruence.
Qed.

Lemma fixture_branch_stored id thoughts :
  Forall stored_thought thoughts -> stored_branch (branch id thoughts).
Proof.
  intros Hthoughts. eexists _, thoughts. split; [reflexivity|].
  split; [compute_done|]. split; [reflexivity|]. split; [exact Hthoughts|].
  repeat constructor; simpl; congruence.
Qed.

(** The two branches of the fixture come back from the disk. *)
Example two_branches_are_restored :
  exists w3,
    loadState (restart saved_two) = (inr tt, w3)
    /\ manager w3 ≡ₚ two_branches
    /\ (forall b v, (b, v) ∈ zip two_branches two_views ->
          getBranch (view_id v) (manager w3) = Some b).
Proof.
  apply (RoundTrip.save_then_load_restores
           (process 1730512900000 two_branches) saved_two (restart saved_two) two_views).
  - vm_compute. reflexivity.
  - repeat constructor.
  - compute_done.
  - compute_done.
  - repeat constructor; apply fixture_branch_stored;
      repeat constructor; apply fixture_thought_stored; reflexivity.
  - repeat constructor.
  - intros name _ [f Hf]. simpl in Hf. rewrite lookup_empty in Hf. discriminate.
  - reflexivity.
  - reflexivity.
  - reflexivity.
Qed.

Lemma at_most_one_autosave_timer_witness :
  let w0 := process 0 [] in
  let w := autosave_calls [Enable 1000; Enable 2000; Disable; Enable 500] w0 in
  (autoSaveInterval w0 = None
   /\ (forall t, (next_timer w0 <= t)%nat -> timers w0 !! t = None))
  /\ (forall t, (next_timer w0 <= t)%nat ->
        is_Some (timers w !! t) <-> autoSaveInterval w = Some t)
  /\ (forall t1 t2, (next_timer w0 <= t1)%nat -> (next_timer w0 <= t2)%nat ->
        is_Some (timers w !! t1) -> is_Some (timers w !! t2) -> t1 = t2)
  /\ (forall t, (t < next_timer w0)%nat -> timers w !! t = timers w0 !! t).
Proof.
  split; [split; [reflexivity|intros t _; reflexivity]|].
  apply (at_most_one_autosave_timer (process 0 [])
           [Enable 1000; Enable 2000; Disable; Enable 500]).
  - reflexivity.
  - intros t _. reflexivity.
Defined.

Example timers_after_calls :
  let w := autosave_calls [Enable 1000; Enable 2000; Disable; Enable 500] (process 0 []) in
  map_to_list (timers w) = [(2%nat, 500)] /\ autoSaveInterval w = Some 2%nat.
Proof. vm_compute. split; reflexivity. Qed.

Lemma load_failure_is_fatal_save_failure_is_not_witness :
  ((forall w : world Z (store Z), Manager.initialize w = loadState w)
   /\ tail (faults readdir_fails) = [true]
   /\ timers save_fails !! 0%nat = Some 1000
   /\ saveState save_fails
      = (inl (io_error "EIO: i/o error"), (saveState save_fails).2))
  /\ (loadState readdir_fails).1 = inl (ErrorObj "Failed to load persisted state")
  /\ (exists s, Server.runServer readdir_fails Manager.initialize (mret tt)
                = Server.Exited 1 s)
  /\ (fire 0%nat save_fails).1 = inr tt
  /\ console (fire 0%nat save_fails).2 = ["Auto-save failed: EIO: i/o error"%string]
  /\ timers (fire 0%nat save_fails).2 !! 0%nat = Some 1000.
Proof.
  split; [repeat split|].
  destruct (load_failure_is_fatal_save_failure_is_not (number:=Z) (M:=store Z)
              Manager.initialize (fun w => eq_refl))
    as (Hload & _ & Hsave).
  destruct (Hload readdir_fails (loadState readdir_fails).1
              (loadState readdir_fails).2 (mret tt) (surjective_pairing _))
    as (used & Hused & Hfatal).
  assert (Hleft : faults (loadState readdir_fails).2 = [])
    by (vm_compute; reflexivity).
  rewrite Hleft, app_nil_r in Hused. cbn in Hused. subst used.
  destruct (Hfatal (list_elem_of_here true [])) as [Hl Hrun].
  destruct (Hsave save_fails 0%nat 1000 (io_error "EIO: i/o error")
              (saveState save_fails).2 eq_refl eq_refl) as (Hfire & Htimer & _).
  split; [exact Hl|].
  split; [eexists; exact Hrun|].
  rewrite Hfire. split; [reflexivity|]. split; [reflexivity|exact Htimer].
Defined.

(** C3, as stated, fails: a failing [fs.access] is an I/O failure during
    [loadState], and the load goes on. *)
Lemma a_failing_access_is_not_fatal :
  ~ (forall w : world Z (store Z),
       head (faults w) = Some true ->
       (loadState w).1 = inl (ErrorObj "Failed to load persisted state")).
Proof.
  intros Hclaim.
  specialize (Hclaim (with_faults [true] (restart saved_two)) eq_refl).
  vm_compute in Hclaim. discriminate Hclaim.
Qed.

(** After that failure the two saved branches are loaded all the same. *)
Example load_after_a_failing_access :
  let loaded := loadState (with_faults [true] (restart saved_two)) in
  loaded.1 = inr tt /\ manager loaded.2 = two_branches /\ console loaded.2 = [].
Proof. vm_compute. repeat split. Qed.

Lemma saveState_files_witness :
  (saveState (process 1730512900000 two_branches) = (inr tt, saved_two)
   /\ getAllBranches two_branches = (inr [0%nat; 1%nat], two_branches)
   /\ Forall2 has_view (map (fun r => branch_at r two_branches) [0%nat; 1%nat]) two_views
   /\ NoDup (map view_id two_views)
   /\ ("index"%string ∉ map view_id two_views)
   /\ Forall (fun v => plain_name (file_name v) = true) two_views)
  /\ exists d',
       disk saved_two = Some d'
       /\ NoDup (map file_name two_views)
       /\ (forall r v, (r, v) ∈ zip [0%nat; 1%nat] two_views ->
             d' !! file_name v = Some (JSON_stringify (branch_at r two_branches)))
       /\ d' !! "index.json"
          = Some (JSON_stringify (VArr (map (entry_of_view 1730512900000) two_views)))
       /\ (forall name, name ∉ map file_name two_views -> name <> "index.json"%string ->
             d' !! name = default ∅ (disk (process 1730512900000 two_branches)) !! name).
Proof.
  assert (Hsave : saveState (process 1730512900000 two_branches) = (inr tt, saved_two))
    by (vm_compute; reflexivity).
  assert (Hviews : Forall2 has_view
            (map (fun r => branch_at r two_branches) [0%nat; 1%nat]) two_views).
  { repeat constructor. }
  assert (Hnodup : NoDup (map view_id two_views))
    by compute_done.
  assert (Hindex : "index"%string ∉ map view_id two_views)
    by compute_done.
  assert (Hplain : Forall (fun v => plain_name (file_name v) = true) two_views).
  { repeat constructor. }
  split;
    [exact (conj Hsave (conj eq_refl (conj Hviews (conj Hnodup (conj Hindex Hplain)))))|].
  apply (saveState_files (process 1730512900000 two_branches) saved_two
           [0%nat; 1%nat] two_branches two_views Hsave eq_refl Hviews Hnodup Hindex
           Hplain).
Defined.

(** Ids with a path separator: [./b1] names the file of [b1], and the
    later branch replaces the earlier; [../escaped] names a file outside
    the storage directory, which no load reads. *)
Example ids_that_name_one_file :
  let saved :=
    saveState (process 1730512900000
                 [branch "b1" [first_thought "b1"]; branch "./b1" []]) in
  saved.1 = inr tt
  /\ size <$> disk saved.2 = Some 2%nat
  /\ disk saved.2 ≫= (.!! "b1.json") = Some (JSON_stringify (branch "./b1" []))
  /\ is_Some (disk saved.2 ≫= (.!! "index.json")).
Proof. vm_compute. repeat split. eexists. reflexivity. Qed.

Example an_id_that_leaves_the_directory :
  let saved :=
    saveState (process 1730512900000 [branch "../escaped" [first_thought "x"]]) in
  let loaded := loadState (restart saved.2) in
  saved.1 = inr tt
  /\ size <$> disk saved.2 = Some 1%nat
  /\ is_Some (disk saved.2 ≫= (.!! "index.json"))
  /\ loaded.1 = inr tt /\ manager loaded.2 = [].
Proof. vm_compute. repeat split. eexists. reflexivity. Qed.

(** The index of that save, as it is on the disk. *)
Example index_of_two_branches :
  disk saved_two ≫= (.!! "index.json")
  = Some (Doc (JArr
      [JObj [("id", JStr "b1"); ("state", JStr "active"); ("priority", JNum 1);
             ("thoughtCount", JNum 2);
             ("lastUpdated", JStr "2024-11-02T02:01:00.456Z")];
       JObj [("id", JStr "b2"); ("state", JStr "active"); ("priority", JNum 1);
             ("thoughtCount", JNum 0);
             ("lastUpdated", JStr "2024-11-02T02:01:40.000Z")]])).
Proof. vm_compute. reflexivity. Qed.

(** C4, as stated, fails on a branch without thoughts: there is no latest
    thought, and [lastUpdated] is the time of the save. *)
Lemma lastUpdated_of_a_branch_without_thoughts :
  let b2 := branch "b2" [] in
  let saved := saveState (process 1730512900000 [b2]) in
  get b2 "thoughts" = inr (VArr [])
  /\ saved.1 = inr tt
  /\ disk saved.2 ≫= (.!! "index.json")
     = Some (Doc (JArr
         [JObj [("id", JStr "b2"); ("state", JStr "active"); ("priority", JNum 1);
                ("thoughtCount", JNum 0);
                ("lastUpdated", JStr (IsoDate.toISOString 1730512900000))]])).
Proof. vm_compute. repeat split. Qed.

(** The save settles with a file of [b1] that holds one thought and an
    index that counts two. *)
Example interleaved_save_is_inconsistent :
  let '(t, w) := run interleaved (start (process 1730512900000 single_branch)) in
  t = Settled (inr tt)
  /\ thoughts_of (disk w ≫= (.!! "b1.json")) = Some 1%nat
  /\ count_of (disk w ≫= (.!! "index.json")) = Some (JNum 2).
Proof. vm_compute. repeat split. Qed.

(** A request handled while the save still waits for [fs.access] is
    saved in full: the branches are listed after that wait. *)
Example request_before_the_listing :
  let events := Request (push_thought 0%nat (second_thought "b1")) :: replicate 4 Resume in
  let '(t, w) := run events (start (process 1730512900000 single_branch)) in
  t = Settled (inr tt)
  /\ thoughts_of (disk w ≫= (.!! "b1.json")) = Some 2%nat
  /\ count_of (disk w ≫= (.!! "index.json")) = Some (JNum 2).
Proof. vm_compute. repeat split. Qed.

(** C6, as stated, fails: a save does not write the branches as they were
    when it was called if a request is handled while it waits. *)
Lemma a_request_shows_in_a_running_save :
  ~ (forall (events : list (event (store Z))) w w',
       run events (start w) = (Settled (inr tt), w') ->
       disk w' = disk (saveState w).2).
Proof.
  intros Hclaim.
  assert (Hrun : run interleaved (start (process 1730512900000 single_branch))
                 = (Settled (inr tt),
                    (run interleaved (start (process 1730512900000 single_branch))).2))
    by (vm_compute; reflexivity).
  apply Hclaim in Hrun.
  apply (f_equal (fun d => count_of (d ≫= (.!! "index.json")))) in Hrun.
  vm_compute in Hrun. discriminate Hrun.
Qed.

Lemma persistence_calls_on_the_manager_witness :
  let w := restart saved_two in
  loadState w = (inr tt, (loadState w).2)
  /\ exists d branches,
       disk (loadState w).2 = Some d
       /\ Forall2 (loaded_from d)
            (filter (fun n => is_branch_file n = true) (map_to_list d).*1) branches
       /\ calls (loadState w).2 = calls w ++ map CallReconstructBranch branches.
Proof.
  assert (Hload : loadState (restart saved_two) = (inr tt, (loadState (restart saved_two)).2))
    by (vm_compute; reflexivity).
  split; [exact Hload|].
  exact (proj2 (persistence_calls_on_the_manager (number:=Z) (M:=store Z)) _ _ Hload).
Defined.

(** The calls of that load: the two saved branches, once each. *)
Example calls_of_a_load :
  calls (loadState (restart saved_two)).2
  = [CallReconstructBranch (branch "b1" [first_thought "b1"; second_thought "b1"]);
     CallReconstructBranch (branch "b2" [])].
Proof. vm_compute. reflexivity. Qed.

End PersistenceExamples.

(** ** The server: the handler, the answers and the start *)

Module ServerMore.
Import Js Prog Server Transport.
#[local] Open Scope list_scope.

Section ServerMore.
Context {number : Type} `{JsHost number} {M : Type} `{BranchManager number M}.

Implicit Types (s : server number M) (e : exn number) (r : response number).

(** Runs the next call on the branch manager, in both of its outcomes. *)
Ltac next_call :=
  match goal with
  | |- context [match ?c with pair _ _ => _ end] =>
      let e := fresh "e" in
      let a := fresh "a" in
      let m := fresh "m" in
      let E := fresh "E" in
      lazymatch c with
      | context [match _ with _ => _ end] => fail
      | _ => destruct c as [[e|a] m] eqn:E; simpl
      end
  end.

Ltac run_prog :=
  cbv [try_catch mbind prog_bind bind mret prog_ret ret lift core
       console_error modify throw fmap prog_fmap read].

(** A command never sets [isError], whether it succeeds or fails. *)
Lemma handleCommand_flag command s :
  exists r s', handleCommand command s = (inr r, s') /\ isError r = None.
Proof.
  unfold handleCommand. run_prog.
  destruct (get command "type") as [e|ty]; simpl; [eauto|].
  destruct (is_str ty "list"); [repeat next_call; eauto|].
  destruct (is_str ty "focus").
  { destruct (get command "branchId") as [e|branchId]; simpl; [eauto|].
    destruct (truthy branchId); simpl; [|eauto].
    repeat next_call; eauto. destruct (template branchId); eauto. }
  destruct (is_str ty "history"); [|destruct (template ty); eauto].
  destruct (get command "branchId") as [e|given]; simpl; [eauto|].
  destruct (truthy given) eqn:Hgiven; simpl.
  { rewrite Hgiven. simpl. repeat next_call; eauto. }
  next_call; [eauto|].
  destruct (truthy (id_of a)); simpl; [repeat next_call; eauto|eauto].
Qed.

(** [processThought] returns on every input. *)
Lemma processThought_answers input s :
  exists r s', processThought input s = (inr r, s').
Proof.
  unfold processThought. run_prog.
  destruct (get input "command") as [e|command]; simpl; [eauto|].
  destruct (truthy command).
  - destruct (handleCommand_flag command s) as (r & s' & -> & _). eauto.
  - next_call; [eauto|]. next_call; [eauto|]. next_call; [eauto|].
    destruct a0; simpl; [next_call|]; eauto.
Qed.

(** X1. The handler for tool calls answers every request.  A request for a
    tool of another name is answered 'Unknown tool: <name>' with [isError]
    set, without a call on the branch manager or a line on the console;
    a request for [branch-thinking] is [processThought] on its arguments. *)
Theorem callTool_answers name arguments s :
  (exists r s', callTool name arguments s = (inr r, s'))
  /\ (name <> "branch-thinking"%string ->
      callTool name arguments s = (inr (unknown_tool name), s))
  /\ (name = "branch-thinking"%string ->
      callTool name arguments s = processThought arguments s).
Proof.
  unfold callTool.
  destruct (String.eqb_spec name "branch-thinking") as [->|Hne].
  - split; [apply processThought_answers|]. split; [contradiction|reflexivity].
  - split; [eexists _, _; reflexivity|]. split; [reflexivity|contradiction].
Qed.

(** X2. A navigation command is never flagged: whatever the command and
    whatever the manager does, the response to an input with a truthy
    [command] has no [isError], also when it reports a failure. *)
Theorem command_responses_are_not_flagged input command s :
  get input "command" = inr command -> truthy command = true ->
  exists r s', processThought input s = (inr r, s') /\ isError r = None.
Proof.
  intros Hget Htruthy. unfold processThought. run_prog.
  rewrite Hget. simpl. rewrite Htruthy.
  destruct (handleCommand_flag command s) as (r & s' & -> & Hflag). eauto.
Qed.

(** A number as [JSON.stringify] writes it. *)
Definition number_doc (n : number) : json number :=
  match num_json n with
  | Some n' => JNum n'
  | None => JNull
  end.

(** X3. The answer to a recorded thought.  When every call on the manager
    returns and the thought's branch is found, the response is the
    document of the thought's id, its branch, the branch's state and
    priority and the numbers of its insights and cross-references,
    followed by [activeBranch] only if a branch is active; the branch
    status has been written to the console, once. *)
Theorem thought_response input command s thought m1 b m2 status m3 active m4 :
  get input "command" = inr command -> truthy command = false ->
  addThought input (branchManager s) = (inr thought, m1) ->
  getBranch (VStr (thought_branchId thought)) m1 = (inr (Some b), m2) ->
  formatBranchStatus (Some b) m2 = (inr status, m3) ->
  getActiveBranch m3 = (inr active, m4) ->
  processThought input s
  = (inr (reply (Pretty (JObj
       ([("thoughtId", JStr (thought_id thought));
         ("branchId", JStr (thought_branchId thought));
         ("branchState", JStr (branch_state b));
         ("branchPriority", number_doc (branch_priority b));
         ("numInsights",
          number_doc (num_of_Z (Z.of_nat (List.length (branch_insights b)))));
         ("numCrossRefs",
          number_doc (num_of_Z (Z.of_nat (List.length (branch_crossRefs b)))))]
        ++ match active with
           | Some a => [("activeBranch", JStr (branch_id a))]
           | None => []
           end)))),
     {| branchManager := m4;
        console := console s ++ [status];
        calls := calls s ++
          [(CallAddThought input, None);
           (CallGetBranch (VStr (thought_branchId thought)), None);
           (CallFormatBranchStatus (Some b), None);
           (CallGetActiveBranch, None)] |}).
Proof.
  intros Hget Hfalsy Hadd Hbranch Hformat Hactive.
  unfold processThought. run_prog. rewrite Hget. simpl. rewrite Hfalsy, Hadd. simpl.
  rewrite Hbranch. simpl. rewrite Hformat. simpl. rewrite Hactive. simpl.
  rewrite <- !app_assoc. simpl. unfold reply, object_json, number_doc. simpl.
  destruct active; reflexivity.
Qed.

(** X4. [processThought] does not undo a thought.  When [addThought] has
    returned and the answer then fails, because [formatBranchStatus]
    throws or because the thought's branch is not found, the response is
    a failure with [isError] set and the manager is left as the calls made
    it, the thought recorded. *)
Theorem thought_is_kept_when_the_answer_fails
    input command s thought m1 found m2 formatted m3 :
  get input "command" = inr command -> truthy command = false ->
  addThought input (branchManager s) = (inr thought, m1) ->
  getBranch (VStr (thought_branchId thought)) m1 = (inr found, m2) ->
  formatBranchStatus found m2 = (formatted, m3) ->
  (forall e, formatted = inl e ->
     processThought input s
     = (inr (failure_response e (Some true)),
        {| branchManager := m3; console := console s;
           calls := calls s ++
             [(CallAddThought input, None);
              (CallGetBranch (VStr (thought_branchId thought)), None);
              (CallFormatBranchStatus found, Some e)] |}))
  /\ (forall status, formatted = inr status -> found = None ->
        processThought input s
        = (inr (failure_response (type_error "undefined" "state") (Some true)),
           {| branchManager := m3; console := console s ++ [status];
              calls := calls s ++
                [(CallAddThought input, None);
                 (CallGetBranch (VStr (thought_branchId thought)), None);
                 (CallFormatBranchStatus None, None)] |})).
Proof.
  intros Hget Hfalsy Hadd Hbranch Hformat. split.
  - intros e ->. unfold processThought. run_prog.
    rewrite Hget. simpl. rewrite Hfalsy, Hadd. simpl. rewrite Hbranch. simpl.
    rewrite Hformat. simpl. rewrite <- !app_assoc. reflexivity.
  - intros status -> ->. unfold processThought. run_prog.
    rewrite Hget. simpl. rewrite Hfalsy, Hadd. simpl. rewrite Hbranch. simpl.
    rewrite Hformat. simpl. rewrite <- !app_assoc. reflexivity.
Qed.

(** X5. The [focus] command.  Without a truthy [branchId] it fails with
    'branchId required for focus command' before any call.  With one, a
    [setActiveBranch] that throws ends the command: the branch is neither
    looked up nor formatted and nothing is logged.  When the three calls
    return, the status is logged and the response names the branch as
    given; a [branchId] that has no string form, which the message
    needs, makes it the failure of that [TypeError] instead, after the
    calls and the log. *)
Theorem focus_outcomes command id s :
  get command "type" = inr (VStr "focus") ->
  get command "branchId" = inr id ->
  (truthy id = false ->
   handleCommand command s
   = (inr (failure_response (ErrorObj "branchId required for focus command") None), s))
  /\ (forall e m1,
        truthy id = true ->
        setActiveBranch id (branchManager s) = (inl e, m1) ->
        handleCommand command s
        = (inr (failure_response e None),
           {| branchManager := m1; console := console s;
              calls := calls s ++ [(CallSetActiveBranch id, Some e)] |}))
  /\ (forall m1 found m2 status m3 doc,
        truthy id = true ->
        setActiveBranch id (branchManager s) = (inr tt, m1) ->
        getBranch id m1 = (inr found, m2) ->
        formatBranchStatus found m2 = (inr status, m3) ->
        to_json id = Some doc ->
        handleCommand command s
        = (inr match template id with
               | inr name =>
                   reply (Pretty (JObj
                     [("status", JStr "success");
                      ("message", JStr ("Now focused on branch: " ++ name)%string);
                      ("activeBranch", doc)]))
               | inl e => failure_response e None
               end,
           {| branchManager := m3; console := console s ++ [status];
              calls := calls s ++
                [(CallSetActiveBranch id, None); (CallGetBranch id, None);
                 (CallFormatBranchStatus found, None)] |})).
Proof.
  intros Hty Hid. repeat split.
  - intros Hfalsy. unfold handleCommand. run_prog.
    rewrite Hty, Hid. simpl. rewrite Hfalsy. reflexivity.
  - intros e m1 Htruthy Hset. unfold handleCommand. run_prog.
    rewrite Hty, Hid. simpl. rewrite Htruthy. simpl. rewrite Hset. reflexivity.
  - intros m1 found m2 status m3 doc Htruthy Hset Hbranch Hformat Hdoc.
    unfold handleCommand. run_prog.
    rewrite Hty, Hid. simpl. rewrite Htruthy. simpl. rewrite Hset. simpl.
    rewrite Hbranch. simpl. rewrite Hformat. simpl.
    rewrite <- !app_assoc. destruct (template id) as [e|name]; [reflexivity|].
    unfold reply, object_json. simpl. rewrite Hdoc.
    reflexivity.
Qed.

(** X6. The [history] command with a truthy [branchId] never asks for the
    active branch: it looks the branch up and asks for its history, and a
    lookup that throws ends it before the history is asked for. *)
Theorem history_with_branchId command id s found m1 :
  get command "type" = inr (VStr "history") ->
  get command "branchId" = inr id -> truthy id = true ->
  getBranch id (branchManager s) = (found, m1) ->
  (forall e, found = inl e ->
     handleCommand command s
     = (inr (failure_response e None),
        {| branchManager := m1; console := console s;
           calls := calls s ++ [(CallGetBranch id, Some e)] |}))
  /\ (forall b history m2, found = inr b ->
        getBranchHistory id m1 = (history, m2) ->
        handleCommand command s
        = (inr (match history with
                | inr text => reply (Plain text)
                | inl e => failure_response e None
                end),
           {| branchManager := m2; console := console s;
              calls := calls s ++ [(CallGetBranch id, None);
                                   (CallGetBranchHistory id, thrown history)] |})).
Proof.
  intros Hty Hid Htruthy Hbranch. split.
  - intros e ->. unfold handleCommand. run_prog.
    rewrite Hty, Hid. simpl. rewrite Htruthy. simpl. rewrite Htruthy. simpl.
    rewrite Hbranch. reflexivity.
  - intros b history m2 -> Hhistory. unfold handleCommand. run_prog.
    rewrite Hty, Hid. simpl. rewrite Htruthy. simpl. rewrite Htruthy. simpl.
    rewrite Hbranch. simpl. rewrite Hhistory. simpl. rewrite <- !app_assoc.
    destruct history; reflexivity.
Qed.

(** X7. What [processThought] writes to the console: nothing, or one line,
    which is then what a call of [formatBranchStatus] returned.  Failures
    are never logged. *)
Theorem console_shows_only_branch_status input s :
  exists r s' lines,
    processThought input s = (inr r, s')
    /\ console s' = console s ++ lines
    /\ (lines = []
        \/ exists status b,
             lines = [status]
             /\ (CallFormatBranchStatus b, None) ∈ calls s'
             /\ exists m m', formatBranchStatus b m = (inr status, m')).
Proof.
  unfold processThought, handleCommand. run_prog.
  destruct (get input "command") as [e|command]; simpl.
  { eexists _, _, []. rewrite app_nil_r. auto. }
  destruct (truthy command); simpl.
  - destruct (get command "type") as [e|ty]; simpl.
    { eexists _, _, []. rewrite app_nil_r. auto. }
    destruct (is_str ty "list").
    { repeat next_call; eexists _, _, []; rewrite app_nil_r; auto. }
    destruct (is_str ty "focus").
    { destruct (get command "branchId") as [e|branchId]; simpl.
      { eexists _, _, []. rewrite app_nil_r. auto. }
      destruct (truthy branchId); simpl.
      2:{ eexists _, _, []. rewrite app_nil_r. auto. }
      next_call; [eexists _, _, []; rewrite app_nil_r; auto|].
      next_call; [eexists _, _, []; rewrite app_nil_r; auto|].
      next_call; [eexists _, _, []; rewrite app_nil_r; auto|].
      destruct (template branchId); simpl.
      all: eexists _, _, [_]; (split; [reflexivity|]); (split; [reflexivity|]).
      all: right; eexists _, _; (split; [reflexivity|]); split; [|eauto].
      all: simpl; rewrite !elem_of_app, !list_elem_of_singleton; auto 10. }
    destruct (is_str ty "history").
    2:{ destruct (template ty); eexists _, _, []; rewrite app_nil_r; auto. }
    destruct (get command "branchId") as [e|given]; simpl.
    { eexists _, _, []. rewrite app_nil_r. auto. }
    destruct (truthy given) eqn:Hgiven; simpl.
    { rewrite Hgiven. simpl.
      repeat next_call; eexists _, _, []; rewrite app_nil_r; auto. }
    next_call; [eexists _, _, []; rewrite app_nil_r; auto|].
    destruct (truthy (id_of a)); simpl.
    + repeat next_call; eexists _, _, []; rewrite app_nil_r; auto.
    + eexists _, _, []. rewrite app_nil_r. auto.
  - next_call; [eexists _, _, []; rewrite app_nil_r; auto|].
    next_call; [eexists _, _, []; rewrite app_nil_r; auto|].
    next_call; [eexists _, _, []; rewrite app_nil_r; auto|].
    destruct a0 as [b|]; simpl.
    + next_call.
      all: eexists _, _, [_]; (split; [reflexivity|]); (split; [reflexivity|]).
      all: right; eexists _, _; (split; [reflexivity|]); split; [|eauto].
      all: simpl; rewrite !elem_of_app, !list_elem_of_singleton; auto 10.
    + eexists _, _, [_]. split; [reflexivity|]. split; [reflexivity|].
      right. eexists _, _. split; [reflexivity|]. split; [|eauto].
      simpl. rewrite !elem_of_app, !list_elem_of_singleton; auto 10.
Qed.

(** X8. [runServer] serves exactly when neither [initialize] nor
    [server.connect] throws.  It initialises first: when that throws, the
    transport is never connected.  A [connect] that throws is as fatal as
    a failed initialisation: the error is logged and the process leaves
    with code 1, and the line 'running on stdio' is logged only when the
    server serves. *)
Theorem runServer_outcomes (m0 : M) (initialize : prog number M unit)
    (connect : prog number (server number M) unit) initialized m1 :
  initialize m0 = (initialized, m1) ->
  let s1 := {| branchManager := m1; console := [];
               calls := [(CallInitialize, thrown initialized)] |} in
  (forall e, initialized = inl e ->
     runServer m0 initialize connect
     = Exited 1 {| branchManager := m1;
                   console := ["Fatal error initializing server: " ++ error_text e]%string;
                   calls := calls s1 |})
  /\ (forall u connected s2, initialized = inr u -> connect s1 = (connected, s2) ->
        runServer m0 initialize connect
        = match connected with
          | inr _ =>
              Serving {| branchManager := branchManager s2;
                         console := console s2
                           ++ ["Branch Thinking MCP Server running on stdio"%string];
                         calls := calls s2 |}
          | inl e =>
              Exited 1 {| branchManager := branchManager s2;
                          console := console s2
                            ++ ["Fatal error initializing server: " ++ error_text e]%string;
                          calls := calls s2 |}
          end).
Proof.
  intros Hinit s1. split.
  - intros e ->. unfold runServer. run_prog. simpl. rewrite Hinit. reflexivity.
  - intros u connected s2 -> Hconnect. unfold runServer. run_prog. simpl.
    rewrite Hinit. simpl. change (connect _) with (connect s1). rewrite Hconnect.
    destruct connected; reflexivity.
Qed.

End ServerMore.
End ServerMore.

(** ** The persistence manager: what the disk keeps *)

Module PersistenceMore.
Import Js Prog Persistence JsFacts PersistenceFacts RoundTrip.
#[local] Open Scope list_scope.

Section PersistenceMore.
Context {number : Type} `{JsHost number} {M : Type} `{BranchStore number M}.

Implicit Types (w : world number M) (e : exn number).

#[local] Existing Instance fs_only_preorder.

(** *** The storage directory *)

(** X9. [ensureStorageDir] never empties a directory that exists, also when
    [fs.access] fails on it.  When it returns the directory exists, empty
    if it had to be made.  It throws only what [fs.mkdir] throws, and then
    the disk is as it was. *)
Theorem ensureStorageDir_keeps_the_files w r w' :
  ensureStorageDir w = (r, w') ->
  (forall d, disk w = Some d -> disk w' = Some d)
  /\ (forall u, r = inr u -> disk w' = Some (default ∅ (disk w)))
  /\ (forall e, r = inl e ->
        disk w' = disk w
        /\ exists failed, faults w = failed :: true :: faults w'
                          /\ (failed = true \/ disk w = None)).
Proof.
  unfold ensureStorageDir, try_catch, fs_access, fs_mkdir, fs_call.
  destruct (faults w) as [|[|] [|[|] rest]] eqn:Hfaults; simpl;
    destruct (disk w) as [d|] eqn:Hdisk; simpl; rewrite ?Hdisk; simpl;
    intros [= <- <-]; simpl; rewrite ?Hdisk.
  all: split; [intros ? [= <-]; reflexivity|].
  all: split; [first [intros ? [=]; fail | intros; reflexivity]|].
  all: first [intros ? [=]; fail | idtac].
  all: intros ? _; split; [reflexivity|]; eexists; split; [reflexivity|]; auto.
Qed.

(** A directory that exists keeps its names. *)
Definition names_kept (w w' : world number M) : Prop :=
  forall d, disk w = Some d ->
    exists d', disk w' = Some d' /\ forall name, is_Some (d !! name) -> is_Some (d' !! name).

#[local] Instance names_kept_preorder : PreOrder names_kept.
Proof.
  split.
  - intros w d Hd. eauto.
  - intros w1 w2 w3 H12 H23 d Hd.
    destruct (H12 d Hd) as (d2 & Hd2 & Hsub2).
    destruct (H23 d2 Hd2) as (d3 & Hd3 & Hsub3). eauto.
Qed.

Lemma names_kept_same w w' : disk w' = disk w -> names_kept w w'.
Proof. intros Heq d Hd. exists d. rewrite Heq. auto. Qed.

Lemma names_kept_fs_writeFile name f : preserves names_kept (fs_writeFile name f).
Proof.
  apply preserves_fs_call; [apply _|intros w; apply names_kept_same; reflexivity|].
  intros w r w'. destruct (place_of (storageDir w) name) as [entry| | |];
    destruct (disk w) as [d|] eqn:Hd;
    intros [= <- <-]; try (apply names_kept_same; reflexivity).
  intros d' Hd'. rewrite Hd in Hd'. injection Hd' as <-.
  eexists. split; [reflexivity|]. intros n Hn.
  destruct (decide (n = entry)) as [->|Hne].
  - rewrite lookup_insert_eq. eauto.
  - rewrite lookup_insert_ne by congruence. exact Hn.
Qed.

Lemma names_kept_ensureStorageDir : preserves names_kept ensureStorageDir.
Proof.
  apply preserves_try_catch; [apply _| |intros _].
  - intros w r w' Hrun. apply names_kept_same. eapply fs_access_disk, Hrun.
  - apply preserves_fs_call; [apply _|intros w; apply names_kept_same; reflexivity|].
    intros w r w'. destruct (disk w) as [d|] eqn:Hd; intros [= <- <-].
    + apply names_kept_same. reflexivity.
    + intros d Hd'. congruence.
Qed.

Lemma names_kept_core {A} c (op : prog number M A) : preserves names_kept (core c op).
Proof.
  intros w r w' Hrun. apply names_kept_same.
  destruct (core_run _ _ _ _ _ Hrun) as (_ & _ & Hd & _). exact Hd.
Qed.

(** X10. [saveState] never removes a file: every name of the storage directory
    is still there afterwards, whether the save returns or throws.  The
    file of a branch that the manager no longer holds stays. *)
Theorem saveState_never_removes_a_file w r w' d name :
  saveState w = (r, w') -> disk w = Some d -> is_Some (d !! name) ->
  exists d', disk w' = Some d' /\ is_Some (d' !! name).
Proof.
  intros Hrun Hd Hname.
  assert (Hkept : preserves names_kept saveState).
  { unfold saveState.
    apply preserves_bind; [apply _|apply names_kept_ensureStorageDir|intros _].
    apply preserves_bind; [apply _|apply names_kept_core|intros branches].
    apply preserves_bind; [apply _| |intros _].
    - apply preserves_for_of; [apply _|]. intros branch. unfold save_branch.
      apply preserves_bind; [apply _|apply preserves_read, _|intros b].
      apply preserves_bind; [apply _|apply preserves_lift, _|intros id].
      apply preserves_bind; [apply _|apply preserves_lift, _|intros text].
      apply names_kept_fs_writeFile.
    - unfold save_index.
      apply preserves_bind; [apply _|apply preserves_read, _|intros bs].
      apply preserves_bind; [apply _|apply preserves_read, _|intros clock].
      apply preserves_bind; [apply _|apply preserves_lift, _|intros index].
      apply names_kept_fs_writeFile. }
  destruct (Hkept w r w' Hrun d Hd) as (d' & Hd' & Hsub). eauto.
Qed.

(** What [loadState] does to the disk: nothing, or it makes the missing
    directory. *)
Definition dir_made (w w' : world number M) : Prop :=
  disk w' = disk w \/ (disk w = None /\ disk w' = Some ∅).

#[local] Instance dir_made_preorder : PreOrder dir_made.
Proof.
  split.
  - intros w. left. reflexivity.
  - intros w1 w2 w3 [H12|[H1 H2]] [H23|[H2' H3]].
    + left. congruence.
    + right. split; congruence.
    + right. split; congruence.
    + congruence.
Qed.

Lemma dir_made_same w w' : disk w' = disk w -> dir_made w w'.
Proof. intros Heq. left. exact Heq. Qed.

(** X11. [loadState] writes no file and removes none, whatever the files hold
    and whatever [reconstructBranch] does: a storage directory that exists
    is left as it is, and a missing one is made, empty, unless [fs.mkdir]
    fails. *)
Theorem loadState_writes_no_file w r w' :
  loadState w = (r, w') ->
  disk w' = disk w \/ (disk w = None /\ disk w' = Some ∅).
Proof.
  revert w r w'. change (preserves dir_made loadState). unfold loadState.
  apply preserves_try_catch; [apply _| |intros e].
  2:{ apply preserves_bind; [apply _| |intros _; apply preserves_throw, _].
      intros w r w' [= <- <-]. apply dir_made_same. reflexivity. }
  unfold load_body.
  apply preserves_bind; [apply _| |intros _].
  { apply preserves_try_catch; [apply _| |intros _].
    - intros w r w' Hrun. apply dir_made_same. eapply fs_access_disk, Hrun.
    - apply preserves_fs_call; [apply _|intros w; apply dir_made_same; reflexivity|].
      intros w r w'. destruct (disk w) as [d|] eqn:Hd; intros [= <- <-].
      + apply dir_made_same. reflexivity.
      + right. auto. }
  apply preserves_bind; [apply _| |intros files].
  { apply preserves_fs_call; [apply _|intros w; apply dir_made_same; reflexivity|].
    intros w r w'. destruct (disk w); intros [= <- <-]; apply dir_made_same; reflexivity. }
  apply preserves_for_of; [apply _|]. intros file. unfold load_file.
  destruct (is_branch_file file); [|apply preserves_ret, _].
  apply preserves_bind; [apply _| |intros content].
  { intros w r w' Hrun. apply dir_made_same. eapply fs_readFile_disk, Hrun. }
  apply preserves_bind; [apply _|apply preserves_lift, _|intros parsed].
  apply preserves_bind; [apply _|apply preserves_lift, _|intros branch].
  intros w r w' Hrun. apply dir_made_same.
  destruct (core_run _ _ _ _ _ Hrun) as (_ & _ & Hd & _). exact Hd.
Qed.

(** *** Saves that return and saves that fail *)

Lemma fs_call_no_fault {A} (op : prog number (world number M) A) w :
  true ∉ faults w ->
  fs_call op w = op (with_faults (tail (faults w)) w)
  /\ true ∉ tail (faults w).
Proof.
  intros Hno. unfold fs_call. destruct (faults w) as [|[|] rest]; simpl.
  - auto.
  - exfalso. apply Hno. left.
  - split; [reflexivity|]. intros Hin. apply Hno. right. exact Hin.
Qed.

Lemma save_loop_returns refs : forall vs w d,
  disk w = Some d -> true ∉ faults w ->
  Forall2 has_view (map (fun r => branch_at r (manager w)) refs) vs ->
  Forall (fun v => plain_name (file_name v) = true) vs ->
  exists w', for_of refs save_branch w = (inr tt, w') /\ true ∉ faults w'.
Proof.
  induction refs as [|r refs IH]; intros vs w d Hdisk Hno Hviews Hplain; simpl.
  - exists w. auto.
  - simpl in Hviews.
    apply Forall2_cons_inv_l in Hviews as (v & vs' & Hview & Hviews & ->).
    apply Forall_cons in Hplain as [Hname Hplain].
    cbv [mbind prog_bind bind]. unfold save_branch at 1.
    cbv [mbind prog_bind bind read lift].
    destruct Hview as (Hid & _). rewrite Hid. simpl.
    rewrite fs_writeFile_entry by exact Hname.
    destruct (fs_call_no_fault
                (write_entry (view_id v ++ ".json")
                   (JSON_stringify (branch_at r (manager w)))) w Hno) as [-> Hno'].
    unfold write_entry. simpl. rewrite Hdisk.
    eapply IH; [reflexivity|exact Hno'|exact Hviews|exact Hplain].
Qed.

Lemma fs_only_save_loop refs : preserves fs_only (for_of refs save_branch).
Proof.
  apply preserves_for_of; [apply _|]. intros branch. unfold save_branch.
  apply preserves_bind; [apply _|apply preserves_read, _|intros b].
  apply preserves_bind; [apply _|apply preserves_lift, _|intros id].
  apply preserves_bind; [apply _|apply preserves_lift, _|intros name].
  apply fs_only_fs_writeFile.
Qed.

Lemma fs_only_save_index refs : preserves fs_only (save_index refs).
Proof.
  unfold save_index.
  apply preserves_bind; [apply _|apply preserves_read, _|intros bs].
  apply preserves_bind; [apply _|apply preserves_read, _|intros clock].
  apply preserves_bind; [apply _|apply preserves_lift, _|intros index].
  apply fs_only_fs_writeFile.
Qed.

(** X12. On a disk that does not fail, [saveState] returns: when
    [getAllBranches] returns branches whose ids are strings without a path
    separator, the directory is made if it is missing, every branch file
    and then the index are written over what the directory held, and the
    manager is as [getAllBranches] left it. *)
Theorem saveState_returns w refs m (vs : list (branch_view number)) :
  true ∉ faults w ->
  getAllBranches (manager w) = (inr refs, m) ->
  Forall2 has_view (map (fun r => branch_at r m) refs) vs ->
  Forall (fun v => plain_name (file_name v) = true) vs ->
  exists w',
    saveState w = (inr tt, w')
    /\ disk w'
       = Some (<["index.json" := JSON_stringify (VArr (map (entry_of_view (now w)) vs))]>
                 (write_all (branch_files m refs vs) (default ∅ (disk w))))
    /\ manager w' = m
    /\ calls w' = calls w ++ [CallGetAllBranches]
    /\ console w' = console w.
Proof.
  intros Hno Hall Hviews Hplain.
  assert (Hrun : exists w', saveState w = (inr tt, w')).
  { unfold saveState. cbv [mbind prog_bind bind].
    assert (Hensure : exists w1, ensureStorageDir w = (inr tt, w1) /\ true ∉ faults w1).
    { unfold ensureStorageDir, try_catch, fs_access.
      destruct (fs_call_no_fault
                  (fun w0 : world number M =>
                     match disk w0 with
                     | Some _ => (inr tt, w0)
                     | None => (inl no_dir, w0)
                     end) w Hno) as [-> Hno1].
      simpl. destruct (disk w) as [d|] eqn:Hd.
      - eexists. split; [reflexivity|exact Hno1].
      - unfold fs_mkdir.
        match goal with
        | |- context [fs_call ?op ?w1] =>
            destruct (fs_call_no_fault op w1 Hno1) as [-> Hno2]
        end.
        simpl. rewrite Hd. eexists. split; [reflexivity|exact Hno2]. }
    destruct Hensure as (w1 & Hensure & Hno1). rewrite Hensure.
    destruct (ensureStorageDir_ok _ _ Hensure) as (Hd1 & Hfs1).
    unfold core. rewrite (fs_only_manager _ _ Hfs1), Hall.
    match goal with
    | |- context [for_of refs save_branch ?w2] =>
        destruct (save_loop_returns refs vs w2 _ Hd1 Hno1 Hviews Hplain)
          as (w3 & Hloop & Hno3)
    end.
    rewrite Hloop.
    unfold save_index. cbv [mbind prog_bind bind read lift].
    match type of Hloop with
    | for_of _ _ ?w2 = _ =>
        destruct (save_loop_ok refs vs w2 w3 _ Hd1 Hviews Hplain Hloop) as (Hd3 & Hfs3)
    end.
    rewrite (fs_only_manager _ _ Hfs3). simpl manager.
    rewrite (index_of_views _ _ _ Hviews).
    rewrite (fs_writeFile_entry "index") by reflexivity.
    match goal with
    | |- context [fs_call ?op w3] =>
        destruct (fs_call_no_fault op w3 Hno3) as [-> _]
    end.
    unfold write_entry. simpl. rewrite Hd3. eexists. reflexivity. }
  destruct Hrun as (w' & Hrun). exists w'. split; [exact Hrun|].
  split; [exact (saveState_disk _ _ _ _ _ Hrun Hall Hviews Hplain)|].
  pose proof Hrun as Hsteps.
  unfold saveState in Hsteps. cbv [mbind prog_bind bind] in Hsteps.
  destruct (ensureStorageDir w) as [[e|[]] w1] eqn:Hensure; [discriminate|].
  pose proof (fs_only_ensureStorageDir _ _ _ Hensure) as Hfs1.
  destruct (core CallGetAllBranches getAllBranches w1) as [[e|refs'] w2] eqn:Hcore;
    [discriminate|].
  destruct (core_run _ _ _ _ _ Hcore) as (Hget & Hc2 & _ & _ & Hcon2 & _).
  rewrite (fs_only_manager _ _ Hfs1), Hall in Hget. injection Hget as <- Hm2.
  destruct (for_of refs save_branch w2) as [[e|[]] w3] eqn:Hloop; [discriminate|].
  pose proof (fs_only_save_loop _ _ _ _ Hloop) as Hfs3.
  pose proof (fs_only_save_index _ _ _ _ Hsteps) as Hfs4.
  destruct Hfs1 as (_ & Hcon1 & Hc1 & _).
  destruct Hfs3 as (Hm3 & Hcon3 & Hc3 & _).
  destruct Hfs4 as (Hm4 & Hcon4 & Hc4 & _).
  repeat split; congruence.
Qed.

Lemma save_loop_faulty refs : forall vs w d k rest,
  disk w = Some d -> faults w = replicate k false ++ true :: rest ->
  Forall2 has_view (map (fun r => branch_at r (manager w)) refs) vs ->
  Forall (fun v => plain_name (file_name v) = true) vs ->
  exists r w',
    for_of refs save_branch w = (r, w')
    /\ disk w' = Some (write_all (take k (branch_files (manager w) refs vs)) d)
    /\ ((k < List.length refs)%nat ->
        r = inl (io_error "EIO: i/o error") /\ faults w' = rest)
    /\ ((List.length refs <= k)%nat ->
        r = inr tt
        /\ faults w' = replicate (k - List.length refs) false ++ true :: rest).
Proof.
  induction refs as [|r refs IH]; intros vs w d k rest Hdisk Hfaults Hviews Hplain.
  - exists (inr tt), w. simpl. rewrite take_nil. split; [reflexivity|].
    split; [exact Hdisk|]. split; [lia|]. intros _.
    rewrite Nat.sub_0_r. auto.
  - simpl in Hviews.
    apply Forall2_cons_inv_l in Hviews as (v & vs' & Hview & Hviews & ->).
    apply Forall_cons in Hplain as [Hname Hplain].
    simpl for_of. cbv [mbind prog_bind bind]. unfold save_branch at 1.
    cbv [mbind prog_bind bind read lift].
    destruct Hview as (Hid & _). rewrite Hid. cbn [template convertible to_string].
    rewrite fs_writeFile_entry by exact Hname.
    unfold fs_call, write_entry. rewrite Hfaults.
    destruct k as [|k]; simpl.
    + eexists _, _. split; [reflexivity|]. simpl.
      split; [exact Hdisk|]. split; [auto|lia].
    + rewrite Hdisk.
      match goal with
      | |- context [for_of refs save_branch ?w1] =>
          destruct (IH vs' w1 _ k rest eq_refl eq_refl Hviews Hplain)
            as (r' & w' & Hrun & Hd' & Hlt & Hge)
      end.
      exists r', w'. split; [exact Hrun|].
      split; [exact Hd'|]. split; intros Hk; [apply Hlt; lia|apply Hge; lia].
Qed.

(** X13. [saveState] is not atomic.  On a directory that exists, when the
    call of [fs.writeFile] number [k] fails, counting from 0, the save
    throws that error: the files of the first [k] branches are written,
    the later ones and [index.json] are not; with [k] the number of
    branches it is the write of the index that fails, after every branch
    file was written. *)
Theorem save_stops_at_the_first_failed_write
    w d refs m (vs : list (branch_view number)) k rest :
  disk w = Some d ->
  faults w = replicate (S k) false ++ true :: rest ->
  getAllBranches (manager w) = (inr refs, m) ->
  Forall2 has_view (map (fun r => branch_at r m) refs) vs ->
  Forall (fun v => plain_name (file_name v) = true) vs ->
  (k <= List.length refs)%nat ->
  exists w',
    saveState w = (inl (io_error "EIO: i/o error"), w')
    /\ disk w' = Some (write_all (take k (branch_files m refs vs)) d)
    /\ faults w' = rest.
Proof.
  intros Hdisk Hfaults Hall Hviews Hplain Hk.
  unfold saveState. cbv [mbind prog_bind bind].
  unfold ensureStorageDir, try_catch, fs_access, fs_call. rewrite Hfaults. simpl.
  rewrite Hdisk. unfold core. simpl. rewrite Hall.
  match goal with
  | |- context [for_of refs save_branch ?w2] =>
      destruct (save_loop_faulty refs vs w2 d k rest Hdisk eq_refl Hviews Hplain)
        as (r & w3 & Hloop & Hd3 & Hlt & Hge);
      pose proof (fs_only_save_loop _ _ _ _ Hloop) as Hfs3
  end.
  rewrite Hloop. simpl manager in Hd3.
  destruct (decide (k < List.length refs)%nat) as [Hshort|Hall_written].
  - destruct (Hlt Hshort) as [-> Hrest]. eauto.
  - destruct Hge as [-> Hrest]; [lia|].
    replace (k - List.length refs)%nat with 0%nat in Hrest by lia. simpl in Hrest.
    unfold save_index. cbv [mbind prog_bind bind read lift].
    rewrite (fs_only_manager _ _ Hfs3). simpl manager.
    rewrite (index_of_views _ _ _ Hviews).
    rewrite (fs_writeFile_entry "index") by reflexivity.
    unfold fs_call. rewrite Hrest. simpl.
    eexists. split; [reflexivity|]. simpl. auto.
Qed.

(** *** Loads that return and loads that fail *)

(** [reconstructBranch] returns on every branch. *)
Definition reconstructs : Prop :=
  forall (b : value number) (m : M), exists m', reconstructBranch b m = (inr tt, m').

Lemma load_loop_returns (d : gmap string (file number)) names : forall w,
  disk w = Some d -> true ∉ faults w -> reconstructs ->
  (forall name, name ∈ names -> is_branch_file name = true -> is_Some (loaded d name)) ->
  exists w',
    for_of names load_file w = (inr tt, w')
    /\ disk w' = Some d /\ console w' = console w
    /\ calls w' = calls w ++ map CallReconstructBranch (loaded_all d names).
Proof.
  induction names as [|name names IH]; intros w Hdisk Hno Hrec Hok.
  - exists w. simpl. rewrite app_nil_r. auto.
  - simpl for_of. cbv [mbind prog_bind bind]. unfold loaded_all.
    rewrite omap_cons. fold (loaded_all d names).
    unfold load_file at 1. destruct (is_branch_file name) eqn:Hname.
    + destruct (Hok name) as (b & Hb); [left|exact Hname|].
      rewrite Hb. unfold loaded in Hb.
      destruct (d !! name) as [f|] eqn:Hf; [|discriminate].
      destruct (JSON_parse f) as [|parsed] eqn:Hparse; [discriminate|].
      destruct (rehydrate parsed) as [|b'] eqn:Hre; [discriminate|].
      injection Hb as ->.
      cbv [mbind prog_bind bind lift]. unfold fs_readFile.
      match goal with
      | |- context [fs_call ?op w] =>
          destruct (fs_call_no_fault op w Hno) as [-> Hno1]
      end.
      simpl. rewrite Hdisk. simpl. rewrite Hf, Hparse, Hre.
      unfold core. simpl.
      destruct (Hrec b (manager w)) as (m' & ->).
      match goal with
      | |- context [for_of names load_file ?w1] =>
          destruct (IH w1) as (w' & Hrun & Hd & Hcon & Hcalls)
      end; [exact Hdisk|exact Hno1|exact Hrec| |].
      { intros n Hn. apply Hok. right. exact Hn. }
      exists w'. rewrite Hrun. split; [reflexivity|]. split; [exact Hd|].
      split; [exact Hcon|]. rewrite Hcalls. simpl. rewrite <- app_assoc. reflexivity.
    + cbv [mret prog_ret ret].
      destruct (IH w Hdisk Hno Hrec) as (w' & Hrun & Hd & Hcon & Hcalls).
      { intros n Hn. apply Hok. right. exact Hn. }
      exists w'. rewrite Hrun. auto.
Qed.

Lemma load_body_returns w :
  true ∉ faults w -> reconstructs ->
  (forall name, is_Some (default ∅ (disk w) !! name) ->
     is_branch_file name = true -> is_Some (loaded (default ∅ (disk w)) name)) ->
  exists w',
    load_body w = (inr tt, w')
    /\ disk w' = Some (default ∅ (disk w)) /\ console w' = console w
    /\ calls w'
       = calls w ++ map CallReconstructBranch
           (loaded_all (default ∅ (disk w)) (map_to_list (default ∅ (disk w))).*1).
Proof.
  intros Hno Hrec Hok.
  unfold load_body. cbv [mbind prog_bind bind].
  assert (Hensure : exists w1, ensureStorageDir w = (inr tt, w1) /\ true ∉ faults w1).
  { unfold ensureStorageDir, try_catch, fs_access.
    match goal with
    | |- context [fs_call ?op w] =>
        destruct (fs_call_no_fault op w Hno) as [-> Hno1]
    end.
    simpl. destruct (disk w) as [d|] eqn:Hd.
    - eexists. split; [reflexivity|exact Hno1].
    - unfold fs_mkdir.
      match goal with
      | |- context [fs_call ?op ?w1] =>
          destruct (fs_call_no_fault op w1 Hno1) as [-> Hno2]
      end.
      simpl. rewrite Hd. eexists. split; [reflexivity|exact Hno2]. }
  destruct Hensure as (w1 & Hensure & Hno1). rewrite Hensure.
  destruct (ensureStorageDir_ok _ _ Hensure) as (Hd1 & Hfs1).
  set (d := default ∅ (disk w)) in *.
  unfold fs_readdir.
  match goal with
  | |- context [fs_call ?op w1] =>
      destruct (fs_call_no_fault op w1 Hno1) as [-> Hno2]
  end.
  simpl. rewrite Hd1.
  match goal with
  | |- context [for_of _ load_file ?w2] =>
      destruct (load_loop_returns d (map fst (map_to_list d)) w2 Hd1 Hno2 Hrec)
        as (w' & Hrun & Hd' & Hcon & Hcalls)
  end.
  { intros name Hin. apply Hok.
    change (map fst (map_to_list d)) with ((map_to_list d).*1) in Hin.
    apply list_elem_of_fmap in Hin as ([n f] & -> & Hin).
    apply elem_of_map_to_list in Hin. simpl. eauto. }
  exists w'. split; [exact Hrun|]. split; [exact Hd'|].
  destruct Hfs1 as (_ & Hcon1 & Hc1 & _).
  split; [simpl in Hcon; congruence|].
  simpl in Hcalls. rewrite Hcalls, Hc1. reflexivity.
Qed.

(** X14. On a disk that does not fail, with a [reconstructBranch] that
    returns, [loadState] returns as soon as every branch file of the
    directory parses and the walk of its [thoughts], which makes each
    [timestamp] a date, goes through.  It logs nothing and leaves the
    files as they are.  On a first start, with no storage directory, it
    makes the directory and calls nothing. *)
Theorem loadState_returns w :
  true ∉ faults w ->
  (forall (b : value number) (m : M), exists m', reconstructBranch b m = (inr tt, m')) ->
  (forall name f,
     default ∅ (disk w) !! name = Some f -> is_branch_file name = true ->
     exists parsed branch, JSON_parse f = inr parsed /\ rehydrate parsed = inr branch) ->
  exists w',
    loadState w = (inr tt, w')
    /\ disk w' = Some (default ∅ (disk w))
    /\ console w' = console w
    /\ (disk w = None -> calls w' = calls w).
Proof.
  intros Hno Hrec Hfiles.
  destruct (load_body_returns w Hno Hrec) as (w' & Hrun & Hd & Hcon & Hcalls).
  { intros name [f Hf] Hname. unfold loaded. rewrite Hf.
    destruct (Hfiles name f Hf Hname) as (parsed & branch & -> & ->). eauto. }
  exists w'. unfold loadState, try_catch. rewrite Hrun.
  split; [reflexivity|]. split; [exact Hd|]. split; [exact Hcon|].
  intros Hnone. rewrite Hcalls, Hnone. simpl.
  rewrite map_to_list_empty. simpl. apply app_nil_r.
Qed.

(** X15. One branch file that [JSON.parse] rejects, or whose [thoughts] cannot
    be walked, fails the whole load: [loadState] throws 'Failed to load
    persisted state', whatever the other files hold. *)
Theorem a_corrupt_file_fails_the_load w r w' d name f :
  loadState w = (r, w') ->
  disk w = Some d -> d !! name = Some f -> is_branch_file name = true ->
  (forall parsed, JSON_parse f = inr parsed -> exists e, rehydrate parsed = inl e) ->
  r = inl (ErrorObj "Failed to load persisted state").
Proof.
  intros Hload Hdisk Hf Hname Hbad.
  unfold loadState, try_catch in Hload.
  destruct (load_body w) as [[e|[]] w1] eqn:Hbody.
  { cbv [mbind prog_bind bind console_error modify throw] in Hload.
    injection Hload as <- _. reflexivity. }
  exfalso. unfold load_body in Hbody. cbv [mbind prog_bind bind] in Hbody.
  destruct (ensureStorageDir w) as [[e|[]] w2] eqn:Hensure; [discriminate|].
  destruct (ensureStorageDir_ok _ _ Hensure) as (Hdisk2 & _).
  rewrite Hdisk in Hdisk2. simpl in Hdisk2.
  destruct (fs_readdir w2) as [[e|files] w3] eqn:Hreaddir; [discriminate|].
  destruct (fs_readdir_ok _ _ _ Hreaddir) as ((d' & Hd & Hd3 & ->) & _).
  rewrite Hdisk2 in Hd. injection Hd as <-.
  destruct (load_loop_calls _ _ _ _ Hd3 Hbody) as (_ & branches & Hall & _).
  assert (Hin : name ∈ filter (fun n => is_branch_file n = true) (map_to_list d).*1).
  { apply list_elem_of_filter. split; [exact Hname|].
    apply list_elem_of_fmap. exists (name, f). split; [reflexivity|].
    apply elem_of_map_to_list, Hf. }
  apply list_elem_of_lookup in Hin as (i & Hi).
  destruct (Forall2_lookup_l _ _ _ _ _ Hall Hi) as (branch & _ & f' & parsed & Hf' & Hparse & Hre).
  rewrite Hf in Hf'. injection Hf' as <-.
  destruct (Hbad parsed Hparse) as (e & He). congruence.
Qed.

(** *** Saving, then loading, with any branch manager *)

(** X16. Whatever the branch manager is: branches as it holds them, of
    pairwise different ids that hold no path separator and none of which
    is "index", are saved into a directory that holds no other branch
    file;
    a load from that disk, without faults and with a [reconstructBranch]
    that returns, returns and hands to [reconstructBranch] exactly the
    saved branches, each once and as it was, its timestamps dates
    again. *)
Theorem saved_branches_are_handed_back (w w1 w2 : world number M)
    refs m (vs : list (branch_view number)) :
  saveState w = (inr tt, w1) ->
  getAllBranches (manager w) = (inr refs, m) ->
  Forall2 has_view (map (fun r => branch_at r m) refs) vs ->
  NoDup (map view_id vs) ->
  "index"%string ∉ map view_id vs ->
  Forall (fun v => plain_name (file_name v) = true) vs ->
  Forall stored_branch (map (fun r => branch_at r m) refs) ->
  (forall name, is_branch_file name = true ->
     is_Some (default ∅ (disk w) !! name) -> name ∈ map file_name vs) ->
  disk w2 = disk w1 -> true ∉ faults w2 ->
  (forall (b : value number) (m : M), exists m', reconstructBranch b m = (inr tt, m')) ->
  exists w3 branches,
    loadState w2 = (inr tt, w3)
    /\ calls w3 = calls w2 ++ map CallReconstructBranch branches
    /\ branches ≡ₚ map (fun r => branch_at r m) refs.
Proof.
  intros Hsave Hget Hviews Hnodup Hindex Hplain Hstored Hforeign Hdisk2 Hno Hrec.
  set (bs := map (fun r => branch_at r m) refs) in *.
  assert (Hlen : List.length refs = List.length vs).
  { apply Forall2_length in Hviews. subst bs. rewrite length_map in Hviews. exact Hviews. }
  pose proof (file_names_NoDup vs Hnodup) as Hnames.
  assert (Hfiles : branch_files m refs vs
                   = zip_with (fun b v => (file_name v, JSON_stringify b)) bs vs).
  { unfold branch_files. subst bs.
    change (map (fun r => branch_at r m) refs) with ((fun r => branch_at r m) <$> refs).
    rewrite zip_with_fmap_l. reflexivity. }
  assert (Hkeys : (branch_files m refs vs).*1 = map file_name vs)
    by (apply branch_files_names, Hlen).
  (* the disk after the save *)
  assert (Hd1 : exists d1, disk w1 = Some d1
            /\ (forall b v, (b, v) ∈ zip bs vs ->
                  d1 !! file_name v = Some (JSON_stringify b))
            /\ (forall name, is_branch_file name = true -> is_Some (d1 !! name) ->
                  name ∈ map file_name vs)).
  { eexists. split; [apply (saveState_disk w w1 refs m vs Hsave Hget Hviews Hplain)|].
    split.
    - intros b v Hin. rewrite lookup_insert_ne.
      2:{ intros Heq. apply Hindex.
          symmetry in Heq. apply file_name_index in Heq.
          rewrite <- Heq. apply (list_elem_of_fmap_2 view_id).
          apply elem_of_zip_r in Hin. exact Hin. }
      apply write_all_written; [rewrite Hkeys; exact Hnames|].
      rewrite Hfiles, zip_with_zip.
      apply (list_elem_of_fmap_2
               (uncurry (fun b v => (file_name v, JSON_stringify b))) _ (b, v)), Hin.
    - intros name Hname Hsome.
      destruct (decide (name = "index.json"%string)) as [->|Hne]; [discriminate Hname|].
      rewrite lookup_insert_ne in Hsome by congruence.
      destruct (decide (name ∈ map file_name vs)) as [Hin|Hnot]; [exact Hin|].
      rewrite write_all_other in Hsome by (rewrite Hkeys; exact Hnot).
      apply Hforeign; assumption. }
  destruct Hd1 as (d1 & Hd1 & Hfile & Hother).
  (* what the loop makes of each file *)
  assert (Hloaded : forall b v, (b, v) ∈ zip bs vs -> loaded d1 (file_name v) = Some b).
  { intros b v Hin. unfold loaded. rewrite (Hfile b v Hin).
    destruct (branch_roundtrip b) as (parsed & -> & ->); [|reflexivity].
    rewrite Forall_forall in Hstored. apply Hstored.
    apply elem_of_zip_l in Hin. exact Hin. }
  set (names := (map_to_list d1).*1).
  assert (Hperm : filter (fun n => is_branch_file n = true) names ≡ₚ map file_name vs).
  { apply NoDup_Permutation.
    - apply NoDup_filter, NoDup_fst_map_to_list.
    - exact Hnames.
    - intros name. rewrite list_elem_of_filter. subst names. split.
      + intros [Hname Hin]. apply Hother; [exact Hname|].
        apply list_elem_of_fmap in Hin as ([n f] & -> & Hin).
        apply elem_of_map_to_list in Hin. simpl. eauto.
      + intros Hin.
        change (map file_name vs) with (file_name <$> vs) in Hin.
        apply list_elem_of_fmap in Hin as (v & -> & Hv).
        destruct (zip_member _ _ _ v Hviews Hv) as (b & Hin).
        split.
        * apply is_branch_file_name. intros Heq. apply Hindex.
          rewrite <- Heq. apply (list_elem_of_fmap_2 view_id), Hv.
        * apply list_elem_of_fmap. exists (file_name v, JSON_stringify b).
          split; [reflexivity|]. apply elem_of_map_to_list, Hfile, Hin. }
  (* the load *)
  rewrite Hd1 in Hdisk2.
  destruct (load_body_returns w2 Hno Hrec) as (w3 & Hrun & _ & _ & Hcalls).
  { rewrite Hdisk2. simpl. intros name Hsome Hname.
    specialize (Hother name Hname Hsome).
    change (map file_name vs) with (file_name <$> vs) in Hother.
    apply list_elem_of_fmap in Hother as (v & -> & Hv).
    destruct (zip_member _ _ _ v Hviews Hv) as (b & Hb).
    rewrite (Hloaded b v Hb). eauto. }
  rewrite Hdisk2 in Hcalls. simpl in Hcalls. fold names in Hcalls.
  exists w3, (loaded_all d1 names).
  split; [unfold loadState, try_catch; rewrite Hrun; reflexivity|].
  split; [exact Hcalls|].
  rewrite loaded_all_filter, Hperm. rewrite (omap_files d1 bs vs Hviews Hloaded).
  reflexivity.
Qed.

(** *** Timestamps made dates *)

Lemma assoc_of_json k (fields : list (string * json number)) :
  assoc k (map (fun kv => (kv.1, of_json kv.2)) fields) = of_json <$> assoc k fields.
Proof.
  induction fields as [|[k0 j] fields IH]; [reflexivity|].
  simpl. destruct (String.eqb k k0); [reflexivity|exact IH].
Qed.

Lemma assoc_set_eq {A} k (x : A) fs : assoc k (assoc_set k x fs) = Some x.
Proof.
  induction fs as [|[k0 x0] fs IH]; simpl.
  - rewrite String.eqb_refl. reflexivity.
  - destruct (String.eqb_spec k k0) as [->|Hne]; simpl.
    + rewrite String.eqb_refl. reflexivity.
    + destruct (String.eqb_spec k k0) as [|_]; [contradiction|exact IH].
Qed.

Lemma assoc_set_ne {A} k k' (x : A) fs :
  k <> k' -> assoc k (assoc_set k' x fs) = assoc k fs.
Proof.
  intros Hne. induction fs as [|[k0 x0] fs IH]; simpl.
  - destruct (String.eqb_spec k k') as [|_]; [contradiction|reflexivity].
  - destruct (String.eqb_spec k' k0) as [->|Hne0]; simpl.
    + destruct (String.eqb_spec k k0) as [|_]; [contradiction|reflexivity].
    + destruct (String.eqb k k0); [reflexivity|exact IH].
Qed.

(** [new Date(v)] returns exactly on the values that can be made a
    primitive. *)
Lemma new_Date_returns (v : value number) :
  (exists date, new_Date v = inr date) <-> convertible v = true.
Proof.
  destruct v as [| |[|]| | | |xs|fs]; try (split; [reflexivity|eexists; reflexivity]).
  all: unfold new_Date, template; destruct (convertible _); split; eauto;
    try discriminate.
  all: intros (date & [=]).
Qed.

(** An item of [thoughts] that the load accepts: an array, or an object
    whose [timestamp], if it has one, can be made a primitive. *)
Definition acceptable_thought (j : json number) : Prop :=
  match j with
  | JObj fields =>
      match assoc "timestamp" fields with
      | Some stamp => convertible (of_json stamp) = true
      | None => True
      end
  | JArr _ => True
  | _ => False
  end.

Lemma rehydrate_thought_accepts (t : json number) :
  (exists t', rehydrate_thought (of_json t) = inr t') <-> acceptable_thought t.
Proof.
  destruct t as [| | | |items|fields]; cbn [of_json acceptable_thought].
  1-4: split; [intros (t' & [=])|intros []].
  - split; [auto|]. intros _. eexists. reflexivity.
  - unfold rehydrate_thought. cbn [get mbind result_bind].
    rewrite assoc_of_json.
    destruct (assoc "timestamp" fields) as [stamp|]; cbn [fmap option_fmap option_map default id].
    + rewrite <- new_Date_returns. split.
      * intros (t' & Hrun). destruct (new_Date (of_json stamp)) as [e|date];
          [discriminate|eauto].
      * intros (date & ->). eexists. reflexivity.
    + split; [auto|]. intros _. eexists. reflexivity.
Qed.

Lemma rehydrate_all_accepts (items : list (json number)) :
  (exists ts, rehydrate_all (map of_json items) = inr ts)
  <-> Forall acceptable_thought items.
Proof.
  induction items as [|t items IH]; simpl.
  - split; [constructor|eauto].
  - rewrite Forall_cons, <- IH, <- rehydrate_thought_accepts.
    cbv [mbind result_bind]. split.
    + intros (ts & Hrun).
      destruct (rehydrate_thought (of_json t)) as [e|t'] eqn:Ht; [discriminate|].
      destruct (rehydrate_all (map of_json items)) as [e|ts'] eqn:Hts; [discriminate|].
      eauto.
    + intros [(t' & ->) (ts & ->)]. eauto.
Qed.

(** X17. What [loadState] accepts as the document of a branch file: walking
    [branch.thoughts] and assigning each [timestamp] goes through exactly
    on an object whose [thoughts] is an array of arrays and of objects
    whose [timestamp], if there is one, can be made a primitive.  A
    missing [thoughts], a thought that is [null], a number, a string or a
    boolean, or a [timestamp] that is an object with a property
    [toString], or an array that holds one, throws, which fails the
    load. *)
Theorem rehydrate_accepts (j : json number) :
  (exists branch, rehydrate (of_json j) = inr branch)
  <-> exists fields items,
        j = JObj fields /\ assoc "thoughts" fields = Some (JArr items)
        /\ Forall acceptable_thought items.
Proof.
  split.
  - intros (branch & Hrun). destruct j as [| | | |items|fields]; try discriminate Hrun.
    unfold rehydrate in Hrun. cbn [of_json get mbind result_bind] in Hrun.
    rewrite assoc_of_json in Hrun.
    destruct (assoc "thoughts" fields) as [[| | | |items|]|] eqn:Hthoughts;
      try discriminate Hrun.
    exists fields, items. split; [reflexivity|]. split; [exact Hthoughts|].
    apply rehydrate_all_accepts. simpl in Hrun. cbv [mbind result_bind] in Hrun.
    destruct (rehydrate_all (map of_json items)) as [e|ts]; [discriminate|eauto].
  - intros (fields & items & -> & Hthoughts & Hitems).
    apply rehydrate_all_accepts in Hitems as (ts & Hts).
    unfold rehydrate. cbn [of_json get mbind result_bind].
    rewrite assoc_of_json, Hthoughts. simpl. rewrite Hts. eauto.
Qed.

Lemma rehydrate_thought_fields (t t' : value number) k :
  rehydrate_thought t = inr t' -> k <> "timestamp"%string -> get t' k = get t k.
Proof.
  unfold rehydrate_thought. cbv [mbind result_bind].
  destruct (get t "timestamp") as [e|old]; [discriminate|].
  destruct (new_Date old) as [e|date]; [discriminate|].
  destruct t; try discriminate; intros [= <-] Hne; [reflexivity|].
  simpl. rewrite assoc_set_ne by exact Hne. reflexivity.
Qed.

Lemma rehydrate_all_fields (ts ts' : list (value number)) :
  rehydrate_all ts = inr ts' ->
  Forall2 (fun t t' => forall k, k <> "timestamp"%string -> get t' k = get t k) ts ts'.
Proof.
  revert ts'. induction ts as [|t ts IH]; intros ts'; simpl.
  - intros [= <-]. constructor.
  - cbv [mbind result_bind].
    destruct (rehydrate_thought t) as [e|t'] eqn:Ht; [discriminate|].
    destruct (rehydrate_all ts) as [e|ts''] eqn:Hts; [discriminate|].
    intros [= <-]. constructor; [|apply IH; reflexivity].
    intros k Hne. apply (rehydrate_thought_fields _ _ _ Ht Hne).
Qed.

(** X18. Making the timestamps dates changes nothing else: the branch keeps
    every property but [thoughts], and [thoughts] keeps its length, its
    order, and every property of every thought but [timestamp]. *)
Theorem rehydrate_changes_only_timestamps (b b' : value number) :
  rehydrate b = inr b' ->
  (forall k, k <> "thoughts"%string -> get b' k = get b k)
  /\ exists ts ts',
       get b "thoughts" = inr (VArr ts) /\ get b' "thoughts" = inr (VArr ts')
       /\ Forall2 (fun t t' => forall k, k <> "timestamp"%string -> get t' k = get t k)
            ts ts'.
Proof.
  unfold rehydrate. cbv [mbind result_bind].
  destruct (get b "thoughts") as [e|thoughts] eqn:Hthoughts; [discriminate|].
  destruct thoughts as [| | | | | |ts|]; try discriminate;
    try (destruct b; discriminate).
  destruct b as [| | | | | | |fs]; try discriminate.
  destruct (rehydrate_all ts) as [e|ts'] eqn:Hts; [discriminate|].
  intros [= <-]. split.
  - intros k Hne. simpl. rewrite assoc_set_ne by exact Hne. reflexivity.
  - exists ts, ts'. split; [reflexivity|]. split.
    + simpl. rewrite assoc_set_eq. reflexivity.
    + apply rehydrate_all_fields, Hts.
Qed.

Lemma assoc_written k (fs : list (string * value number)) x j :
  assoc k fs = Some x -> to_json x = Some j ->
  assoc k (omap (fun kv => (fun j => (kv.1, j)) <$> to_json kv.2) fs) = Some j.
Proof.
  intros Hassoc Hj. induction fs as [|[k0 x0] fs IH]; [discriminate|].
  simpl in Hassoc. rewrite omap_cons. simpl.
  destruct (String.eqb_spec k k0) as [->|Hne].
  - injection Hassoc as ->. rewrite Hj. simpl. rewrite String.eqb_refl. reflexivity.
  - destruct (to_json x0); simpl; [|exact (IH Hassoc)].
    destruct (String.eqb_spec k k0) as [|_]; [contradiction|exact (IH Hassoc)].
Qed.

Lemma assoc_not_written k (fs : list (string * value number)) :
  assoc k fs = None ->
  assoc k (omap (fun kv => (fun j => (kv.1, j)) <$> to_json kv.2) fs) = None.
Proof.
  intros Hassoc. induction fs as [|[k0 x0] fs IH]; [reflexivity|].
  simpl in Hassoc. rewrite omap_cons. simpl.
  destruct (String.eqb_spec k k0) as [->|Hne]; [discriminate|].
  destruct (to_json x0); simpl; [|exact (IH Hassoc)].
  destruct (String.eqb_spec k k0) as [|_]; [contradiction|exact (IH Hassoc)].
Qed.

(** X19. The timestamp of a thought after it was written by [saveState] and
    read by [loadState].  A valid date comes back as it was.  An invalid
    date is written as [null] and comes back as the epoch, time 0.  A
    thought without [timestamp] comes back with one, the invalid date.
    Whatever else the timestamp was, it comes back as a date when what was
    written for it can be made a primitive. *)
Theorem timestamp_after_reload (fs : list (string * value number)) :
  let reloaded :=
    rehydrate_thought (of_json (default JNull (to_json (VObj fs)))) in
  (forall ms,
     assoc "timestamp" fs = Some (VDate (Some ms)) -> IsoDate.in_range ms = true ->
     exists t', reloaded = inr t' /\ get t' "timestamp" = inr (VDate (Some ms)))
  /\ (assoc "timestamp" fs = Some (VDate None) ->
      exists t', reloaded = inr t' /\ get t' "timestamp" = inr (VDate (Some 0)))
  /\ (assoc "timestamp" fs = None ->
      exists t', reloaded = inr t' /\ get t' "timestamp" = inr (VDate None))
  /\ (forall old doc,
        assoc "timestamp" fs = Some old -> to_json old = Some doc ->
        convertible (of_json doc) = true ->
        exists t' stamp,
          reloaded = inr t' /\ get t' "timestamp" = inr (VDate stamp)).
Proof.
  intros reloaded. subst reloaded.
  rewrite to_json_obj. cbn [default id of_json].
  unfold rehydrate_thought. cbn [get mbind result_bind].
  rewrite assoc_of_json.
  split; [|split; [|split]].
  - intros ms Hstamp Hrange.
    rewrite (assoc_written _ _ _ (JStr (IsoDate.toISOString ms)) Hstamp) by reflexivity.
    cbn [fmap option_fmap option_map default id of_json new_Date mbind result_bind].
    rewrite date_of_string_toISOString by exact Hrange.
    eexists. split; [reflexivity|]. simpl. rewrite assoc_set_eq. reflexivity.
  - intros Hstamp.
    rewrite (assoc_written _ _ _ JNull Hstamp) by reflexivity.
    eexists. split; [reflexivity|]. simpl. rewrite assoc_set_eq. reflexivity.
  - intros Hstamp. rewrite (assoc_not_written _ _ Hstamp).
    eexists. split; [reflexivity|]. simpl. rewrite assoc_set_eq. reflexivity.
  - intros old doc Hstamp Hdoc Hconv.
    rewrite (assoc_written _ _ _ doc Hstamp Hdoc).
    cbn [fmap option_fmap option_map default id].
    apply new_Date_returns in Hconv as (date & ->).
    eexists _, _. split; [reflexivity|]. simpl. rewrite assoc_set_eq. reflexivity.
Qed.

(** *** Timers that were cleared *)

(** X20. A timer that was cleared never saves.  After [disableAutoSave],
    and after an [enableAutoSave] that replaced it, the firing of the
    manager's former timer runs no callback: nothing is written, called or
    logged.  [disableAutoSave] a second time changes nothing. *)
Theorem cleared_timer_never_saves w t :
  autoSaveInterval w = Some t ->
  fire t (disableAutoSave w) = (inr tt, disableAutoSave w)
  /\ (forall interval, t <> next_timer w ->
        fire t (enableAutoSave interval w) = (inr tt, enableAutoSave interval w))
  /\ disableAutoSave (disableAutoSave w) = disableAutoSave w.
Proof.
  intros Hown. split; [|split].
  - unfold fire, disableAutoSave. rewrite Hown. simpl.
    rewrite lookup_delete_eq. reflexivity.
  - intros interval Hne. unfold fire, enableAutoSave, setInterval_own.
    rewrite Hown. simpl. rewrite lookup_insert_ne by congruence.
    rewrite lookup_delete_eq. reflexivity.
  - unfold disableAutoSave. rewrite Hown. reflexivity.
Qed.

End PersistenceMore.
End PersistenceMore.

(** ** The further properties on examples *)

Module ServerMoreExamples.
Import Js Prog Server Desk Transport Brittle ServerMore.
#[local] Open Scope list_scope.

Lemma command_responses_are_not_flagged_witness :
  (get command_with_content "command" = inr list_command
   /\ truthy list_command = true)
  /\ exists r s',
       processThought command_with_content (one_branch 1) = (inr r, s')
       /\ isError r = None.
Proof.
  split; [split; reflexivity|].
  apply (command_responses_are_not_flagged command_with_content list_command
           (one_branch 1)); reflexivity.
Defined.

Lemma thought_response_witness :
  processThought a_thought fresh
  = (inr (reply (Pretty (JObj
       [("thoughtId", JStr "thought-1"); ("branchId", JStr "branch-1");
        ("branchState", JStr "active"); ("branchPriority", JNum 1);
        ("numInsights", JNum 0); ("numCrossRefs", JNum 0);
        ("activeBranch", JStr "branch-1")]))),
     {| branchManager := after_the_thought;
        console := ["branch-1 [active] 1 thoughts"];
        calls := [(CallAddThought a_thought, None);
                  (CallGetBranch (VStr "branch-1"), None);
                  (CallFormatBranchStatus (Some (new_branch "branch-1" recorded_thought)), None);
                  (CallGetActiveBranch, None)] |}).
Proof.
  exact (thought_response a_thought VUndefined fresh recorded_thought after_the_thought
           (new_branch "branch-1" recorded_thought) after_the_thought
           "branch-1 [active] 1 thoughts" after_the_thought
           (Some (new_branch "branch-1" recorded_thought)) after_the_thought
           eq_refl eq_refl eq_refl eq_refl eq_refl eq_refl).
Defined.

Lemma thought_is_kept_when_the_answer_fails_witness :
  @processThought Z _ desk brittle_BranchManager a_thought fresh
  = (inr (failure_response (ErrorObj "status unavailable") (Some true)),
     {| branchManager := after_the_thought; console := [];
        calls := [(CallAddThought a_thought, None);
                  (CallGetBranch (VStr "branch-1"), None);
                  (CallFormatBranchStatus (Some (new_branch "branch-1" recorded_thought)),
                   Some (ErrorObj "status unavailable"))] |}).
Proof.
  exact (proj1 (@thought_is_kept_when_the_answer_fails Z _ desk brittle_BranchManager
                  a_thought VUndefined fresh recorded_thought after_the_thought
                  (Some (new_branch "branch-1" recorded_thought)) after_the_thought
                  (inl (ErrorObj "status unavailable")) after_the_thought
                  eq_refl eq_refl eq_refl eq_refl eq_refl)
           (ErrorObj "status unavailable") eq_refl).
Defined.

Lemma focus_outcomes_witness :
  handleCommand (focus_on "b1") (one_branch 1)
  = (inr (reply (Pretty (JObj
       [("status", JStr "success");
        ("message", JStr "Now focused on branch: b1");
        ("activeBranch", JStr "b1")]))),
     {| branchManager := branchManager (one_branch 1);
        console := ["b1 [active] 1 thoughts"];
        calls := [(CallSetActiveBranch (VStr "b1"), None);
                  (CallGetBranch (VStr "b1"), None);
                  (CallFormatBranchStatus (head (branches (branchManager (one_branch 1)))),
                   None)] |}).
Proof.
  exact (proj2 (proj2 (focus_outcomes (focus_on "b1") (VStr "b1") (one_branch 1)
                         eq_refl eq_refl))
           (branchManager (one_branch 1))
           (head (branches (branchManager (one_branch 1))))
           (branchManager (one_branch 1))
           "b1 [active] 1 thoughts" (branchManager (one_branch 1)) (JStr "b1")
           eq_refl eq_refl eq_refl eq_refl eq_refl).
Defined.

Lemma history_with_branchId_witness :
  handleCommand (history_of "b1") fresh
  = (inr (failure_response (ErrorObj "Branch b1 not found") None),
     {| branchManager := branchManager fresh; console := [];
        calls := [(CallGetBranch (VStr "b1"), None);
                  (CallGetBranchHistory (VStr "b1"),
                   Some (ErrorObj "Branch b1 not found"))] |}).
Proof.
  exact (proj2 (history_with_branchId (history_of "b1") (VStr "b1") fresh
                  (inr None) (branchManager fresh) eq_refl eq_refl eq_refl eq_refl)
           None (inl (ErrorObj "Branch b1 not found")) (branchManager fresh)
           eq_refl eq_refl).
Defined.

Lemma runServer_outcomes_witness :
  runServer (branchManager fresh) (mret tt)
    (throw (ErrorObj "stdin closed") : prog Z (server Z desk) unit)
  = Exited 1 {| branchManager := branchManager fresh;
                console := ["Fatal error initializing server: stdin closed"];
                calls := [(CallInitialize, None)] |}.
Proof.
  exact (proj2 (runServer_outcomes (branchManager fresh) (mret tt)
                  (throw (ErrorObj "stdin closed")) (inr tt) (branchManager fresh)
                  eq_refl)
           tt (inl (ErrorObj "stdin closed"))
           {| branchManager := branchManager fresh; console := [];
              calls := [(CallInitialize, None)] |}
           eq_refl eq_refl).
Defined.

End ServerMoreExamples.

Module PersistenceMoreExamples.
Import Js Prog Persistence Manager Fixture Damaged PersistenceFacts PersistenceMore.
#[local] Open Scope list_scope.

Lemma ensureStorageDir_keeps_the_files_witness :
  let w := with_faults [true] corrupt_disk in
  (ensureStorageDir w).1 = inr tt
  /\ disk (ensureStorageDir w).2 = disk corrupt_disk.
Proof.
  intros w.
  assert (Hrun : ensureStorageDir w = (inr tt, (ensureStorageDir w).2))
    by (vm_compute; reflexivity).
  split; [exact (f_equal fst Hrun)|].
  exact (proj1 (ensureStorageDir_keeps_the_files w _ _ Hrun) _ eq_refl).
Defined.

Lemma saveState_never_removes_a_file_witness :
  let w := with_manager [branch "b2" []] corrupt_disk in
  exists d', disk (saveState w).2 = Some d' /\ is_Some (d' !! "b1.json").
Proof.
  intros w.
  assert (Hfile : is_Some (({[ "b1.json" := Raw "{ id: b1, " ]} : gmap string (file Z))
                             !! "b1.json"))
    by (vm_compute; eexists; reflexivity).
  exact (saveState_never_removes_a_file w (saveState w).1 (saveState w).2 _ "b1.json"
           (surjective_pairing _) eq_refl Hfile).
Defined.

Lemma loadState_writes_no_file_witness :
  disk (loadState corrupt_disk).2 = disk corrupt_disk
  \/ (disk corrupt_disk = None /\ disk (loadState corrupt_disk).2 = Some ∅).
Proof.
  exact (loadState_writes_no_file corrupt_disk (loadState corrupt_disk).1
           (loadState corrupt_disk).2 (surjective_pairing _)).
Defined.

Lemma saveState_returns_witness :
  let w := process 1730512900000 two_branches in
  exists w',
    saveState w = (inr tt, w')
    /\ disk w'
       = Some (<["index.json" := JSON_stringify
                                   (VArr (map (entry_of_view 1730512900000) two_views))]>
                 (write_all (branch_files two_branches [0%nat; 1%nat] two_views) ∅))
    /\ manager w' = two_branches
    /\ calls w' = [CallGetAllBranches]
    /\ console w' = [].
Proof.
  intros w.
  assert (Hviews : Forall2 has_view
            (map (fun r => branch_at r two_branches) [0%nat; 1%nat]) two_views).
  { repeat constructor. }
  assert (Hplain : Forall (fun v => plain_name (file_name v) = true) two_views).
  { repeat constructor. }
  exact (saveState_returns w [0%nat; 1%nat] two_branches two_views
           (not_elem_of_nil true) eq_refl Hviews Hplain).
Defined.

Lemma save_stops_at_the_first_failed_write_witness :
  exists w',
    saveState second_write_fails = (inl (io_error "EIO: i/o error"), w')
    /\ disk w'
       = Some (write_all (take 1 (branch_files two_branches [0%nat; 1%nat] two_views)) ∅)
    /\ faults w' = [].
Proof.
  assert (Hviews : Forall2 has_view
            (map (fun r => branch_at r two_branches) [0%nat; 1%nat]) two_views).
  { repeat constructor. }
  assert (Hplain : Forall (fun v => plain_name (file_name v) = true) two_views).
  { repeat constructor. }
  assert (Hk : (1 <= List.length [0%nat; 1%nat])%nat) by (simpl; lia).
  exact (save_stops_at_the_first_failed_write second_write_fails ∅
           [0%nat; 1%nat] two_branches two_views 1 [] eq_refl eq_refl eq_refl
           Hviews Hplain Hk).
Defined.

Lemma loadState_returns_witness :
  let w := restart saved_two in
  exists w',
    loadState w = (inr tt, w')
    /\ disk w' = Some (default ∅ (disk w))
    /\ console w' = console w
    /\ (disk w = None -> calls w' = calls w).
Proof.
  intros w.
  apply (loadState_returns w (not_elem_of_nil true)).
  - intros b m. exists (register b m). reflexivity.
  - intros name f Hf Hname. apply elem_of_map_to_list, list_elem_of_In in Hf.
    pose (loadable := fun entry : string * file Z =>
            if is_branch_file entry.1
            then match JSON_parse entry.2 with
                 | inr parsed => match rehydrate parsed with
                                 | inr _ => true
                                 | inl _ => false
                                 end
                 | inl _ => false
                 end
            else true).
    assert (Hall : forallb loadable (map_to_list (default ∅ (disk w))) = true)
      by (vm_compute; reflexivity).
    rewrite forallb_forall in Hall. specialize (Hall (name, f) Hf).
    unfold loadable in Hall. cbn [fst snd] in Hall. rewrite Hname in Hall.
    destruct (JSON_parse f) as [e|parsed]; [discriminate Hall|].
    destruct (rehydrate parsed) as [e|branch] eqn:Hbranch; [discriminate Hall|eauto].
Defined.

Lemma a_corrupt_file_fails_the_load_witness :
  (loadState corrupt_disk).1 = inl (ErrorObj "Failed to load persisted state").
Proof.
  assert (Hfile : ({[ "b1.json" := Raw "{ id: b1, " ]} : gmap string (file Z)) !! "b1.json"
                  = Some (Raw "{ id: b1, "))
    by (vm_compute; reflexivity).
  apply (a_corrupt_file_fails_the_load corrupt_disk (loadState corrupt_disk).1
           (loadState corrupt_disk).2 _ "b1.json" (Raw "{ id: b1, ")
           (surjective_pairing _) eq_refl Hfile eq_refl).
  intros parsed Hparse. discriminate Hparse.
Defined.

Lemma saved_branches_are_handed_back_witness :
  exists w3 branches,
    loadState (restart saved_two) = (inr tt, w3)
    /\ calls w3 = calls (restart saved_two) ++ map CallReconstructBranch branches
    /\ branches ≡ₚ map (fun r => branch_at r two_branches) [0%nat; 1%nat].
Proof.
  assert (Hsave : saveState (process 1730512900000 two_branches) = (inr tt, saved_two))
    by (vm_compute; reflexivity).
  assert (Hviews : Forall2 has_view
            (map (fun r => branch_at r two_branches) [0%nat; 1%nat]) two_views).
  { repeat constructor. }
  assert (Hnodup : NoDup (map view_id two_views)) by compute_done.
  assert (Hindex : "index"%string ∉ map view_id two_views) by compute_done.
  assert (Hstored : Forall stored_branch
            (map (fun r => branch_at r two_branches) [0%nat; 1%nat])).
  { repeat constructor; apply PersistenceExamples.fixture_branch_stored;
      repeat constructor; apply PersistenceExamples.fixture_thought_stored; reflexivity. }
  assert (Hplain : Forall (fun v => plain_name (file_name v) = true) two_views).
  { repeat constructor. }
  apply (saved_branches_are_handed_back (process 1730512900000 two_branches) saved_two
           (restart saved_two) [0%nat; 1%nat] two_branches two_views
           Hsave eq_refl Hviews Hnodup Hindex Hplain Hstored).
  - intros name _ [f Hf]. simpl in Hf. rewrite lookup_empty in Hf. discriminate Hf.
  - reflexivity.
  - apply not_elem_of_nil.
  - intros b m. exists (register b m). reflexivity.
Defined.

(** A timestamp that [new Date] cannot make a primitive fails the load. *)
Example a_timestamp_without_string_form :
  let loaded := loadState odd_timestamp in
  loaded.1 = inl (ErrorObj "Failed to load persisted state")
  /\ console loaded.2
     = ["Error loading state: Cannot convert object to primitive value"]
  /\ calls loaded.2 = [].
Proof. vm_compute. repeat split. Qed.

Lemma rehydrate_changes_only_timestamps_witness :
  exists b',
    rehydrate parsed_branch = inr b'
    /\ (forall k, k <> "thoughts"%string -> get b' k = get parsed_branch k)
    /\ exists ts ts',
         get parsed_branch "thoughts" = inr (VArr ts)
         /\ get b' "thoughts" = inr (VArr ts')
         /\ Forall2 (fun t t' => forall k, k <> "timestamp"%string -> get t' k = get t k)
              ts ts'.
Proof.
  eexists. split; [vm_compute; reflexivity|].
  apply (rehydrate_changes_only_timestamps parsed_branch). vm_compute. reflexivity.
Defined.

Lemma cleared_timer_never_saves_witness :
  let w := enableAutoSave 1000 (process 0 single_branch) in
  fire 0%nat (disableAutoSave w) = (inr tt, disableAutoSave w)
  /\ fire 0%nat (enableAutoSave 2000 w) = (inr tt, enableAutoSave 2000 w)
  /\ disableAutoSave (disableAutoSave w) = disableAutoSave w.
Proof.
  intros w.
  destruct (cleared_timer_never_saves w 0%nat eq_refl) as (Hoff & Hreplaced & Htwice).
  assert (Hne : 0%nat <> next_timer w) by discriminate.
  exact (conj Hoff (conj (Hreplaced 2000 Hne) Htwice)).
Defined.

End PersistenceMoreExamples.

